(** * Route53 zone generator: additive text model

    A shallow embedding of [scripts/generate_terraform_zones.py]
    (class [Route53TerraformGenerator]) and the properties of its
    text model: record-name relativisation, module-name sanitising,
    TXT escaping, the additive merge of the two [outputs.tf] documents,
    and the planning of [imports.tf].

    Text is a list of characters.  A character is a code point below 256
    (the 8 bits of [ascii]); the classifications [isspace], [isalpha],
    [isalnum] and the line boundaries of [splitlines] follow CPython's
    tables on that range.  Names delivered by Route 53 are ASCII. *)

From Stdlib Require Import String DecimalString.
From Stdlib Require Import List Ascii Bool Arith Lia ZArith.
Import ListNotations.

Set Implicit Arguments.

(** ** Text and the Python string operations the script uses *)

Definition str := list ascii.

(** A literal of the source, as text. *)
Definition L (s : string) : str := list_ascii_of_string s.
Arguments L s%_string.

Definition dq : ascii := "034"%char.   (* the double quote *)
Definition bs : ascii := "092"%char.   (* the backslash *)
Definition nl : ascii := "010"%char.   (* the line feed *)
Definition cr : ascii := "013"%char.   (* the carriage return *)
Definition us : ascii := "_"%char.

(** [f'Q{x}Q'], [Q] the double quote *)
Definition quoted (x : str) : str := dq :: x ++ [dq].

Fixpoint str_eqb (a b : str) : bool :=
  match a, b with
  | [], [] => true
  | x :: a', y :: b' => Ascii.eqb x y && str_eqb a' b'
  | _, _ => false
  end.

(** [x in xs] on a list or a set of strings. *)
Definition mem (x : str) (xs : list str) : bool := existsb (str_eqb x) xs.

(** [s.startswith(p)] *)
Fixpoint startswith (p s : str) : bool :=
  match p, s with
  | [], _ => true
  | x :: p', y :: s' => Ascii.eqb x y && startswith p' s'
  | _ :: _, [] => false
  end.

(** [s.endswith(suf)] *)
Definition endswith (suf s : str) : bool :=
  (length suf <=? length s) &&
  str_eqb (skipn (length s - length suf) s) suf.

(** [s[:-k]] for [k >= 1]: all but the last [k] characters, the empty
    text when [s] is shorter than [k]. *)
Definition slice_to_neg (k : nat) (s : str) : str := firstn (length s - k) s.

(** [s[1:-1]] *)
Definition slice_1_neg1 (s : str) : str := skipn 1 (firstn (length s - 1) s).

(** [s.replace(old, new)] for a non-empty [old]: leftmost occurrences,
    not overlapping.  [skip] counts the characters of a replaced
    occurrence still to pass over. *)
Fixpoint replace_from (old new : str) (skip : nat) (s : str) : str :=
  match s with
  | [] => []
  | c :: s' =>
      match skip with
      | S k => replace_from old new k s'
      | O =>
          if startswith old s
          then new ++ replace_from old new (length old - 1) s'
          else c :: replace_from old new 0 s'
      end
  end.

Definition replace (old new s : str) : str := replace_from old new 0 s.

(** [str.isspace] of one character; it is also the class [\s] of [re]. *)
Definition isspace (c : ascii) : bool :=
  let n := nat_of_ascii c in
  ((9 <=? n) && (n <=? 13)) || ((28 <=? n) && (n <=? 32))
  || (n =? 133) || (n =? 160).

(** [str.isalpha] of one character. *)
Definition isalpha (c : ascii) : bool :=
  let n := nat_of_ascii c in
  ((65 <=? n) && (n <=? 90)) || ((97 <=? n) && (n <=? 122))
  || (n =? 170) || (n =? 181) || (n =? 186)
  || ((192 <=? n) && (n <=? 214)) || ((216 <=? n) && (n <=? 246))
  || ((248 <=? n) && (n <=? 255)).

(** [str.isalnum] of one character: alphabetic, decimal, digit or numeric. *)
Definition isalnum (c : ascii) : bool :=
  let n := nat_of_ascii c in
  isalpha c || ((48 <=? n) && (n <=? 57))
  || (n =? 178) || (n =? 179) || (n =? 185)
  || ((188 <=? n) && (n <=? 190)).

Fixpoint dropwhile (f : ascii -> bool) (s : str) : str :=
  match s with
  | [] => []
  | c :: s' => if f c then dropwhile f s' else s
  end.

(** [s.lstrip(chars)], [s.rstrip(chars)], [s.strip(chars)] with the set of
    characters given as a predicate. *)
Definition lstrip_by (f : ascii -> bool) (s : str) : str := dropwhile f s.
Definition rstrip_by (f : ascii -> bool) (s : str) : str :=
  rev (dropwhile f (rev s)).
Definition strip_by (f : ascii -> bool) (s : str) : str :=
  rstrip_by f (lstrip_by f s).

(** [s.rstrip()], [s.strip()] *)
Definition rstrip (s : str) : str := rstrip_by isspace s.
Definition strip (s : str) : str := strip_by isspace s.

(** [s.rstrip('.')] and [s.strip(Q)], [Q] the double quote *)
Definition rstrip_dot (s : str) : str := rstrip_by (Ascii.eqb "."%char) s.
Definition strip_dq (s : str) : str := strip_by (Ascii.eqb dq) s.

(** [sep.join(xs)] *)
Fixpoint join (sep : str) (xs : list str) : str :=
  match xs with
  | [] => []
  | x :: rest =>
      match rest with
      | [] => x
      | _ :: _ => x ++ sep ++ join sep rest
      end
  end.

(** ['\n'.join(xs)] *)
Definition unlines (xs : list str) : str := join [nl] xs.

(** [s.find(sub)], [-1] when [sub] does not occur. *)
Fixpoint find_at (sub : str) (i : nat) (s : str) : Z :=
  if startswith sub s then Z.of_nat i
  else match s with
       | [] => (-1)%Z
       | _ :: s' => find_at sub (S i) s'
       end.

Definition find (sub s : str) : Z := find_at sub 0 s.

(** [s.rfind(sub)], [-1] when [sub] does not occur. *)
Fixpoint rfind_at (sub : str) (i : nat) (s : str) : Z :=
  match s with
  | [] => if startswith sub [] then Z.of_nat i else (-1)%Z
  | _ :: s' =>
      let r := rfind_at sub (S i) s' in
      if (0 <=? r)%Z then r
      else if startswith sub s then Z.of_nat i else (-1)%Z
  end.

Definition rfind (sub s : str) : Z := rfind_at sub 0 s.

(** [c in s] *)
Definition contains_char (c : ascii) (s : str) : bool := existsb (Ascii.eqb c) s.

(** [s.split(c, 1)[1]]: the text after the first [c]; the callers test that
    [c] occurs. *)
Fixpoint after_first (c : ascii) (s : str) : str :=
  match s with
  | [] => []
  | x :: s' => if Ascii.eqb x c then s' else after_first c s'
  end.

(** [s.rsplit(c, 1)[0]]: the text before the last [c], all of [s] when [c]
    does not occur. *)
Fixpoint rsplit1_head (c : ascii) (s : str) : str :=
  match s with
  | [] => []
  | x :: s' =>
      if contains_char c s' then x :: rsplit1_head c s'
      else if Ascii.eqb x c then [] else s
  end.

(** Line boundaries of [str.splitlines]. *)
Definition is_linebreak (c : ascii) : bool :=
  let n := nat_of_ascii c in
  ((10 <=? n) && (n <=? 13)) || ((28 <=? n) && (n <=? 30)) || (n =? 133).

(** [s.splitlines()]: [cur] is the current line, reversed.  A carriage
    return followed by a line feed is one boundary; no empty last line. *)
Fixpoint splitlines_from (cur : str) (s : str) : list str :=
  match s with
  | [] => match cur with [] => [] | _ :: _ => [rev cur] end
  | c :: s' =>
      if is_linebreak c then
        if Ascii.eqb c cr then
          match s' with
          | d :: s'' =>
              if Ascii.eqb d nl then rev cur :: splitlines_from [] s''
              else rev cur :: splitlines_from [] s'
          | [] => rev cur :: splitlines_from [] s'
          end
        else rev cur :: splitlines_from [] s'
      else splitlines_from (c :: cur) s'
  end.

Definition splitlines (s : str) : list str := splitlines_from [] s.

(** [str(n)] and [f'{n}'] of an integer. *)
Definition str_of_int (n : Z) : str := L (NilZero.string_of_int (Z.to_int n)).

(** ** [re.findall(r'output\s+Q([^Q]+)Q', content)], [Q] the double quote

    The pattern has no choice points that matter: [\s+] must be followed by
    a double quote, which is not white space, and [[^Q]+] must be followed by
    the double quote that ends the longest run it can take.  So a match at a
    position is the word [output], a non-empty run of white space, a double
    quote, a non-empty run of other characters and a double quote. *)

(** The longest prefix of characters that satisfy [f], and what follows it. *)
Fixpoint span (f : ascii -> bool) (s : str) : str * str :=
  match s with
  | [] => ([], [])
  | c :: s' =>
      if f c then let '(a, b) := span f s' in (c :: a, b)
      else ([], s)
  end.

Definition not_dq (c : ascii) : bool := negb (Ascii.eqb c dq).

(** The match of the pattern at the start of [s]: the group and the number
    of characters matched. *)
Definition match_output_here (s : str) : option (str * nat) :=
  if startswith (L "output") s then
    let '(ws, s2) := span isspace (skipn 6 s) in
    match ws, s2 with
    | _ :: _, q :: s3 =>
        if Ascii.eqb q dq then
          let '(body, s4) := span not_dq s3 in
          match body, s4 with
          | _ :: _, _ :: _ => Some (body, 6 + length ws + 1 + length body + 1)
          | _, _ => None
          end
        else None
    | _, _ => None
    end
  else None.

(** The scan of [findall]: leftmost matches, not overlapping.  [skip] counts
    the characters of the last match still to pass over. *)
Fixpoint findall_from (skip : nat) (s : str) : list str :=
  match s with
  | [] => []
  | _ :: s' =>
      match skip with
      | S k => findall_from k s'
      | O =>
          match match_output_here s with
          | Some (body, n) => body :: findall_from (n - 1) s'
          | None => findall_from 0 s'
          end
      end
  end.

Definition findall_output (content : str) : list str := findall_from 0 content.

(** *** Texts that end inside a name

    [opens_here s]: [s] is the word [output], white space, a double quote and
    no further double quote, so that text put behind [s] would continue the
    name. *)
Definition opens_here (s : str) : bool :=
  if startswith (L "output") s then
    let '(ws, s2) := span isspace (skipn 6 s) in
    match ws, s2 with
    | _ :: _, q :: s3 =>
        Ascii.eqb q dq
        && match snd (span not_dq s3) with [] => true | _ :: _ => false end
    | _, _ => false
    end
  else false.

(** The scan of [findall] reaches the end of [s] inside a name it has
    begun. *)
Fixpoint open_from (skip : nat) (s : str) : bool :=
  match s with
  | [] => false
  | _ :: s' =>
      match skip with
      | S k => open_from k s'
      | O =>
          match match_output_here s with
          | Some (_, n) => open_from (n - 1) s'
          | None => opens_here s || open_from 0 s'
          end
      end
  end.

Definition unterminated (s : str) : bool := open_from 0 s.

(** Text that cannot continue a match begun before it: it does not start
    with a later letter of [output], and it does not lead through white space
    to a double quote. *)
Definition inert (t : str) : bool :=
  match t with
  | [] => true
  | c :: _ =>
      negb (existsb (Ascii.eqb c) (L "utp"))
      && match dropwhile isspace t with
         | d :: _ => negb (Ascii.eqb d dq)
         | [] => true
         end
  end.

(** [w] is the word [output] followed by white space, and nothing else. *)
Definition is_output_ws (w : str) : bool :=
  startswith (L "output") w
  && match skipn 6 w with
     | [] => false
     | c :: r => forallb isspace (c :: r)
     end.

(** [w] ends with the word [output] followed by white space. *)
Fixpoint ends_output_ws (w : str) : bool :=
  is_output_ws w
  || match w with
     | [] => false
     | _ :: w' => ends_output_ws w'
     end.

(** A text given by its pieces between double quotes: each piece of [segs]
    is followed by a double quote, and [tail] follows the last of them. *)
Fixpoint segs_text (segs : list str) (tail : str) : str :=
  match segs with
  | [] => tail
  | u :: rest => u ++ dq :: segs_text rest tail
  end.

(** The names [findall] finds in [segs_text segs tail] before [tail]: a
    piece that ends with [output] and white space opens a name, the next
    piece is the name when it is not empty. *)
Fixpoint names_segs (segs : list str) : list str :=
  match segs with
  | [] => []
  | u :: rest =>
      if ends_output_ws u then
        match rest with
        | [] => []
        | v :: rest' =>
            match v with
            | [] => names_segs rest
            | _ :: _ => v :: names_segs rest'
            end
        end
      else names_segs rest
  end.

(** The last piece opens a name that [tail] would continue. *)
Fixpoint segs_open (segs : list str) : bool :=
  match segs with
  | [] => false
  | u :: rest =>
      if ends_output_ws u then
        match rest with
        | [] => true
        | v :: rest' =>
            match v with
            | [] => segs_open rest
            | _ :: _ => segs_open rest'
            end
        end
      else segs_open rest
  end.

(** ** [sanitize_module_name] *)

Definition sanitize_char (ch : ascii) : ascii :=
  if isalnum ch || Ascii.eqb ch us then ch else us.

Definition sanitize_module_name (domain : str) : str :=
  let name := replace (L "-") (L "_") (replace (L ".") (L "_") domain) in
  let name :=
    match name with
    | [] => us :: name
    | c :: _ => if isalpha c || Ascii.eqb c us then name else us :: name
    end in
  map sanitize_char name.

(** What [sanitize_module_name] makes of one character of the input: the
    two replacements, then the loop over the characters. *)
Definition sanitized_char (c : ascii) : ascii :=
  let d := if Ascii.eqb "." c then us else c in
  sanitize_char (if Ascii.eqb "-" d then us else d).

(** ** The data the script passes around *)

(** A hosted zone as [list_hosted_zones] returns it. *)
Record Zone := {
  z_id : str;
  z_name : str;
  z_private : bool;
  z_comment : str;
  z_resource_record_set_count : Z
}.

(** A record set as Route 53 delivers it. *)
Record AliasTarget := {
  DNSName : str;
  HostedZoneId : str;
  EvaluateTargetHealth : bool
}.

Record RecordSet := {
  rs_Name : str;
  rs_Type : str;
  rs_TTL : option Z;
  rs_ResourceRecords : option (list str);
  rs_AliasTarget : option AliasTarget
}.

(** A record as [get_zone_records] returns it; the key [alias] is present
    only for alias records. *)
Record Alias := {
  alias_name : str;
  alias_zone_id : str;
  alias_evaluate_target_health : bool
}.

Record RecordData := {
  r_name : str;
  r_type : str;
  r_ttl : option Z;
  r_records : list str;
  r_alias : option Alias
}.

(** An entry of [self.processed_zones]. *)
Record ProcessedZone := {
  p_name : str;
  p_id : str;
  p_is_subdomain : bool;
  p_has_records : bool;
  p_existing : bool
}.

(** What iterating [paginator.paginate(HostedZoneId=zone_id)] delivers: pages
    one after the other, until the listing ends or a call raises
    [ClientError]. *)
Inductive Pages :=
| PagesEnd
| PagesNext (page : list RecordSet) (rest : Pages)
| PagesError (e : str).

Definition TERRAFORM_MODULE_VERSION : str := L "~> 5.0".

(** ** [get_zone_records] *)

(** [record_set['Type'] in ['NS', 'SOA']] *)
Definition is_ns_or_soa (t : str) : bool := mem t [L "NS"; L "SOA"].

Definition record_data_of (rs : RecordSet) : RecordData :=
  {| r_name := rstrip_dot (rs_Name rs);
     r_type := rs_Type rs;
     r_ttl := match rs_AliasTarget rs with
              | Some _ => None
              | None => rs_TTL rs
              end;
     r_records := match rs_ResourceRecords rs with
                  | Some vs => vs
                  | None => []
                  end;
     r_alias := match rs_AliasTarget rs with
                | Some a =>
                    Some {| alias_name := rstrip_dot (DNSName a);
                            alias_zone_id := HostedZoneId a;
                            alias_evaluate_target_health := EvaluateTargetHealth a |}
                | None => None
                end |}.

(** The inner loop over one page. *)
Fixpoint page_records (zone_name : str) (page : list RecordSet) : list RecordData :=
  match page with
  | [] => []
  | rs :: rest =>
      if is_ns_or_soa (rs_Type rs) && str_eqb (rstrip_dot (rs_Name rs)) zone_name
      then page_records zone_name rest
      else record_data_of rs :: page_records zone_name rest
  end.

(** The [try] block: [records] grows page by page; [ClientError] leaves the
    loop, prints and falls through to [return records].  The result is the
    records and what was printed. *)
Fixpoint get_zone_records_from (zone_name : str) (pages : Pages)
    (records : list RecordData) : list RecordData * list str :=
  match pages with
  | PagesEnd => (records, [])
  | PagesNext page rest =>
      get_zone_records_from zone_name rest (records ++ page_records zone_name page)
  | PagesError e =>
      (records, [L "Error listing records for zone " ++ zone_name ++ L ": " ++ e])
  end.

Definition get_zone_records (zone_name : str) (pages : Pages)
  : list RecordData * list str :=
  get_zone_records_from zone_name pages [].

(** ** [is_subdomain] *)

Fixpoint is_subdomain (domain : str) (zones : list Zone) : option str :=
  match zones with
  | [] => None
  | zone :: rest =>
      if negb (str_eqb domain (z_name zone))
         && endswith (L "." ++ z_name zone) domain
      then Some (z_name zone)
      else is_subdomain domain rest
  end.

(** Truth value of an [Optional[str]]: [None] and the empty text are false. *)
Definition truthy (o : option str) : bool :=
  match o with
  | Some (_ :: _) => true
  | _ => false
  end.

(** ** The relative name of a record

    The script computes it in place in [generate_terraform_content], in
    [generate_import_commands] and in [generate_import_blocks]; each site is
    embedded on its own. *)

(** [generate_terraform_content], the head of the loop over [records]. *)
Definition content_record_name (zone_name : str) (record_name_full : str) : str :=
  let record_name :=
    if str_eqb record_name_full zone_name then []
    else if endswith (L "." ++ zone_name) record_name_full
         then slice_to_neg (length zone_name + 1) record_name_full
         else record_name_full in
  match record_name with
  | [] => record_name
  | _ :: _ =>
      let record_name := replace (L "\100") (L "@") record_name in
      if str_eqb record_name (L "@") then []
      else if endswith (L ".@") record_name || endswith (L ".\100") record_name
           then rsplit1_head "."%char record_name
           else record_name
  end.

(** [generate_import_blocks], the head of the loop over [records]. *)
Definition import_record_name (zone_name : str) (record_name_full : str) : str :=
  let record_name :=
    if str_eqb record_name_full zone_name then []
    else if endswith (L "." ++ zone_name) record_name_full
         then slice_to_neg (length zone_name + 1) record_name_full
         else record_name_full in
  match record_name with
  | [] => record_name
  | _ :: _ =>
      let record_name := replace (L "\100") (L "@") record_name in
      if str_eqb record_name (L "@") then []
      else if endswith (L ".@") record_name || endswith (L ".\100") record_name
           then rsplit1_head "."%char record_name
           else record_name
  end.

(** [generate_import_commands], the head of the loop over [records]. *)
Definition commands_record_name (zone_name : str) (record_name_full : str) : str :=
  let record_name :=
    if str_eqb record_name_full zone_name then []
    else if endswith (L "." ++ zone_name) record_name_full
         then slice_to_neg (length zone_name + 1) record_name_full
         else record_name_full in
  match record_name with
  | [] => record_name
  | _ :: _ =>
      let record_name := replace (L "\100") (L "@") record_name in
      if str_eqb record_name (L "@") then []
      else if endswith (L ".@") record_name || endswith (L ".\100") record_name
           then rsplit1_head "."%char record_name
           else record_name
  end.

(** The relative name in the words of the specification: the zone suffix
    is stripped, the escaped label becomes [@], a lone [@] becomes the empty
    name, and a trailing [.@] or escaped label is cut off. *)
Definition relative_name_spec (zone_name owner : str) : str :=
  let base :=
    if str_eqb owner zone_name then []
    else if endswith (L "." ++ zone_name) owner
         then firstn (length owner - length (L "." ++ zone_name)) owner
         else owner in
  let r := replace (L "\100") (L "@") base in
  if str_eqb r (L "@") then []
  else if endswith (L ".@") r then firstn (length r - 2) r
  else if endswith (L ".\100") r then firstn (length r - 5) r
  else r.

(** ** [generate_terraform_content] *)

(** The TXT branch: one value of [record['records']] as a literal. *)
Definition txt_strip_outer (r : str) : str :=
  if startswith [dq] r && endswith [dq] r then slice_1_neg1 r else r.

Definition hcl_escape (r : str) : str :=
  replace [dq] [bs; dq] (replace [bs] [bs; bs] r).

(** What the two replacements make of one character. *)
Definition hcl_escape_char (c : ascii) : str :=
  if Ascii.eqb c bs then [bs; bs]
  else if Ascii.eqb c dq then [bs; dq]
  else [c].

Definition format_txt_record (r : str) : str :=
  quoted (hcl_escape (txt_strip_outer r)).

(** Reading a literal back: a backslash stands for the character after it. *)
Fixpoint hcl_unescape (s : str) : str :=
  match s with
  | [] => []
  | c :: s' =>
      if Ascii.eqb c bs then
        match s' with
        | d :: s'' => d :: hcl_unescape s''
        | [] => [c]
        end
      else c :: hcl_unescape s'
  end.

(** Reading a quoted literal back: the text between the outer quotes,
    unescaped. *)
Definition read_hcl_literal (lit : str) : str := hcl_unescape (slice_1_neg1 lit).

Definition formatted_records (record : RecordData) : list str :=
  if str_eqb (r_type record) (L "TXT") then map format_txt_record (r_records record)
  else if str_eqb (r_type record) (L "MX") then map quoted (r_records record)
  else map quoted (r_records record).

(** [str(b).lower()] *)
Definition lower_bool (b : bool) : str := if b then L "true" else L "false".

(** The lines of one entry of [records = [...]]. *)
Definition record_entry_lines (zone_name : str) (record : RecordData) : list str :=
  let record_name := content_record_name zone_name (r_name record) in
  [ L "    {";
    L "      name = " ++ quoted record_name;
    L "      type = " ++ quoted (r_type record) ]
  ++ match r_alias record with
     | Some a =>
         [ L "      alias = {";
           L "        name    = " ++ quoted (alias_name a);
           L "        zone_id = " ++ quoted (alias_zone_id a);
           L "        evaluate_target_health = "
             ++ lower_bool (alias_evaluate_target_health a);
           L "      }" ]
     | None =>
         match r_ttl record with
         | Some t => if Z.eqb t 0 then [] else [L "      ttl  = " ++ str_of_int t]
         | None => []
         end
         ++ match r_records record with
            | [] => []
            | _ :: _ =>
                match formatted_records record with
                | [r] => [L "      records = [" ++ r ++ L "]"]
                | rs =>
                    [L "      records = ["]
                    ++ map (fun r => L "        " ++ r ++ L ",") rs
                    ++ [L "      ]"]
                end
            end
     end
  ++ [ L "    }," ].

Definition delegation_set_lines (zone_name module_name : str) : list str :=
  [ L "# Create delegation set for subdomain";
    L "module " ++ quoted (module_name ++ L "_delegation_set") ++ L " {";
    L "  source  = " ++ quoted (L "terraform-aws-modules/route53/aws//modules/delegation-sets");
    L "  version = " ++ quoted TERRAFORM_MODULE_VERSION;
    [];
    L "  delegation_sets = {";
    L "    " ++ quoted (module_name ++ L "_set") ++ L " = {";
    L "      reference_name = " ++ quoted zone_name;
    L "    }";
    L "  }";
    L "}";
    [] ].

Definition zone_lines (zone : Zone) (module_name : str) (sub : bool) : list str :=
  let zone_name := z_name zone in
  [ L "# Create the " ++ (if sub then L "subdomain " else []) ++ L "zone";
    L "module " ++ quoted (module_name ++ (if sub then L "_subdomain_zone" else []))
      ++ L " {";
    L "  source  = " ++ quoted (L "terraform-aws-modules/route53/aws//modules/zones");
    L "  version = " ++ quoted TERRAFORM_MODULE_VERSION;
    [];
    L "  zones = {";
    L "    " ++ quoted zone_name ++ L " = {" ]
  ++ [ match z_comment zone with
       | _ :: _ => L "      comment = " ++ quoted (z_comment zone)
       | [] => L "      comment = " ++ quoted (zone_name ++ L " managed by Terraform")
       end ]
  ++ (if sub
      then [ L "      delegation_set_id = module." ++ module_name
               ++ L "_delegation_set.route53_delegation_set_id["
               ++ quoted (module_name ++ L "_set") ++ L "]" ]
      else [])
  ++ [ L "      tags = merge(";
       L "        var.common_tags,";
       L "        {";
       L "          Environment = var.environment";
       L "          Zone        = " ++ quoted zone_name;
       L "        }";
       L "      )";
       L "    }";
       L "  }" ]
  ++ (if sub
      then [ []; L "  depends_on = [module." ++ module_name ++ L "_delegation_set]" ]
      else [])
  ++ [ L "}"; [] ].

Definition records_module_lines (zone_name module_name : str) (sub : bool)
    (records : list RecordData) : list str :=
  [ L "# Create zone records";
    L "module " ++ quoted (module_name ++ (if sub then L "_subdomain_zone" else [])
                           ++ L "_records") ++ L " {";
    L "  source  = " ++ quoted (L "terraform-aws-modules/route53/aws//modules/records");
    L "  version = " ++ quoted TERRAFORM_MODULE_VERSION;
    [];
    L "  zone_name = " ++ quoted zone_name;
    [];
    L "  records = [" ]
  ++ flat_map (record_entry_lines zone_name) records
  ++ [ L "  ]"; []; L "}"; [] ].

(** The delegation records placed in the parent zone. *)
Definition delegation_records_lines (zone_name module_name parent_zone : str)
  : list str :=
  let subdomain_prefix := slice_to_neg (length parent_zone + 1) zone_name in
  [ L "# Add NS records to the parent zone for delegation";
    L "module " ++ quoted (module_name ++ L "_delegation_records") ++ L " {";
    L "  source  = " ++ quoted (L "terraform-aws-modules/route53/aws//modules/records");
    L "  version = " ++ quoted TERRAFORM_MODULE_VERSION;
    [];
    L "  zone_name = " ++ quoted parent_zone;
    [];
    L "  records = [";
    L "    {";
    L "      name = " ++ quoted subdomain_prefix;
    L "      type = " ++ quoted (L "NS");
    L "      ttl  = 300";
    L "      records = module." ++ module_name
      ++ L "_subdomain_zone.route53_zone_name_servers[" ++ quoted zone_name ++ L "]";
    L "    }";
    L "  ]";
    [];
    L "}" ].

(** The list [content] at the end of [generate_terraform_content]. *)
Definition terraform_content_lines (zone : Zone) (records : list RecordData)
    (parent_zone : option str) : list str :=
  let zone_name := z_name zone in
  let module_name := sanitize_module_name zone_name in
  let sub := truthy parent_zone in
  [ L "# Terraform configuration for " ++ zone_name;
    L "# Generated automatically - review before applying";
    [] ]
  ++ (if sub then delegation_set_lines zone_name module_name else [])
  ++ zone_lines zone module_name sub
  ++ match records with
     | [] => []
     | _ :: _ => records_module_lines zone_name module_name sub records
     end
  ++ match parent_zone with
     | Some (c :: p) => delegation_records_lines zone_name module_name (c :: p)
     | _ => []
     end.

Definition generate_terraform_content (zone : Zone) (records : list RecordData)
    (parent_zone : option str) : str :=
  unlines (terraform_content_lines zone records parent_zone).

(** ** The two aggregate documents

    A document on disk is [None] when the file does not exist and
    [Some content] when it does. *)

Definition ALL_ZONES : str := L "all_zones".

(** The first component of [parse_zones_outputs_file]: the names of the
    output blocks other than the combined one.  The second component,
    [all_zones_content], is computed by the script and never read by
    [update_zones_outputs_file]. *)
Definition parse_zones_outputs_file (file : option str) : list str :=
  match file with
  | Some content =>
      filter (fun m => negb (str_eqb m ALL_ZONES)) (findall_output content)
  | None => []
  end.

Definition parse_root_outputs_file (file : option str) : list str :=
  match file with
  | Some content => findall_output content
  | None => []
  end.

Definition zone_module_of (module_name : str) (is_sub : bool) : str :=
  if is_sub then module_name ++ L "_subdomain_zone" else module_name.

Definition records_module_of (module_name : str) (is_sub : bool) : str :=
  if is_sub then module_name ++ L "_subdomain_zone_records"
  else module_name ++ L "_records".

Definition generate_zone_output_block (zone_name module_name : str)
    (is_sub has_records : bool) : list str :=
  let output_name := sanitize_module_name zone_name in
  let zone_module := zone_module_of module_name is_sub in
  let records_module := records_module_of module_name is_sub in
  [ L "# Output " ++ zone_name ++ L " details";
    L "output " ++ quoted output_name ++ L " {";
    L "  description = " ++ quoted (L "Details for " ++ zone_name);
    L "  value = {";
    L "    zone_id      = module." ++ zone_module ++ L ".route53_zone_zone_id["
      ++ quoted zone_name ++ L "]";
    L "    name_servers = module." ++ zone_module ++ L ".route53_zone_name_servers["
      ++ quoted zone_name ++ L "]";
    (if has_records
     then L "    records      = module." ++ records_module ++ L ".route53_record_name"
     else L "    records      = {}");
    L "  }";
    L "}" ].

(** The entry of one zone inside the combined output, as one text. *)
Definition all_zones_entry (zone_info : ProcessedZone) : str :=
  let zone_name := p_name zone_info in
  let module_name := sanitize_module_name zone_name in
  let zone_module := zone_module_of module_name (p_is_subdomain zone_info) in
  let records_module := records_module_of module_name (p_is_subdomain zone_info) in
  unlines
    [ L "    " ++ module_name ++ L " = {";
      L "      zone_id      = module." ++ zone_module ++ L ".route53_zone_zone_id["
        ++ quoted zone_name ++ L "]";
      L "      name_servers = module." ++ zone_module
        ++ L ".route53_zone_name_servers[" ++ quoted zone_name ++ L "]";
      (if p_has_records zone_info
       then L "      records      = module." ++ records_module
              ++ L ".route53_record_name"
       else L "      records      = {}");
      L "    }" ].

(** The individual output blocks of the zones, each followed by an empty
    line. *)
Definition output_blocks_of (zones : list ProcessedZone) : list str :=
  flat_map (fun zone_info =>
              generate_zone_output_block (p_name zone_info)
                (sanitize_module_name (p_name zone_info))
                (p_is_subdomain zone_info) (p_has_records zone_info)
              ++ [ [] ]) zones.

Definition _generate_full_zones_outputs_file (zones : list ProcessedZone) : str :=
  unlines
    (output_blocks_of zones
     ++ [ L "# Combined output of all zones";
          L "output " ++ quoted ALL_ZONES ++ L " {";
          L "  description = " ++ quoted (L "Combined information for all zones");
          L "  value = {";
          unlines (map all_zones_entry zones);
          L "  }";
          L "}" ]).

(** The zones whose output name is not yet in the group document. *)
Definition zones_to_add_group (processed : list ProcessedZone)
    (existing_zones : list str) : list ProcessedZone :=
  filter (fun zone_info =>
            negb (mem (sanitize_module_name (p_name zone_info)) existing_zones))
         processed.

(** The loop that splices the entries into the combined output, each at the
    same insertion point. *)
Definition splice_entries (value_end : nat) (all_zones_additions : list str)
    (all_zones_section : str) : str :=
  fold_left (fun section entry =>
               firstn value_end section ++ entry ++ [nl] ++ skipn value_end section)
            all_zones_additions all_zones_section.

(** The content [update_zones_outputs_file] writes for a non-empty
    [zones_to_add]. *)
Definition new_zones_outputs_content (zones_to_add : list ProcessedZone)
    (existing_content : str) : str :=
  let new_output_blocks := output_blocks_of zones_to_add in
  let all_zones_additions := map all_zones_entry zones_to_add in
  match existing_content with
  | [] => _generate_full_zones_outputs_file zones_to_add
  | _ :: _ =>
      let all_zones_pos := find (L "output " ++ quoted ALL_ZONES) existing_content in
      if (0 <? all_zones_pos)%Z then
        let before_all_zones :=
          rstrip (firstn (Z.to_nat all_zones_pos) existing_content) in
        let all_zones_section := skipn (Z.to_nat all_zones_pos) existing_content in
        let new_outputs :=
          [nl; nl] ++ rstrip (unlines new_output_blocks) ++ [nl; nl] in
        let value_end := rfind (L "  }") all_zones_section in
        let all_zones_section :=
          if (0 <? value_end)%Z
          then splice_entries (Z.to_nat value_end) all_zones_additions all_zones_section
          else all_zones_section in
        before_all_zones ++ new_outputs ++ all_zones_section
      else
        rstrip existing_content ++ [nl; nl]
          ++ _generate_full_zones_outputs_file zones_to_add
  end.

(** [update_zones_outputs_file]: [Some content] when the file is written
    with [content], [None] when it is left alone. *)
Definition update_zones_outputs_file (processed_zones : list ProcessedZone)
    (dry_run : bool) (file : option str) : option str :=
  match processed_zones with
  | [] => None
  | _ :: _ =>
      let existing_zones := parse_zones_outputs_file file in
      match zones_to_add_group processed_zones existing_zones with
      | [] => None
      | zones_to_add =>
          if dry_run then None
          else
            let existing_content :=
              match file with Some c => c | None => [] end in
            Some (new_zones_outputs_content zones_to_add existing_content)
      end
  end.

(** The zones whose reference is not yet in the root document. *)
Definition zones_to_add_root (processed : list ProcessedZone)
    (existing_outputs : list str) : list ProcessedZone :=
  filter (fun zone_info =>
            negb (mem (sanitize_module_name (p_name zone_info) ++ L "_details")
                      existing_outputs))
         processed.

Definition root_output_lines (zones : list ProcessedZone) : list str :=
  flat_map (fun zone_info =>
              let zone_name := p_name zone_info in
              let module_name := sanitize_module_name zone_name in
              [ L "output " ++ quoted (module_name ++ L "_details") ++ L " {";
                L "  description = " ++ quoted (L "Details for " ++ zone_name);
                L "  value = module.zones." ++ module_name;
                L "}";
                [] ]) zones.

(** The structure written when the root document does not exist. *)
Definition ROOT_PREAMBLE : str :=
  unlines
    [ L "output " ++ quoted (L "zones") ++ L " {";
      L "  description = " ++ quoted (L "All Route53 zone information");
      L "  value = module.zones.all_zones";
      L "}";
      [];
      [] ].

Definition new_root_outputs_content (zones_to_add : list ProcessedZone)
    (file : option str) : str :=
  let existing_content :=
    match file with Some c => c | None => ROOT_PREAMBLE end in
  rstrip existing_content ++ [nl; nl] ++ unlines (root_output_lines zones_to_add).

Definition update_root_outputs_file (processed_zones : list ProcessedZone)
    (dry_run : bool) (file : option str) : option str :=
  match processed_zones with
  | [] => None
  | _ :: _ =>
      let existing_outputs := parse_root_outputs_file file in
      match zones_to_add_root processed_zones existing_outputs with
      | [] => None
      | zones_to_add =>
          if dry_run then None
          else Some (new_root_outputs_content zones_to_add file)
      end
  end.

(** The document on disk after an update. *)
Definition after_update (file : option str) (written : option str) : option str :=
  match written with
  | Some content => Some content
  | None => file
  end.

(** ** Import planning

    [fetch zone_id] is what the paginator of the Route 53 client delivers
    for the zone. *)

Section ImportPlanning.

Variable fetch : str -> Pages.

(** [self.get_zone_records(zone_id, zone_name)], the records only. *)
Definition records_of (zone_id zone_name : str) : list RecordData :=
  fst (get_zone_records zone_name (fetch zone_id)).

(** The identifier of a record in [generate_import_blocks]. *)
Definition import_identifier (zone_id : str) (record : RecordData) : str :=
  let import_name_raw := rstrip_dot (r_name record) in
  let import_name_hcl := replace [bs] [bs; bs] import_name_raw in
  zone_id ++ L "_" ++ import_name_hcl ++ L "_" ++ r_type record.

Definition terraform_key (zone_name : str) (record : RecordData) : str :=
  import_record_name zone_name (r_name record) ++ L " " ++ r_type record.

Definition to_addr_zone (zone_info : ProcessedZone) : str :=
  let zone_name := p_name zone_info in
  let module_name := sanitize_module_name zone_name in
  L "module.zones.module." ++ zone_module_of module_name (p_is_subdomain zone_info)
    ++ L ".aws_route53_zone.this[" ++ quoted zone_name ++ L "]".

Definition to_addr_rec (zone_info : ProcessedZone) (record : RecordData) : str :=
  let zone_name := p_name zone_info in
  let module_name := sanitize_module_name zone_name in
  L "module.zones.module." ++ records_module_of module_name (p_is_subdomain zone_info)
    ++ L ".aws_route53_record.this[" ++ quoted (terraform_key zone_name record) ++ L "]".

Definition zone_import_block (zone_info : ProcessedZone) : list str :=
  [ L "# Import hosted zone";
    L "import {";
    L "  to = " ++ to_addr_zone zone_info;
    L "  id = " ++ quoted (p_id zone_info);
    L "}";
    [] ].

Definition record_import_block (zone_info : ProcessedZone) (record : RecordData)
  : list str :=
  [ L "# Import record: " ++ terraform_key (p_name zone_info) record;
    L "import {";
    L "  to = " ++ to_addr_rec zone_info record;
    L "  id = " ++ quoted (import_identifier (p_id zone_info) record);
    L "}";
    [] ].

(** The records of a zone that get a binding. *)
Definition importable (records : list RecordData) : list RecordData :=
  filter (fun record => negb (is_ns_or_soa (r_type record))) records.

(** The list [blocks] of [generate_import_blocks]. *)
Definition import_blocks (processed_zones : list ProcessedZone) : list str :=
  flat_map (fun zone_info =>
              if p_existing zone_info then
                zone_import_block zone_info
                ++ flat_map (record_import_block zone_info)
                     (importable (records_of (p_id zone_info) (p_name zone_info)))
              else [])
           processed_zones.

(** [_parse_existing_imports_to_addresses] *)
Definition address_of_line (line : str) : option str :=
  let line := strip line in
  if startswith (L "to") line && contains_char "="%char line
  then Some (strip_dq (strip (after_first "="%char line)))
  else None.

Fixpoint addresses_of_lines (lines : list str) : list str :=
  match lines with
  | [] => []
  | line :: rest =>
      match address_of_line line with
      | Some rhs => rhs :: addresses_of_lines rest
      | None => addresses_of_lines rest
      end
  end.

Definition _parse_existing_imports_to_addresses (content : str) : list str :=
  addresses_of_lines (splitlines content).

(** The state of the loop that filters [blocks]. *)
Record FilterState := {
  new_blocks : list str;
  current_to : option str;
  buffer : list str
}.

Definition filter_step (existing_addresses : list str) (st : FilterState)
    (line : str) : FilterState :=
  if startswith (L "import {") line then
    {| new_blocks := new_blocks st; current_to := None; buffer := [line] |}
  else if startswith (L "  to =") line then
    {| new_blocks := new_blocks st;
       current_to := Some (strip (after_first "="%char line));
       buffer := buffer st ++ [line] |}
  else if str_eqb line (L "}") then
    let buffer' := buffer st ++ [line] ++ [ [] ] in
    {| new_blocks :=
         match current_to st with
         | None => new_blocks st ++ buffer'
         | Some t =>
             if negb (mem (strip_dq t) existing_addresses)
             then new_blocks st ++ buffer'
             else new_blocks st
         end;
       current_to := None;
       buffer := [] |}
  else
    match buffer st with
    | _ :: _ =>
        {| new_blocks := new_blocks st; current_to := current_to st;
           buffer := buffer st ++ [line] |}
    | [] =>
        {| new_blocks := new_blocks st ++ [line]; current_to := current_to st;
           buffer := buffer st |}
    end.

Definition filter_blocks (existing_addresses : list str) (blocks : list str)
  : list str :=
  new_blocks
    (fold_left (filter_step existing_addresses) blocks
       {| new_blocks := []; current_to := None; buffer := [] |}).

(** [generate_import_blocks]: [Some content] when [imports.tf] is written
    with [content], [None] when nothing is written. *)
Definition generate_import_blocks (processed_zones : list ProcessedZone)
    (dry_run force : bool) (imports_file : option str) : option str :=
  match processed_zones with
  | [] => None
  | _ :: _ =>
      let blocks := import_blocks processed_zones in
      if dry_run then None
      else
        match imports_file, force with
        | Some existing_content, false =>
            let existing_addresses :=
              _parse_existing_imports_to_addresses existing_content in
            let new_blocks := filter_blocks existing_addresses blocks in
            Some match new_blocks with
                 | [] => existing_content
                 | _ :: _ =>
                     rstrip existing_content ++ [nl; nl]
                       ++ rstrip (unlines new_blocks) ++ [nl]
                 end
        | _, _ => Some (unlines blocks)
        end
  end.

(** The binding statements [generate_import_blocks] adds to the file: the
    filtered blocks when the file exists and is not overwritten, all blocks
    otherwise. *)
Definition emitted_blocks (processed_zones : list ProcessedZone)
    (force : bool) (imports_file : option str) : list str :=
  match imports_file, force with
  | Some existing_content, false =>
      filter_blocks (_parse_existing_imports_to_addresses existing_content)
        (import_blocks processed_zones)
  | _, _ => import_blocks processed_zones
  end.

(** One binding of [blocks]: its comment line, its target address and the
    line that gives the identifier. *)
Record Binding := {
  b_comment : str;
  b_to : str;
  b_id : str
}.

(** The statement of a binding, with the empty line behind it. *)
Definition binding_statement (b : Binding) : list str :=
  [ L "import {"; L "  to = " ++ b_to b; L "  id = " ++ quoted (b_id b); L "}"; [] ].

Definition zone_binding (zone_info : ProcessedZone) : Binding :=
  {| b_comment := L "# Import hosted zone";
     b_to := to_addr_zone zone_info;
     b_id := p_id zone_info |}.

Definition record_binding (zone_info : ProcessedZone) (record : RecordData)
  : Binding :=
  {| b_comment := L "# Import record: " ++ terraform_key (p_name zone_info) record;
     b_to := to_addr_rec zone_info record;
     b_id := import_identifier (p_id zone_info) record |}.

(** The bindings of [blocks], in order. *)
Definition bindings (processed_zones : list ProcessedZone) : list Binding :=
  flat_map (fun zone_info =>
              if p_existing zone_info then
                zone_binding zone_info
                :: map (record_binding zone_info)
                     (importable (records_of (p_id zone_info) (p_name zone_info)))
              else [])
           processed_zones.

(** The key under which a target address is compared: what both the parser
    of the existing file and the filter make of the text behind [to =]. *)
Definition address_key (addr : str) : str := strip_dq (strip addr).

(** *** [generate_import_commands]: the arguments of its [print] calls *)

Definition zone_import_command (zone_info : ProcessedZone) : str :=
  L "   terraform import 'module.zones.module."
    ++ zone_module_of (sanitize_module_name (p_name zone_info)) (p_is_subdomain zone_info)
    ++ L ".aws_route53_zone.this[" ++ quoted (p_name zone_info) ++ L "]' "
    ++ p_id zone_info.

Definition record_import_command (zone_info : ProcessedZone) (record : RecordData)
  : str :=
  let zone_name := p_name zone_info in
  let record_name := commands_record_name zone_name (r_name record) in
  let terraform_key := record_name ++ L " " ++ r_type record in
  let import_name :=
    match record_name with
    | [] => zone_name
    | _ :: _ => record_name ++ L "." ++ zone_name
    end in
  let import_identifier := p_id zone_info ++ L "_" ++ import_name ++ L "_" ++ r_type record in
  L "   terraform import 'module.zones.module."
    ++ records_module_of (sanitize_module_name zone_name) (p_is_subdomain zone_info)
    ++ L ".aws_route53_record.this[" ++ quoted terraform_key ++ L "]' "
    ++ import_identifier.

(** The comment that opens the records of a zone. *)
Definition records_comment (zone_info : ProcessedZone) : str :=
  nl :: L "   # Records for " ++ p_name zone_info.

(** The first loop: one command per zone. *)
Definition zone_commands (processed_zones : list ProcessedZone) : list str :=
  flat_map (fun zone_info =>
              if p_existing zone_info then [zone_import_command zone_info] else [])
           processed_zones.

(** The second loop: per zone, the comment and one command per record. *)
Definition record_commands (processed_zones : list ProcessedZone) : list str :=
  flat_map (fun zone_info =>
              if p_existing zone_info then
                records_comment zone_info
                :: map (record_import_command zone_info)
                     (importable (records_of (p_id zone_info) (p_name zone_info)))
              else [])
           processed_zones.

Definition import_commands_header : list str :=
  [ nl :: L "==================================================";
    L "Terraform Import Commands:";
    L "==================================================";
    nl :: L "Run these commands from the 'root' directory after reviewing the generated files:" ++ [nl];
    L "1. First initialize Terraform:";
    L "   terraform init";
    nl :: L "2. Import the zones:" ].

Definition import_commands_footer : list str :=
  [ nl :: L "4. After importing, run terraform plan to see what changes are needed:";
    L "   terraform plan";
    nl :: L "5. If everything looks good, apply the configuration:";
    L "   terraform apply";
    nl :: L "Notes:";
    L "- The record import format follows terraform-aws-modules/route53 conventions:";
    L "  * Terraform keys: '{record_name} {record_type}' (empty name for apex records)";
    L "  * Import identifiers: 'zone_id_full_record_name_record_type'";
    L "- NS and SOA records are typically skipped as they're managed by AWS";
    L "- You may need to escape quotes differently depending on your shell";
    L "- Some records might fail to import if they have special characters - review manually";
    L "- Use the verification commands above to check exact resource addresses" ].

Definition generate_import_commands (processed_zones : list ProcessedZone)
  : list str :=
  match processed_zones with
  | [] => []
  | _ :: _ =>
      import_commands_header
      ++ zone_commands processed_zones
      ++ [ nl :: L "3. Import the DNS records:" ]
      ++ record_commands processed_zones
      ++ import_commands_footer
  end.

(** ** [process_zone] and the loop of [run] over all zones *)

(** The state of a run: the zone files on disk, the zones processed so far
    and what was printed. *)
Record Run := {
  zone_files : list (str * str);
  processed_zones : list ProcessedZone;
  printed : list str
}.

Definition get_terraform_filename (domain : str) : str := domain ++ L ".tf".

Definition check_file_exists (st : Run) (domain : str) : bool :=
  existsb (fun f => str_eqb (fst f) (get_terraform_filename domain)) (zone_files st).

Definition say (st : Run) (lines : list str) : Run :=
  {| zone_files := zone_files st;
     processed_zones := processed_zones st;
     printed := printed st ++ lines |}.

(** [write_terraform_file]; the preview of a dry run is not modelled line
    by line.  The pictographs that open some messages of the script lie
    above code point 255 and are left out of the printed text. *)
Definition write_terraform_file (dry_run : bool) (st : Run) (domain content : str)
  : Run :=
  if dry_run then
    say st [L "[DRY RUN] Would create file: " ++ get_terraform_filename domain]
  else
    {| zone_files := (get_terraform_filename domain, content) :: zone_files st;
       processed_zones := processed_zones st;
       printed := printed st ++ [L "Created: " ++ get_terraform_filename domain] |}.

Definition process_zone (dry_run force : bool) (st : Run) (zone : Zone)
    (all_zones : list Zone) : bool * Run :=
  let zone_name := z_name zone in
  if check_file_exists st zone_name && negb force then
    (false, say st [L "Skipping " ++ zone_name ++ L " - Terraform file already exists (use --force to overwrite)"])
  else
    let st :=
      if check_file_exists st zone_name && force
      then say st [L "Overwriting existing file for " ++ zone_name]
      else st in
    if z_private zone then
      (false, say st [L "Skipping " ++ zone_name ++ L " - Private zone"])
    else
      let st := say st [L "Processing zone: " ++ zone_name] in
      let '(records, errors) := get_zone_records zone_name (fetch (z_id zone)) in
      let st := say st (errors ++ [L "  Found " ++ str_of_int (Z.of_nat (length records)) ++ L " records"]) in
      let parent_zone := is_subdomain zone_name all_zones in
      let st :=
        if truthy parent_zone
        then say st [L "  Detected as subdomain of "
                       ++ match parent_zone with Some p => p | None => [] end]
        else st in
      let content := generate_terraform_content zone records parent_zone in
      let st := write_terraform_file dry_run st zone_name content in
      (true,
       {| zone_files := zone_files st;
          processed_zones :=
            processed_zones st
            ++ [ {| p_name := zone_name;
                    p_id := z_id zone;
                    p_is_subdomain := match parent_zone with Some _ => true | None => false end;
                    p_has_records := negb (length records =? 0);
                    p_existing := true |} ];
          printed := printed st |}).

(** The loop [for zone in zones] of [run]: the state, and the counters
    [processed] and [skipped]. *)
Fixpoint process_all (dry_run force : bool) (st : Run) (todo all_zones : list Zone)
    (processed skipped : nat) : Run * nat * nat :=
  match todo with
  | [] => (st, processed, skipped)
  | zone :: rest =>
      let '(ok, st') := process_zone dry_run force st zone all_zones in
      if ok then process_all dry_run force st' rest all_zones (S processed) skipped
      else process_all dry_run force st' rest all_zones processed (S skipped)
  end.

End ImportPlanning.

(** ** Concrete inputs used in the examples *)

Definition example_zone (zone_id zone_name : string) : Zone :=
  {| z_id := L zone_id; z_name := L zone_name; z_private := false;
     z_comment := []; z_resource_record_set_count := 0 |}.

Definition example_record_set (owner type value : string) : RecordSet :=
  {| rs_Name := L owner; rs_Type := L type; rs_TTL := Some 300%Z;
     rs_ResourceRecords := Some [L value]; rs_AliasTarget := None |}.

Definition example_record (owner type value : string) : RecordData :=
  record_data_of (example_record_set owner type value).

Definition example_processed (zone_id zone_name : string) (has_records : bool)
  : ProcessedZone :=
  {| p_name := L zone_name; p_id := L zone_id; p_is_subdomain := false;
     p_has_records := has_records; p_existing := true |}.

(** A listing of [example.com] in one page. *)
Definition example_page : list RecordSet :=
  [ example_record_set "example.com." "NS" "ns-1.awsdns.org.";
    example_record_set "example.com." "A" "192.0.2.1";
    example_record_set "api.example.com." "A" "192.0.2.2";
    example_record_set "\100.example.com." "TXT" "v=spf1 -all" ].

(** A client that lists [example.com] (id [Z1]) in one page and every other
    zone as empty. *)
Definition example_fetch (zone_id : str) : Pages :=
  if str_eqb zone_id (L "Z1") then PagesNext example_page PagesEnd else PagesEnd.

(** A client whose second call for [Z1] raises. *)
Definition failing_fetch (zone_id : str) : Pages :=
  if str_eqb zone_id (L "Z1")
  then PagesNext example_page (PagesError (L "Throttling"))
  else PagesEnd.

(** A listing that delivers the pages [ps] and then goes on as [tail]. *)
Fixpoint pages_then (ps : list (list RecordSet)) (tail : Pages) : Pages :=
  match ps with
  | [] => tail
  | page :: rest => PagesNext page (pages_then rest tail)
  end.

(** Two processed zones, the first with records. *)
Definition example_two_zones : list ProcessedZone :=
  [ example_processed "Z1" "example.com" true;
    example_processed "Z2" "example.org" false ].

(** ** Conditions under which the merge is studied *)

(** A zone name without white space and without double quotes, as Route 53
    delivers names. *)
Definition plain_char (c : ascii) : bool := negb (isspace c) && not_dq c.
Definition plain_name (z : str) : bool := forallb plain_char z.

(** Lines, each ended by a line feed. *)
Definition lines_text (ls : list str) : str := flat_map (fun l => l ++ [nl]) ls.

(** The root document does not end inside a name: no [output], white space
    and double quote without a closing double quote is left open at the
    point where [update_root_outputs_file] appends. *)
Definition root_doc_ok (file : option str) : bool :=
  match file with
  | Some content => negb (unterminated (rstrip content))
  | None => true
  end.

(** The same for the group document, at the points where
    [update_zones_outputs_file] cuts it: before the combined output and
    before the closing of its value, or at the end when there is no combined
    output behind the start of the document. *)
Definition group_doc_ok (file : option str) : bool :=
  match file with
  | None => true
  | Some [] => true
  | Some existing_content =>
      let all_zones_pos := find (L "output " ++ quoted ALL_ZONES) existing_content in
      if (0 <? all_zones_pos)%Z then
        negb (unterminated (rstrip (firstn (Z.to_nat all_zones_pos) existing_content)))
        && (let all_zones_section := skipn (Z.to_nat all_zones_pos) existing_content in
            let value_end := rfind (L "  }") all_zones_section in
            if (0 <? value_end)%Z
            then negb (unterminated (firstn (Z.to_nat value_end) all_zones_section))
            else true)
      else negb (unterminated (rstrip existing_content))
  end.

(** The text of the existing document: empty when the file is absent. *)
Definition content_of (file : option str) : str :=
  match file with Some c => c | None => [] end.

(** The entries spliced into the combined output: the last zone first. *)
Definition spliced_entries (zones : list ProcessedZone) : str :=
  flat_map (fun z => all_zones_entry z ++ [nl]) (rev zones).

(** ** The generated texts, by their pieces between double quotes *)

(** The lines of [generate_zone_output_block], each ended by a line feed:
    the pieces up to the last double quote, and the text behind it. *)
Definition zone_block_segs (zone_name : str) (is_sub : bool) : list str :=
  let m := sanitize_module_name zone_name in
  let zm := zone_module_of m is_sub in
  [ L "# Output " ++ zone_name ++ L " details" ++ [nl] ++ L "output ";
    m;
    L " {" ++ [nl] ++ L "  description = ";
    L "Details for " ++ zone_name;
    [nl] ++ L "  value = {" ++ [nl] ++ L "    zone_id      = module." ++ zm
      ++ L ".route53_zone_zone_id" ++ L "[";
    zone_name;
    L "]" ++ [nl] ++ L "    name_servers = module." ++ zm
      ++ L ".route53_zone_name_servers" ++ L "[";
    zone_name ].

Definition zone_block_tail (zone_name : str) (is_sub has_records : bool) : str :=
  let m := sanitize_module_name zone_name in
  L "]" ++ [nl]
  ++ (if has_records
      then L "    records      = module." ++ records_module_of m is_sub
             ++ L ".route53_record_name"
      else L "    records      = {}")
  ++ [nl] ++ L "  }" ++ [nl] ++ L "}" ++ [nl].

(** The text of [all_zones_entry]. *)
Definition entry_segs (zone_name : str) (is_sub : bool) : list str :=
  let m := sanitize_module_name zone_name in
  let zm := zone_module_of m is_sub in
  [ L "    " ++ m ++ L " = {" ++ [nl] ++ L "      zone_id      = module." ++ zm
      ++ L ".route53_zone_zone_id" ++ L "[";
    zone_name;
    L "]" ++ [nl] ++ L "      name_servers = module." ++ zm
      ++ L ".route53_zone_name_servers" ++ L "[";
    zone_name ].

Definition entry_tail (zone_name : str) (is_sub has_records : bool) : str :=
  let m := sanitize_module_name zone_name in
  L "]" ++ [nl]
  ++ (if has_records
      then L "      records      = module." ++ records_module_of m is_sub
             ++ L ".route53_record_name"
      else L "      records      = {}")
  ++ [nl] ++ L "    }".

(** The lines of one zone in [root_output_lines], each ended by a line
    feed. *)
Definition root_block_segs (zone_name : str) : list str :=
  let m := sanitize_module_name zone_name in
  [ L "output ";
    m ++ L "_details";
    L " {" ++ [nl] ++ L "  description = ";
    L "Details for " ++ zone_name ].

Definition root_block_tail (zone_name : str) : str :=
  [nl] ++ L "  value = module.zones." ++ sanitize_module_name zone_name
  ++ [nl] ++ L "}" ++ [nl].

(** The head of the combined output. *)
Definition combined_segs : list str :=
  [ L "# Combined output of all zones" ++ [nl] ++ L "output ";
    ALL_ZONES;
    L " {" ++ [nl] ++ L "  description = ";
    L "Combined information for all zones" ].

(** A group document kept by hand: the combined output first, another
    output behind it. *)
Definition example_extra_entry : str :=
  unlines
    [ L "output " ++ quoted (L "extra") ++ L " {";
      L "  value = {";
      L "    k = 1";
      L "  }";
      L "}" ].

Definition example_group_doc : str :=
  unlines
    [ L "# Zones";
      L "output " ++ quoted ALL_ZONES ++ L " {";
      L "  value = {";
      L "  }";
      L "}";
      [];
      example_extra_entry;
      [] ].

(** A group document that starts with the combined output. *)
Definition example_leading_doc : str :=
  unlines
    [ L "output " ++ quoted ALL_ZONES ++ L " {";
      L "  value = {";
      L "  }";
      L "}" ].

(** A document that ends inside a name. *)
Definition example_open_doc : str := L "output " ++ [dq] ++ L "x".

(** A zone whose sanitized name is the name of the combined output. *)
Definition example_all_zones : list ProcessedZone :=
  [ example_processed "Z9" "all.zones" true ].

(** Two zones, the first with a name that is not plain. *)
Definition example_odd_names : list ProcessedZone :=
  [ example_processed "Z8" "x output " true;
    example_processed "Z1" "example.com" true ].

(** ** [list_hosted_zones] *)

(** A hosted zone as Route 53 delivers it; the key [Config], each of its
    two keys and the record count may be missing. *)
Record ZoneConfig := {
  PrivateZone : option bool;
  Comment : option str
}.

Record HostedZone := {
  hz_Id : str;
  hz_Name : str;
  hz_Config : option ZoneConfig;
  hz_ResourceRecordSetCount : option Z
}.

(** What iterating [paginator.paginate()] delivers for the hosted zones. *)
Inductive ZonePages :=
| ZonePagesEnd
| ZonePagesNext (page : list HostedZone) (rest : ZonePages)
| ZonePagesError (e : str).

(** The dictionary appended for one hosted zone. *)
Definition hosted_zone_entry (zone : HostedZone) : Zone :=
  {| z_id := replace (L "/hostedzone/") [] (hz_Id zone);
     z_name := rstrip_dot (hz_Name zone);
     z_private :=
       match hz_Config zone with
       | Some config =>
           match PrivateZone config with Some b => b | None => false end
       | None => false
       end;
     z_comment :=
       match hz_Config zone with
       | Some config =>
           match Comment config with Some c => c | None => [] end
       | None => []
       end;
     z_resource_record_set_count :=
       match hz_ResourceRecordSetCount zone with Some n => n | None => 0%Z end |}.

(** A call either returns or leaves the program by [sys.exit(code)]. *)
Inductive Outcome (A : Type) :=
| Returns (a : A)
| SysExit (code : Z).

Arguments Returns {A} a.
Arguments SysExit {A} code.

(** The [try] block: [zones] grows page by page; [ClientError] prints and
    exits.  The result is the outcome and what was printed. *)
Fixpoint list_hosted_zones_from (pages : ZonePages) (zones : list Zone)
  : Outcome (list Zone) * list str :=
  match pages with
  | ZonePagesEnd => (Returns zones, [])
  | ZonePagesNext page rest =>
      list_hosted_zones_from rest (zones ++ map hosted_zone_entry page)
  | ZonePagesError e =>
      (SysExit 1, [L "Error listing hosted zones: " ++ e])
  end.

Definition list_hosted_zones (pages : ZonePages) : Outcome (list Zone) * list str :=
  list_hosted_zones_from pages [].

(** A listing that delivers the pages [ps] and then goes on as [tail]. *)
Fixpoint zone_pages_then (ps : list (list HostedZone)) (tail : ZonePages)
  : ZonePages :=
  match ps with
  | [] => tail
  | page :: rest => ZonePagesNext page (zone_pages_then rest tail)
  end.

(** ** [run]

    The files of the zones directory are a list of names and contents, the
    newest first, as [write_terraform_file] leaves it; the group document
    [outputs.tf] is one of them.  The root directory holds the root document
    [outputs.tf] and [imports.tf].  The two directories are distinct.

    [run] is followed in what it does to the files, in its exit status and
    in its counters; what it prints is not followed. *)

Definition OUTPUTS_TF : str := L "outputs.tf".

(** The content of [filename] in a directory, [None] when there is no such
    file. *)
Definition read_file (dir : list (str * str)) (filename : str) : option str :=
  match List.find (fun f => str_eqb (fst f) filename) dir with
  | Some f => Some (snd f)
  | None => None
  end.

(** The directory after a call that wrote [written] to [filename], or wrote
    nothing. *)
Definition write_back (dir : list (str * str)) (filename : str)
    (written : option str) : list (str * str) :=
  match written with
  | Some content => (filename, content) :: dir
  | None => dir
  end.

Record World := {
  zones_dir : list (str * str);
  root_outputs_tf : option str;
  imports_tf : option str
}.

(** What a call of [run] leaves: how it ended, the files, the list
    [self.processed_zones] and the counters. *)
Record RunResult := {
  status : Outcome unit;
  world : World;
  run_processed_zones : list ProcessedZone;
  processed : nat;
  skipped : nat
}.

Section Running.

Variable fetch : str -> Pages.
Variable zone_pages : ZonePages.
Variables dry_run force import_blocks_flag : bool.

(** [next((z for z in zones if z['name'] == domain), None)] *)
Definition zone_named (domain : str) (zones : list Zone) : option Zone :=
  List.find (fun z => str_eqb (z_name z) domain) zones.

(** The part of [run] between the listing and the outputs: one zone for
    [--domain], every zone otherwise.  [None] is [sys.exit(1)], the zone
    asked for is not listed. *)
Definition run_zones (domain : option str) (zones : list Zone) (st : Run)
  : option (Run * nat * nat) :=
  if truthy domain then
    match zone_named (match domain with Some d => d | None => [] end) zones with
    | None => None
    | Some zone =>
        let '(ok, st') := process_zone fetch dry_run force st zone zones in
        if ok then Some (st', 1, 0) else Some (st', 0, 1)
    end
  else Some (process_all fetch dry_run force st zones zones 0 0).

(** The part of [run] behind the loop: the two outputs documents, then
    [imports.tf] when import blocks are asked for. *)
Definition run_outputs (w : World) (st : Run) (processed : nat) : World :=
  let zone_files1 :=
    if 0 <? processed then
      write_back (zone_files st) OUTPUTS_TF
        (update_zones_outputs_file (processed_zones st) dry_run
           (read_file (zone_files st) OUTPUTS_TF))
    else zone_files st in
  let root_outputs1 :=
    if 0 <? processed then
      after_update (root_outputs_tf w)
        (update_root_outputs_file (processed_zones st) dry_run (root_outputs_tf w))
    else root_outputs_tf w in
  let imports1 :=
    if (0 <? processed) && negb dry_run then
      if import_blocks_flag then
        after_update (imports_tf w)
          (generate_import_blocks fetch (processed_zones st) dry_run force
             (imports_tf w))
      else imports_tf w
    else imports_tf w in
  {| zones_dir := zone_files1;
     root_outputs_tf := root_outputs1;
     imports_tf := imports1 |}.

Definition run (domain : option str) (all_domains : bool) (w : World) : RunResult :=
  let exit1 :=
    {| status := SysExit 1; world := w; run_processed_zones := [];
       processed := 0; skipped := 0 |} in
  if negb (truthy domain) && negb all_domains then exit1
  else
    match fst (list_hosted_zones zone_pages) with
    | SysExit code =>
        {| status := SysExit code; world := w; run_processed_zones := [];
           processed := 0; skipped := 0 |}
    | Returns [] =>
        {| status := Returns tt; world := w; run_processed_zones := [];
           processed := 0; skipped := 0 |}
    | Returns zones =>
        match run_zones domain zones
                {| zone_files := zones_dir w; processed_zones := []; printed := [] |}
        with
        | None => exit1
        | Some (st, processed, skipped) =>
            {| status := Returns tt;
               world := run_outputs w st processed;
               run_processed_zones := processed_zones st;
               processed := processed;
               skipped := skipped |}
        end
    end.

End Running.

(** ** Conditions on names *)

(** A name that [sanitize_module_name] has nothing to do to: it starts with
    a letter or an underscore and holds letters, digits and underscores. *)
Definition is_identifier (name : str) : bool :=
  match name with
  | [] => false
  | c :: _ =>
      (isalpha c || Ascii.eqb c us)
      && forallb (fun ch => isalnum ch || Ascii.eqb ch us) name
  end.

(** The dot and the hyphen read as the underscore, which is what the two
    replacements of [sanitize_module_name] make of them. *)
Definition fold_separator (c : ascii) : ascii :=
  if Ascii.eqb c "."%char || Ascii.eqb c "-"%char then us else c.

(** [domain] is a name below [parent]: some text, a dot and [parent]. *)
Definition below (domain parent : str) : Prop :=
  exists prefix, domain = prefix ++ L "." ++ parent.

(** A text without line boundaries: [splitlines] leaves it in one piece. *)
Definition one_line (s : str) : bool := forallb (fun c => negb (is_linebreak c)) s.

(** The names and identifiers that go into [imports.tf] hold no line
    boundary. *)
Definition one_line_zone (zone_info : ProcessedZone) : bool :=
  one_line (p_name zone_info) && one_line (p_id zone_info).

Definition one_line_record (record : RecordData) : bool :=
  one_line (r_name record) && one_line (r_type record).

(** The identifier of a record in [generate_import_commands]. *)
Definition command_identifier (zone_info : ProcessedZone) (record : RecordData)
  : str :=
  let zone_name := p_name zone_info in
  let record_name := commands_record_name zone_name (r_name record) in
  let import_name :=
    match record_name with
    | [] => zone_name
    | _ :: _ => record_name ++ L "." ++ zone_name
    end in
  p_id zone_info ++ L "_" ++ import_name ++ L "_" ++ r_type record.

(** ** More concrete inputs *)

Definition example_hosted_zone (zone_id zone_name : string) : HostedZone :=
  {| hz_Id := L zone_id; hz_Name := L zone_name; hz_Config := None;
     hz_ResourceRecordSetCount := None |}.

(** An account with [example.com] and, below it, [dev.example.com]. *)
Definition example_zone_pages : ZonePages :=
  ZonePagesNext
    [ example_hosted_zone "/hostedzone/Z1" "example.com.";
      example_hosted_zone "/hostedzone/Z2" "dev.example.com." ]
    ZonePagesEnd.

Definition example_world : World :=
  {| zones_dir := []; root_outputs_tf := None; imports_tf := None |}.

(** ** What [process_zone] does to a zone it processes *)

(** A zone is processed when its file is absent or may be overwritten and
    the zone is public. *)
Definition is_processed (force : bool) (st : Run) (zone : Zone) : bool :=
  negb (check_file_exists st (z_name zone) && negb force)
  && negb (z_private zone).

(** The entry appended to [self.processed_zones]. *)
Definition processed_entry (fetch : str -> Pages) (zone : Zone)
    (all_zones : list Zone) : ProcessedZone :=
  {| p_name := z_name zone;
     p_id := z_id zone;
     p_is_subdomain :=
       match is_subdomain (z_name zone) all_zones with
       | Some _ => true
       | None => false
       end;
     p_has_records :=
       negb (length (records_of fetch (z_id zone) (z_name zone)) =? 0);
     p_existing := true |}.

(** The content written to the file of the zone. *)
Definition zone_file_content (fetch : str -> Pages) (zone : Zone)
    (all_zones : list Zone) : str :=
  generate_terraform_content zone
    (records_of fetch (z_id zone) (z_name zone))
    (is_subdomain (z_name zone) all_zones).

(** * Properties *)

(** ** Text primitives *)

Unset Implicit Arguments.
#[local] Arguments Ascii.eqb : simpl never.

Lemma str_eqb_eq (a b : str) : str_eqb a b = true <-> a = b.
Proof.
  revert b; induction a as [|x a IH]; intros [|y b]; simpl; split;
    try congruence; try reflexivity.
  - intros H. apply andb_true_iff in H as [Hx Hab].
    apply Ascii.eqb_eq in Hx. apply IH in Hab. congruence.
  - intros H. injection H as -> ->. rewrite Ascii.eqb_refl. simpl.
    now apply IH.
Qed.

Lemma str_eqb_refl (a : str) : str_eqb a a = true.
Proof. now apply str_eqb_eq. Qed.

Lemma str_eqb_neq (a b : str) : str_eqb a b = false <-> a <> b.
Proof.
  split.
  - intros H E. apply str_eqb_eq in E. congruence.
  - intros H. destruct (str_eqb a b) eqn:E; [|reflexivity].
    apply str_eqb_eq in E. contradiction.
Qed.

Lemma mem_In (x : str) (xs : list str) : mem x xs = true <-> In x xs.
Proof.
  unfold mem. rewrite existsb_exists. split.
  - intros (y & Hy & E). apply str_eqb_eq in E. now subst.
  - intros H. exists x. split; [assumption | apply str_eqb_refl].
Qed.

Lemma startswith_iff (p s : str) :
  startswith p s = true <-> exists t, s = p ++ t.
Proof.
  revert s; induction p as [|x p IH]; intros s; simpl.
  - split; [intros _; now exists s | reflexivity].
  - destruct s as [|y s].
    + split; [discriminate | intros (t & Ht); discriminate].
    + rewrite andb_true_iff, IH. split.
      * intros (Hx & t & ->). apply Ascii.eqb_eq in Hx. subst. now exists t.
      * intros (t & Ht). injection Ht as -> ->.
        split; [apply Ascii.eqb_refl | now exists t].
Qed.

Lemma startswith_app (p s : str) : startswith p (p ++ s) = true.
Proof. apply startswith_iff. now exists s. Qed.

Lemma endswith_iff (suf s : str) :
  endswith suf s = true <-> exists t, s = t ++ suf.
Proof.
  unfold endswith. rewrite andb_true_iff, Nat.leb_le, str_eqb_eq. split.
  - intros (Hle & E). exists (firstn (length s - length suf) s).
    transitivity (firstn (length s - length suf) s ++ skipn (length s - length suf) s).
    + symmetry. apply firstn_skipn.
    + now rewrite E.
  - intros (t & ->). rewrite length_app. split; [lia|].
    replace (length t + length suf - length suf) with (length t + 0) by lia.
    rewrite skipn_app, Nat.add_0_r, skipn_all. simpl.
    now replace (length t - length t) with 0 by lia.
Qed.

Lemma slice_to_neg_app (t suf : str) :
  slice_to_neg (length suf) (t ++ suf) = t.
Proof.
  unfold slice_to_neg. rewrite length_app.
  replace (length t + length suf - length suf) with (length t + 0) by lia.
  rewrite firstn_app_2. simpl. apply app_nil_r.
Qed.

Lemma firstn_length_app (t suf : str) (k : nat) :
  k = length suf -> firstn (length (t ++ suf) - k) (t ++ suf) = t.
Proof. intros ->. apply slice_to_neg_app. Qed.

(** Replacing a single character is a character-wise map. *)
Lemma replace_from_char (a : ascii) (new s : str) :
  replace_from [a] new 0 s =
  flat_map (fun c => if Ascii.eqb a c then new else [c]) s.
Proof.
  induction s as [|c s IH]; simpl; [reflexivity|].
  destruct (Ascii.eqb a c); simpl; now rewrite IH.
Qed.

Lemma replace_char (a b : ascii) (s : str) :
  replace [a] [b] s = map (fun c => if Ascii.eqb a c then b else c) s.
Proof.
  unfold replace. rewrite replace_from_char.
  induction s as [|c s IH]; simpl; [reflexivity|].
  rewrite <- IH. now destruct (Ascii.eqb a c).
Qed.

Lemma contains_char_false (c : ascii) (s : str) :
  contains_char c s = false <-> ~ In c s.
Proof.
  unfold contains_char. split.
  - intros H Hin. assert (existsb (Ascii.eqb c) s = true); [|congruence].
    apply existsb_exists. exists c. split; [assumption | apply Ascii.eqb_refl].
  - intros H. destruct (existsb (Ascii.eqb c) s) eqn:E; [|reflexivity].
    apply existsb_exists in E as (x & Hx & Ex). apply Ascii.eqb_eq in Ex.
    subst. contradiction.
Qed.

Lemma contains_char_true (c : ascii) (s : str) :
  contains_char c s = true <-> In c s.
Proof.
  unfold contains_char. rewrite existsb_exists. split.
  - intros (x & Hx & Ex). apply Ascii.eqb_eq in Ex. now subst.
  - intros H. exists c. split; [assumption | apply Ascii.eqb_refl].
Qed.

(** The text before the last separator. *)
Lemma rsplit1_head_app (c : ascii) (t w : str) :
  ~ In c w -> rsplit1_head c (t ++ c :: w) = t.
Proof.
  intros Hw. induction t as [|x t IH]; simpl.
  - apply contains_char_false in Hw. rewrite Hw. now rewrite Ascii.eqb_refl.
  - assert (H : contains_char c (t ++ c :: w) = true).
    { apply contains_char_true, in_or_app. right. now left. }
    rewrite H. now rewrite IH.
Qed.

(** ** [sanitize_module_name] *)

Lemma isalpha_isalnum (c : ascii) : isalpha c = true -> isalnum c = true.
Proof. unfold isalnum. intros ->. reflexivity. Qed.

Lemma sanitize_char_valid (c : ascii) :
  isalnum (sanitize_char c) = true \/ sanitize_char c = us.
Proof.
  unfold sanitize_char. destruct (isalnum c) eqn:E; simpl.
  - now left.
  - destruct (Ascii.eqb c us) eqn:E'; [apply Ascii.eqb_eq in E'|]; now right.
Qed.

Lemma sanitized_char_dot_hyphen (c : ascii) :
  c = "."%char \/ c = "-"%char -> sanitized_char c = us.
Proof. intros [-> | ->]; reflexivity. Qed.

Lemma sanitize_module_name_shape (domain : str) :
  exists prefix,
    (prefix = [] \/ prefix = [us]) /\
    sanitize_module_name domain = prefix ++ map sanitized_char domain.
Proof.
  unfold sanitize_module_name.
  change (L "-") with ["-"%char]. change (L "_") with [us].
  change (L ".") with ["."%char].
  rewrite !replace_char, map_map.
  set (name := map _ domain).
  assert (Hmap : map sanitize_char name = map sanitized_char domain).
  { subst name. rewrite map_map. reflexivity. }
  destruct name as [|c name'] eqn:E.
  - exists [us]. split; [now right|]. simpl. now rewrite <- Hmap.
  - destruct (isalpha c || Ascii.eqb c us).
    + exists []. split; [now left|]. now rewrite <- Hmap.
    + exists [us]. split; [now right|]. simpl. now rewrite <- Hmap.
Qed.

Lemma sanitize_module_name_chars (domain : str) :
  Forall (fun c => isalnum c = true \/ c = us) (sanitize_module_name domain).
Proof.
  unfold sanitize_module_name. apply Forall_forall. intros c Hc.
  apply in_map_iff in Hc as (d & <- & _). apply sanitize_char_valid.
Qed.

Lemma sanitize_module_name_head (domain : str) :
  exists c rest, sanitize_module_name domain = c :: rest
                 /\ (isalpha c = true \/ c = us).
Proof.
  unfold sanitize_module_name.
  set (name := replace _ _ _).
  destruct name as [|c name'] eqn:E.
  - exists us, []. split; [reflexivity | now right].
  - destruct (isalpha c || Ascii.eqb c us) eqn:Hc.
    + exists (sanitize_char c), (map sanitize_char name'). split; [reflexivity|].
      apply orb_true_iff in Hc as [Hc | Hc].
      * left. unfold sanitize_char. now rewrite (isalpha_isalnum _ Hc).
      * right. apply Ascii.eqb_eq in Hc. now subst.
    + exists us, (map sanitize_char (c :: name')). split; [reflexivity | now right].
Qed.

(** C10: [sanitize_module_name] yields, for every input, a non-empty name
    that starts with a letter or an underscore and consists of alphanumeric
    characters and underscores; it is the input, character by character,
    with every dot and hyphen (and every other character that is not
    alphanumeric) turned into an underscore, behind one more underscore
    when the input is empty or does not start with a letter or underscore. *)
Theorem sanitize_module_name_valid (domain : str) :
  (exists c rest, sanitize_module_name domain = c :: rest
                  /\ (isalpha c = true \/ c = us))
  /\ Forall (fun c => isalnum c = true \/ c = us) (sanitize_module_name domain)
  /\ (exists prefix,
        (prefix = [] \/ prefix = [us])
        /\ sanitize_module_name domain = prefix ++ map sanitized_char domain
        /\ forall i c, nth_error domain i = Some c ->
             (c = "."%char \/ c = "-"%char) ->
             nth_error (sanitize_module_name domain) (length prefix + i) = Some us)
  /\ ~ In "."%char (sanitize_module_name domain)
  /\ ~ In "-"%char (sanitize_module_name domain).
Proof.
  pose proof (sanitize_module_name_chars domain) as Hall.
  split; [apply sanitize_module_name_head|].
  split; [exact Hall|]. split; [|split].
  - destruct (sanitize_module_name_shape domain) as (prefix & Hp & E).
    exists prefix. split; [exact Hp | split; [exact E|]].
    intros i c Hi Hc. rewrite E, nth_error_app2 by lia.
    replace (length prefix + i - length prefix) with i by lia.
    rewrite nth_error_map, Hi. simpl. now rewrite sanitized_char_dot_hyphen.
  - intros Hin. rewrite Forall_forall in Hall.
    destruct (Hall _ Hin) as [H | H]; discriminate.
  - intros Hin. rewrite Forall_forall in Hall.
    destruct (Hall _ Hin) as [H | H]; discriminate.
Qed.

(** ** The relative name of a record *)

(** The normalisation that follows the stripping of the zone suffix, in the
    words of the specification. *)
Lemma normalise_tail (base : str) :
  match base with
  | [] => base
  | _ :: _ =>
      let record_name := replace (L "\100") (L "@") base in
      if str_eqb record_name (L "@") then []
      else if endswith (L ".@") record_name || endswith (L ".\100") record_name
           then rsplit1_head "."%char record_name
           else record_name
  end =
  let r := replace (L "\100") (L "@") base in
  if str_eqb r (L "@") then []
  else if endswith (L ".@") r then firstn (length r - 2) r
  else if endswith (L ".\100") r then firstn (length r - 5) r
  else r.
Proof.
  destruct base as [|c b]; [reflexivity|].
  cbv zeta. set (r := replace _ _ (c :: b)).
  destruct (str_eqb r (L "@")); [reflexivity|].
  destruct (endswith (L ".@") r) eqn:E1.
  - apply endswith_iff in E1 as (t & ->). rewrite orb_true_l.
    change (L ".@") with ("."%char :: L "@").
    rewrite rsplit1_head_app.
    + symmetry. now apply firstn_length_app.
    + simpl. intros [H | []]. discriminate.
  - rewrite orb_false_l. destruct (endswith (L ".\100") r) eqn:E2; [|reflexivity].
    apply endswith_iff in E2 as (t & ->).
    change (L ".\100") with ("."%char :: L "\100").
    rewrite rsplit1_head_app.
    + symmetry. now apply firstn_length_app.
    + simpl. intros [H | [H | [H | [H | []]]]]; discriminate.
Qed.

Lemma content_record_name_spec (zone_name owner : str) :
  content_record_name zone_name owner = relative_name_spec zone_name owner.
Proof.
  unfold content_record_name, relative_name_spec. cbv zeta.
  rewrite normalise_tail. cbv zeta.
  change (length (L "." ++ zone_name)) with (S (length zone_name)).
  unfold slice_to_neg. now rewrite Nat.add_1_r.
Qed.

Lemma commands_record_name_spec (zone_name owner : str) :
  commands_record_name zone_name owner = relative_name_spec zone_name owner.
Proof. exact (content_record_name_spec zone_name owner). Qed.

(** C1: the relative name of a record is computed the same way for the zone
    artifact and for the import keys: the empty name at the apex, the owner
    without the zone suffix below it, the owner itself otherwise; then the
    escaped label becomes [@], a lone [@] the empty name, and a trailing
    [.@] is cut off.  For [example.com]: the apex gives the empty name,
    [www.example.com] gives [www], the escaped apex gives the empty name. *)
Theorem relative_record_name_correct (zone_name owner : str) :
  content_record_name zone_name owner = relative_name_spec zone_name owner
  /\ import_record_name zone_name owner = relative_name_spec zone_name owner
  /\ content_record_name (L "example.com") (L "example.com") = []
  /\ content_record_name (L "example.com") (L "www.example.com") = L "www"
  /\ content_record_name (L "example.com") (L "\100.example.com") = []
  /\ import_record_name (L "example.com") (L "example.com") = []
  /\ import_record_name (L "example.com") (L "www.example.com") = L "www"
  /\ import_record_name (L "example.com") (L "\100.example.com") = [].
Proof.
  split; [apply content_record_name_spec|].
  split; [exact (content_record_name_spec zone_name owner)|].
  repeat split; vm_compute; reflexivity.
Qed.

(** ** TXT values *)

Lemma slice_1_neg1_quoted (body : str) : slice_1_neg1 (quoted body) = body.
Proof.
  unfold slice_1_neg1, quoted.
  replace (length (dq :: body ++ [dq]) - 1) with (length (dq :: body) + 0)
    by (simpl; rewrite length_app; simpl; lia).
  change (dq :: body ++ [dq]) with ((dq :: body) ++ [dq]).
  rewrite firstn_app_2. simpl. now rewrite app_nil_r.
Qed.

Lemma endswith_quoted (body : str) : endswith [dq] (quoted body) = true.
Proof.
  apply endswith_iff. exists (dq :: body). reflexivity.
Qed.

Lemma flat_map_flat_map {A B C : Type} (f : A -> list B) (g : B -> list C)
    (l : list A) :
  flat_map g (flat_map f l) = flat_map (fun a => flat_map g (f a)) l.
Proof.
  induction l as [|a l IH]; simpl; [reflexivity|].
  now rewrite flat_map_app, IH.
Qed.

Lemma hcl_escape_chars (r : str) : hcl_escape r = flat_map hcl_escape_char r.
Proof.
  unfold hcl_escape, replace. rewrite !replace_from_char, flat_map_flat_map.
  apply flat_map_ext. intros c. unfold hcl_escape_char.
  rewrite (Ascii.eqb_sym c bs), (Ascii.eqb_sym c dq).
  destruct (Ascii.eqb bs c) eqn:E1.
  - reflexivity.
  - cbn [flat_map app]. rewrite app_nil_r. reflexivity.
Qed.

Lemma hcl_unescape_escape (r : str) : hcl_unescape (hcl_escape r) = r.
Proof.
  rewrite hcl_escape_chars.
  induction r as [|c r IH]; simpl; [reflexivity|].
  unfold hcl_escape_char.
  destruct (Ascii.eqb c bs) eqn:E1.
  - apply Ascii.eqb_eq in E1. subst. simpl. f_equal. exact IH.
  - destruct (Ascii.eqb c dq) eqn:E2.
    + apply Ascii.eqb_eq in E2. subst. simpl. f_equal. exact IH.
    + simpl. rewrite E1. f_equal. exact IH.
Qed.

(** C4: a TXT value loses one layer of surrounding double quotes when it
    starts and ends with one; then exactly the backslash and the double
    quote are escaped, each by a backslash before it.  The escaping is
    injective, and reading the emitted literal back gives the stripped
    value, for every value. *)
Theorem txt_value_roundtrip (r : str) :
  format_txt_record r = quoted (hcl_escape (txt_strip_outer r))
  /\ (forall body, txt_strip_outer (quoted body) = body)
  /\ (startswith [dq] r && endswith [dq] r = false -> txt_strip_outer r = r)
  /\ hcl_escape r = flat_map hcl_escape_char r
  /\ hcl_escape_char bs = [bs; bs]
  /\ hcl_escape_char dq = [bs; dq]
  /\ (forall c, c <> bs -> c <> dq -> hcl_escape_char c = [c])
  /\ (forall b, hcl_escape r = hcl_escape b -> r = b)
  /\ read_hcl_literal (format_txt_record r) = txt_strip_outer r.
Proof.
  repeat split.
  - intros body. unfold txt_strip_outer.
    rewrite endswith_quoted. simpl.
    apply slice_1_neg1_quoted.
  - intros H. unfold txt_strip_outer. now rewrite H.
  - apply hcl_escape_chars.
  - intros c H1 H2. unfold hcl_escape_char.
    apply Ascii.eqb_neq in H1, H2. now rewrite H1, H2.
  - intros b H. rewrite <- (hcl_unescape_escape r), H.
    apply hcl_unescape_escape.
  - unfold read_hcl_literal, format_txt_record.
    rewrite slice_1_neg1_quoted. apply hcl_unescape_escape.
Qed.

Lemma txt_value_roundtrip_witness :
  txt_strip_outer (L "v=spf1") = L "v=spf1"
  /\ hcl_escape_char "a"%char = ["a"%char]
  /\ L "a\b" = L "a\b".
Proof.
  pose proof (txt_value_roundtrip (L "v=spf1")) as (_ & _ & H1 & _).
  pose proof (txt_value_roundtrip (L "a\b")) as (_ & _ & _ & _ & _ & _ & H2 & H3 & _).
  split; [apply H1; reflexivity|].
  split; [apply H2; discriminate|].
  apply H3. reflexivity.
Defined.

(** ** Import identifiers *)

Lemma flat_map_In_split {A B : Type} (f : A -> list B) (x : A) (l : list A) :
  In x l -> exists pre post, flat_map f l = pre ++ f x ++ post.
Proof.
  intros H. apply in_split in H as (l1 & l2 & ->).
  exists (flat_map f l1), (flat_map f l2).
  now rewrite flat_map_app.
Qed.

Lemma is_ns_or_soa_false (t : str) :
  t <> L "NS" -> t <> L "SOA" -> is_ns_or_soa t = false.
Proof.
  intros H1 H2. unfold is_ns_or_soa, mem. cbn [existsb].
  apply str_eqb_neq in H1, H2. now rewrite H1, H2.
Qed.

(** C5: every record of a processed zone whose type is neither NS nor SOA
    gets an import block whose [id] is the zone id, an underscore, the owner
    name as delivered (trailing dots stripped, the escaped label kept, each
    backslash doubled), an underscore and the type. *)
Theorem import_binding_identifier (fetch : str -> Pages)
    (processed : list ProcessedZone) (zone_info : ProcessedZone)
    (record : RecordData) :
  In zone_info processed ->
  p_existing zone_info = true ->
  In record (records_of fetch (p_id zone_info) (p_name zone_info)) ->
  r_type record <> L "NS" ->
  r_type record <> L "SOA" ->
  exists pre post,
    import_blocks fetch processed =
    pre
    ++ [ L "# Import record: " ++ terraform_key (p_name zone_info) record;
         L "import {";
         L "  to = " ++ to_addr_rec zone_info record;
         L "  id = " ++ quoted (p_id zone_info ++ L "_"
                                ++ replace [bs] [bs; bs] (rstrip_dot (r_name record))
                                ++ L "_" ++ r_type record);
         L "}";
         [] ]
    ++ post.
Proof.
  intros Hz He Hr Hns Hsoa.
  unfold import_blocks.
  destruct (flat_map_In_split
              (fun zone_info =>
                 if p_existing zone_info
                 then zone_import_block zone_info
                      ++ flat_map (record_import_block zone_info)
                           (importable (records_of fetch (p_id zone_info) (p_name zone_info)))
                 else []) zone_info processed Hz) as (pre & post & E).
  rewrite E, He.
  assert (Hin : In record (importable (records_of fetch (p_id zone_info) (p_name zone_info)))).
  { unfold importable. apply filter_In. split; [assumption|].
    now rewrite is_ns_or_soa_false. }
  destruct (flat_map_In_split (record_import_block zone_info) record _ Hin)
    as (pre' & post' & E').
  rewrite E'.
  exists (pre ++ zone_import_block zone_info ++ pre'), (post' ++ post).
  unfold record_import_block, import_identifier.
  now rewrite <- !app_assoc.
Qed.

Lemma import_binding_identifier_witness :
  exists pre post,
    import_blocks example_fetch [example_processed "Z1" "example.com" true] =
    pre
    ++ [ L "# Import record: api A";
         L "import {";
         L "  to = module.zones.module.example_com_records.aws_route53_record.this["
           ++ quoted (L "api A") ++ L "]";
         L "  id = " ++ quoted (L "Z1_api.example.com_A");
         L "}";
         [] ]
    ++ post.
Proof.
  apply (import_binding_identifier example_fetch
           [example_processed "Z1" "example.com" true]
           (example_processed "Z1" "example.com" true)
           (example_record "api.example.com." "A" "192.0.2.2")).
  - left. reflexivity.
  - reflexivity.
  - vm_compute. right. left. reflexivity.
  - vm_compute. discriminate.
  - vm_compute. discriminate.
Defined.

(** The escaped apex label is kept in the identifier, its backslash doubled. *)
Example import_identifier_escaped_apex :
  import_identifier (L "Z1") (example_record "\100.example.com." "TXT" "v=spf1 -all")
  = L "Z1_\\100.example.com_TXT".
Proof. vm_compute. reflexivity. Qed.

(** ** Subdomain delegation *)

Lemma is_subdomain_Some (domain : str) (zones : list Zone) (P : str) :
  is_subdomain domain zones = Some P ->
  domain <> P /\ exists prefix, domain = prefix ++ L "." ++ P.
Proof.
  induction zones as [|zone rest IH]; simpl; [discriminate|].
  destruct (negb (str_eqb domain (z_name zone))
            && endswith ("."%char :: z_name zone) domain) eqn:E.
  - intros H. injection H as <-.
    apply andb_true_iff in E as (E1 & E2).
    apply negb_true_iff, str_eqb_neq in E1.
    apply endswith_iff in E2. split; assumption.
  - exact IH.
Qed.

(** C8: for a zone detected as a subdomain of [P], the delegation records
    placed in the zone of [P] are one NS record whose name is the name of
    the subdomain without the suffix [.P], with TTL 300. *)
Theorem delegation_record_naming (zone : Zone) (records : list RecordData)
    (zones : list Zone) (P : str) :
  is_subdomain (z_name zone) zones = Some P ->
  P <> [] ->
  exists prefix pre,
    z_name zone = prefix ++ L "." ++ P
    /\ terraform_content_lines zone records (Some P) =
       pre
       ++ [ L "  zone_name = " ++ quoted P;
            [];
            L "  records = [";
            L "    {";
            L "      name = " ++ quoted prefix;
            L "      type = " ++ quoted (L "NS");
            L "      ttl  = 300";
            L "      records = module." ++ sanitize_module_name (z_name zone)
              ++ L "_subdomain_zone.route53_zone_name_servers["
              ++ quoted (z_name zone) ++ L "]";
            L "    }";
            L "  ]";
            [];
            L "}" ].
Proof.
  intros Hsub HP.
  apply is_subdomain_Some in Hsub as (_ & prefix & E).
  exists prefix.
  destruct P as [|c p]; [contradiction|].
  assert (Hpre : slice_to_neg (length (c :: p) + 1) (z_name zone) = prefix).
  { rewrite E. rewrite Nat.add_1_r.
    change (S (length (c :: p))) with (length (L "." ++ c :: p)).
    apply slice_to_neg_app. }
  unfold terraform_content_lines, delegation_records_lines. cbv zeta.
  rewrite Hpre.
  match goal with
  | |- exists pre, _ /\ ?a ++ ?b ++ ?c ++ ?d ++ ?l = _ =>
      exists (a ++ b ++ c ++ d ++ firstn 5 l)
  end.
  split; [exact E|].
  rewrite <- !app_assoc. reflexivity.
Qed.

Lemma delegation_record_naming_witness :
  In (L "      name = " ++ quoted (L "dev"))
     (terraform_content_lines (example_zone "Z2" "dev.example.com") []
        (Some (L "example.com")))
  /\ In (L "      ttl  = 300")
        (terraform_content_lines (example_zone "Z2" "dev.example.com") []
           (Some (L "example.com"))).
Proof.
  destruct (delegation_record_naming (example_zone "Z2" "dev.example.com") []
              [example_zone "Z1" "example.com"; example_zone "Z2" "dev.example.com"]
              (L "example.com"))
    as (prefix & pre & E & H).
  - vm_compute. reflexivity.
  - discriminate.
  - change (z_name (example_zone "Z2" "dev.example.com"))
      with (L "dev" ++ L "." ++ L "example.com") in E.
    apply app_inv_tail in E. subst prefix.
    rewrite H. split; apply in_or_app; right; simpl; tauto.
Defined.

(** ** Record listing failures *)

Lemma get_zone_records_from_pages_then (zone_name : str)
    (ps : list (list RecordSet)) (tail : Pages) (records : list RecordData) :
  get_zone_records_from zone_name (pages_then ps tail) records =
  get_zone_records_from zone_name tail
    (records ++ flat_map (page_records zone_name) ps).
Proof.
  revert records. induction ps as [|page ps IH]; intros records; simpl.
  - now rewrite app_nil_r.
  - now rewrite IH, <- app_assoc.
Qed.

(** C9, as stated, fails: when the second call of the listing raises, the
    records of the first page are returned, not the empty list. *)
Lemma record_fetch_failure_not_empty :
  get_zone_records (L "example.com")
    (PagesNext example_page (PagesError (L "Throttling")))
  = ([ example_record "example.com." "A" "192.0.2.1";
       example_record "api.example.com." "A" "192.0.2.2";
       example_record "\100.example.com." "TXT" "v=spf1 -all" ],
     [ L "Error listing records for zone example.com: Throttling" ])
  /\ fst (get_zone_records (L "example.com")
            (PagesNext example_page (PagesError (L "Throttling")))) <> [].
Proof. split; [vm_compute; reflexivity | vm_compute; discriminate]. Qed.

Lemma process_all_counts (fetch : str -> Pages) (dry_run force : bool)
    (todo all_zones : list Zone) (st : Run) (processed skipped : nat) :
  let '(_, processed', skipped') :=
    process_all fetch dry_run force st todo all_zones processed skipped in
  processed' + skipped' = processed + skipped + length todo.
Proof.
  revert st processed skipped.
  induction todo as [|zone rest IH]; intros st processed skipped; simpl.
  - lia.
  - destruct (process_zone fetch dry_run force st zone all_zones) as [ok st'].
    destruct ok.
    + specialize (IH st' (S processed) skipped).
      destruct (process_all fetch dry_run force st' rest all_zones (S processed) skipped)
        as [[st'' p''] s'']. lia.
    + specialize (IH st' processed (S skipped)).
      destruct (process_all fetch dry_run force st' rest all_zones processed (S skipped))
        as [[st'' p''] s'']. lia.
Qed.

(** C9, amended: a listing that raises after the pages [ps] is reported and
    yields the records of [ps] (none when the first call raises); a zone
    that is public and whose file is absent or overwritten is processed
    with these records, whatever the listing delivers; and the loop over the
    zones visits every zone. *)
Theorem record_fetch_failure_keeps_going (fetch : str -> Pages)
    (dry_run force : bool) (st : Run) (zone : Zone) (all_zones : list Zone) :
  z_private zone = false ->
  check_file_exists st (z_name zone) = false \/ force = true ->
  (forall zone_name ps e,
     get_zone_records zone_name (pages_then ps (PagesError e)) =
     (flat_map (page_records zone_name) ps,
      [L "Error listing records for zone " ++ zone_name ++ L ": " ++ e]))
  /\ (forall zone_name e,
        fst (get_zone_records zone_name (PagesError e)) = [])
  /\ fst (process_zone fetch dry_run force st zone all_zones) = true
  /\ processed_zones (snd (process_zone fetch dry_run force st zone all_zones)) =
     processed_zones st
     ++ [ {| p_name := z_name zone;
             p_id := z_id zone;
             p_is_subdomain :=
               match is_subdomain (z_name zone) all_zones with
               | Some _ => true
               | None => false
               end;
             p_has_records :=
               negb (length (fst (get_zone_records (z_name zone) (fetch (z_id zone)))) =? 0);
             p_existing := true |} ]
  /\ (forall todo processed skipped,
        let '(_, processed', skipped') :=
          process_all fetch dry_run force st todo all_zones processed skipped in
        processed' + skipped' = processed + skipped + length todo).
Proof.
  intros Hpub Hfile.
  split; [|split; [|split; [|split]]].
  - intros zone_name ps e. unfold get_zone_records.
    now rewrite get_zone_records_from_pages_then.
  - reflexivity.
  - unfold process_zone.
    assert (E : check_file_exists st (z_name zone) && negb force = false).
    { destruct Hfile as [-> | ->]; [reflexivity | apply andb_false_r]. }
    rewrite E, Hpub.
    destruct (check_file_exists st (z_name zone) && force);
      destruct (get_zone_records (z_name zone) (fetch (z_id zone))); reflexivity.
  - unfold process_zone.
    assert (E : check_file_exists st (z_name zone) && negb force = false).
    { destruct Hfile as [-> | ->]; [reflexivity | apply andb_false_r]. }
    rewrite E, Hpub.
    destruct (get_zone_records (z_name zone) (fetch (z_id zone))) as [records errors].
    cbn [fst snd processed_zones].
    destruct (check_file_exists st (z_name zone) && force);
      destruct (truthy (is_subdomain (z_name zone) all_zones));
      destruct dry_run; reflexivity.
  - intros todo processed skipped. apply process_all_counts.
Qed.

Lemma record_fetch_failure_keeps_going_witness :
  fst (process_zone failing_fetch false false
         {| zone_files := []; processed_zones := []; printed := [] |}
         (example_zone "Z1" "example.com") [example_zone "Z1" "example.com"]) = true.
Proof.
  apply (record_fetch_failure_keeps_going failing_fetch false false
           {| zone_files := []; processed_zones := []; printed := [] |}
           (example_zone "Z1" "example.com") [example_zone "Z1" "example.com"]).
  - reflexivity.
  - left. reflexivity.
Defined.

(** ** The order of the bindings *)

(** C7, as stated, fails for the import blocks: the bindings of the records
    of the first zone come before the binding of the second zone, and the
    comment before a record names the record, not the zone. *)
Lemma import_blocks_interleave_zones_and_records :
  nth_error (import_blocks example_fetch example_two_zones) 6
    = Some (L "# Import record:  A")
  /\ nth_error (import_blocks example_fetch example_two_zones) 8
     = Some (L "  to = " ++ to_addr_rec (example_processed "Z1" "example.com" true)
                               (example_record "example.com." "A" "192.0.2.1"))
  /\ nth_error (import_blocks example_fetch example_two_zones) 26
     = Some (L "  to = " ++ to_addr_zone (example_processed "Z2" "example.org" false))
  /\ forall record_bindings,
       import_blocks example_fetch example_two_zones
       <> flat_map zone_import_block example_two_zones ++ record_bindings.
Proof.
  repeat split; try (vm_compute; reflexivity).
  intros record_bindings H.
  apply (f_equal (fun l => nth_error l 6)) in H.
  vm_compute in H. discriminate.
Qed.

Lemma flat_map_if_filter {A B : Type} (p : A -> bool) (f : A -> list B)
    (l : list A) :
  flat_map (fun x => if p x then f x else []) l = flat_map f (filter p l).
Proof.
  induction l as [|x l IH]; simpl; [reflexivity|].
  destruct (p x); simpl; now rewrite IH.
Qed.

Lemma flat_map_singleton {A B : Type} (f : A -> B) (l : list A) :
  flat_map (fun x => [f x]) l = map f l.
Proof. induction l as [|x l IH]; simpl; [reflexivity | now rewrite IH]. Qed.

(** C7, amended: the printed import commands list the bindings of all
    zones first, in processed order, and then the bindings of the records,
    zone by zone in processed order, each group behind a comment that names
    the zone.  The import blocks go zone by zone in processed order instead:
    the binding of a zone, then the bindings of its records. *)
Theorem binding_order (fetch : str -> Pages) (zone_info : ProcessedZone)
    (rest : list ProcessedZone) :
  let zones := filter p_existing (zone_info :: rest) in
  generate_import_commands fetch (zone_info :: rest) =
    import_commands_header
    ++ map zone_import_command zones
    ++ [ nl :: L "3. Import the DNS records:" ]
    ++ concat (map (fun z =>
                      (nl :: L "   # Records for " ++ p_name z)
                      :: map (record_import_command z)
                           (importable (records_of fetch (p_id z) (p_name z))))
                   zones)
    ++ import_commands_footer
  /\ import_blocks fetch (zone_info :: rest) =
     concat (map (fun z =>
                    zone_import_block z
                    ++ concat (map (record_import_block z)
                                 (importable (records_of fetch (p_id z) (p_name z)))))
                 zones).
Proof.
  cbv zeta. split.
  - unfold generate_import_commands, zone_commands, record_commands.
    rewrite !flat_map_if_filter, flat_map_singleton, flat_map_concat_map.
    reflexivity.
  - unfold import_blocks.
    rewrite flat_map_if_filter, flat_map_concat_map.
    f_equal. apply map_ext. intros z. now rewrite flat_map_concat_map.
Qed.

(** ** Stripping *)

Lemma dropwhile_app (f : ascii -> bool) (a b : str) :
  dropwhile f (a ++ b) =
  match dropwhile f a with
  | [] => dropwhile f b
  | c :: r => (c :: r) ++ b
  end.
Proof.
  induction a as [|x a IH]; simpl; [now destruct (dropwhile f b)|].
  destruct (f x); [exact IH | reflexivity].
Qed.

Lemma rstrip_by_cons (f : ascii -> bool) (c : ascii) (s : str) :
  rstrip_by f (c :: s) =
  match rstrip_by f s with
  | [] => if f c then [] else [c]
  | x :: r => c :: x :: r
  end.
Proof.
  unfold rstrip_by. simpl. rewrite dropwhile_app.
  destruct (dropwhile f (rev s)) as [|y r] eqn:E; simpl.
  - destruct (f c); reflexivity.
  - rewrite rev_app_distr. simpl.
    destruct (rev r ++ [y]) eqn:E'; [now destruct (rev r)|reflexivity].
Qed.

Lemma rstrip_by_cons_keep (f : ascii -> bool) (c : ascii) (s : str) :
  f c = false -> rstrip_by f (c :: s) = c :: rstrip_by f s.
Proof.
  intros H. rewrite rstrip_by_cons, H. now destruct (rstrip_by f s).
Qed.

Lemma rstrip_by_cons_nonempty (f : ascii -> bool) (c : ascii) (s : str) :
  rstrip_by f s <> [] -> rstrip_by f (c :: s) = c :: rstrip_by f s.
Proof.
  intros H. rewrite rstrip_by_cons. destruct (rstrip_by f s); [contradiction|reflexivity].
Qed.

Lemma rstrip_by_all (f : ascii -> bool) (s : str) :
  forallb f s = true -> rstrip_by f s = [].
Proof.
  induction s as [|c s IH]; simpl; [reflexivity|].
  intros H. apply andb_true_iff in H as (Hc & Hs).
  rewrite rstrip_by_cons, (IH Hs), Hc. reflexivity.
Qed.

Lemma rstrip_by_nil_all (f : ascii -> bool) (s : str) :
  rstrip_by f s = [] -> forallb f s = true.
Proof.
  induction s as [|c s IH]; simpl; [reflexivity|].
  rewrite rstrip_by_cons. destruct (rstrip_by f s); [|discriminate].
  destruct (f c); [intros _; now rewrite IH | discriminate].
Qed.

Lemma dropwhile_all (f : ascii -> bool) (s : str) :
  forallb f s = true -> dropwhile f s = [].
Proof.
  induction s as [|c s IH]; simpl; [reflexivity|].
  intros H. apply andb_true_iff in H as (Hc & Hs). now rewrite Hc, IH.
Qed.

Lemma forallb_dropwhile (f : ascii -> bool) (s : str) :
  forallb f s = false -> dropwhile f s <> [].
Proof.
  induction s as [|c s IH]; simpl; [discriminate|].
  destruct (f c); simpl; [exact IH | discriminate].
Qed.

(** The text is its right-stripped part followed by stripped characters. *)
Lemma rstrip_by_split (f : ascii -> bool) (s : str) :
  exists w, s = rstrip_by f s ++ w /\ forallb f w = true.
Proof.
  induction s as [|c s (w & E & Hw)].
  - exists []. split; reflexivity.
  - rewrite rstrip_by_cons. destruct (rstrip_by f s) as [|x r] eqn:Er.
    + destruct (f c) eqn:Hc.
      * exists (c :: s). split; [reflexivity|]. simpl. rewrite Hc.
        now apply rstrip_by_nil_all.
      * exists w. simpl in E. subst w. split; [reflexivity | assumption].
    + exists w. split; [|assumption]. simpl. simpl in E. now rewrite <- E.
Qed.

Lemma rstrip_by_idem (f : ascii -> bool) (s : str) :
  rstrip_by f (rstrip_by f s) = rstrip_by f s.
Proof.
  induction s as [|c s IH]; [reflexivity|].
  rewrite rstrip_by_cons. destruct (rstrip_by f s) as [|x r] eqn:Er.
  - destruct (f c) eqn:Hc; [reflexivity|].
    rewrite rstrip_by_cons_keep by assumption. reflexivity.
  - rewrite rstrip_by_cons_nonempty; rewrite IH; [reflexivity | discriminate].
Qed.

Lemma lstrip_rstrip_comm (f : ascii -> bool) (s : str) :
  lstrip_by f (rstrip_by f s) = rstrip_by f (lstrip_by f s).
Proof.
  unfold lstrip_by.
  induction s as [|c s IH]; [reflexivity|].
  simpl dropwhile at 2. destruct (f c) eqn:Hc.
  - rewrite rstrip_by_cons. destruct (rstrip_by f s) as [|x r] eqn:Er.
    + rewrite Hc. simpl. apply rstrip_by_nil_all in Er.
      rewrite (dropwhile_all _ _ Er). reflexivity.
    + simpl. rewrite Hc. exact IH.
  - rewrite rstrip_by_cons_keep by assumption. simpl. now rewrite Hc.
Qed.

Lemma strip_by_rstrip_by (f : ascii -> bool) (s : str) :
  strip_by f (rstrip_by f s) = strip_by f s.
Proof.
  unfold strip_by. now rewrite lstrip_rstrip_comm, rstrip_by_idem.
Qed.

(** ** Deduplication of the bindings *)

Lemma import_blocks_bindings (fetch : str -> Pages) (ps : list ProcessedZone) :
  import_blocks fetch ps =
  flat_map (fun b => b_comment b :: binding_statement b) (bindings fetch ps).
Proof.
  unfold import_blocks, bindings.
  induction ps as [|z ps IH]; simpl; [reflexivity|].
  rewrite flat_map_app, <- IH. f_equal.
  destruct (p_existing z); [|reflexivity].
  simpl. do 6 f_equal.
  induction (importable (records_of fetch (p_id z) (p_name z))) as [|r rs IHr];
    simpl; [reflexivity | now rewrite IHr].
Qed.

Lemma bindings_comments (fetch : str -> Pages) (ps : list ProcessedZone) :
  Forall (fun b => exists c, b_comment b = "#"%char :: c) (bindings fetch ps).
Proof.
  unfold bindings. apply Forall_forall. intros b Hb.
  apply in_flat_map in Hb as (z & _ & Hb).
  destruct (p_existing z); [|contradiction].
  destruct Hb as [<- | Hb].
  - eexists. reflexivity.
  - apply in_map_iff in Hb as (r & <- & _). eexists. reflexivity.
Qed.

(** The parser of the existing file and the filter make the same key of a
    line [to = addr]. *)
Lemma strip_space_cons (a : str) : strip (" "%char :: a) = strip a.
Proof. reflexivity. Qed.

Lemma address_of_to_line (addr : str) :
  address_of_line (L "  to = " ++ addr) = Some (address_key addr).
Proof.
  unfold address_of_line.
  assert (E : strip (L "  to = " ++ addr)
              = L "to =" ++ rstrip (" "%char :: addr)).
  { unfold strip, strip_by, lstrip_by. simpl dropwhile.
    change (L "to = " ++ addr) with ("t"%char :: "o"%char :: " "%char :: "="%char
                                       :: " "%char :: addr).
    unfold rstrip.
    assert (H1 : rstrip_by isspace ("="%char :: " "%char :: addr)
                 = "="%char :: rstrip_by isspace (" "%char :: addr))
      by (now apply rstrip_by_cons_keep).
    rewrite (rstrip_by_cons_keep isspace "t"%char) by reflexivity.
    rewrite (rstrip_by_cons_keep isspace "o"%char) by reflexivity.
    rewrite (rstrip_by_cons_nonempty isspace " "%char), H1;
      [reflexivity | rewrite H1; discriminate]. }
  rewrite E. simpl. unfold address_key.
  change (strip (rstrip (" "%char :: addr)))
    with (strip_by isspace (rstrip_by isspace (" "%char :: addr))).
  now rewrite strip_by_rstrip_by.
Qed.

Lemma addresses_of_lines_In (lines : list str) (line x : str) :
  In line lines -> address_of_line line = Some x -> In x (addresses_of_lines lines).
Proof.
  induction lines as [|l lines IH]; simpl; [tauto|].
  intros [-> | H] E.
  - rewrite E. now left.
  - destruct (address_of_line l); [right|]; now apply IH.
Qed.


(** The filter, line by line of a binding. *)
Lemma filter_step_comment (existing : list str) (st : FilterState) (c : str) :
  buffer st = [] ->
  filter_step existing st ("#"%char :: c) =
  {| new_blocks := new_blocks st ++ ["#"%char :: c];
     current_to := current_to st; buffer := buffer st |}.
Proof. intros H. unfold filter_step. rewrite H. reflexivity. Qed.

Lemma filter_step_import (existing : list str) (st : FilterState) :
  filter_step existing st (L "import {") =
  {| new_blocks := new_blocks st; current_to := None; buffer := [L "import {"] |}.
Proof. reflexivity. Qed.

Lemma filter_step_to (existing : list str) (st : FilterState) (addr : str) :
  filter_step existing st (L "  to = " ++ addr) =
  {| new_blocks := new_blocks st; current_to := Some (strip addr);
     buffer := buffer st ++ [L "  to = " ++ addr] |}.
Proof. reflexivity. Qed.

Lemma filter_step_id (existing : list str) (st : FilterState) (i : str) :
  buffer st <> [] ->
  filter_step existing st (L "  id = " ++ i) =
  {| new_blocks := new_blocks st; current_to := current_to st;
     buffer := buffer st ++ [L "  id = " ++ i] |}.
Proof.
  intros H. unfold filter_step.
  destruct (buffer st); [contradiction | reflexivity].
Qed.

Lemma filter_step_close (existing : list str) (st : FilterState) :
  filter_step existing st (L "}") =
  {| new_blocks :=
       match current_to st with
       | None => new_blocks st ++ buffer st ++ [L "}"; []]
       | Some t =>
           if negb (mem (strip_dq t) existing)
           then new_blocks st ++ buffer st ++ [L "}"; []]
           else new_blocks st
       end;
     current_to := None; buffer := [] |}.
Proof. reflexivity. Qed.

Lemma filter_step_empty (existing : list str) (st : FilterState) :
  buffer st = [] ->
  filter_step existing st [] =
  {| new_blocks := new_blocks st ++ [ [] ];
     current_to := current_to st; buffer := buffer st |}.
Proof. intros H. unfold filter_step. rewrite H. reflexivity. Qed.

(** What the filter keeps of one binding. *)
Lemma filter_step_binding (existing : list str) (b : Binding) (rest : list str)
    (st : FilterState) :
  (exists c, b_comment b = "#"%char :: c) ->
  buffer st = [] ->
  exists st',
    fold_left (filter_step existing) ((b_comment b :: binding_statement b) ++ rest) st
    = fold_left (filter_step existing) rest st'
    /\ buffer st' = []
    /\ new_blocks st' =
       new_blocks st
       ++ b_comment b
          :: (if mem (address_key (b_to b)) existing then []
              else binding_statement b)
          ++ [ [] ].
Proof.
  intros (c & Hc) Hbuf.
  unfold binding_statement. rewrite Hc.
  cbn [app fold_left].
  rewrite filter_step_comment by assumption.
  rewrite filter_step_import, filter_step_to.
  rewrite filter_step_id by (cbn [buffer app]; discriminate).
  rewrite filter_step_close.
  rewrite filter_step_empty by reflexivity.
  eexists. split; [reflexivity|]. split; [reflexivity|].
  cbn [new_blocks current_to buffer]. unfold address_key.
  destruct (mem (strip_dq (strip (b_to b))) existing); cbn [negb].
  - now rewrite <- app_assoc.
  - rewrite <- !app_assoc. reflexivity.
Qed.

Lemma filter_blocks_bindings_from (existing : list str) (bs : list Binding)
    (st : FilterState) :
  Forall (fun b => exists c, b_comment b = "#"%char :: c) bs ->
  buffer st = [] ->
  new_blocks (fold_left (filter_step existing)
                (flat_map (fun b => b_comment b :: binding_statement b) bs) st)
  = new_blocks st
    ++ flat_map (fun b =>
                   b_comment b
                   :: (if mem (address_key (b_to b)) existing then []
                       else binding_statement b)
                   ++ [ [] ]) bs.
Proof.
  intros Hall. revert st.
  induction Hall as [|b bs Hb Hbs IH]; intros st Hbuf.
  - simpl. now rewrite app_nil_r.
  - cbn [flat_map].
    destruct (filter_step_binding existing b
                (flat_map (fun b => b_comment b :: binding_statement b) bs) st Hb Hbuf)
      as (st' & E & Hbuf' & Hnew).
    rewrite E, (IH st' Hbuf'), Hnew, <- app_assoc. reflexivity.
Qed.

Lemma filter_blocks_import_blocks (fetch : str -> Pages) (ps : list ProcessedZone)
    (existing : list str) :
  filter_blocks existing (import_blocks fetch ps) =
  flat_map (fun b =>
              b_comment b
              :: (if mem (address_key (b_to b)) existing then []
                  else binding_statement b)
              ++ [ [] ]) (bindings fetch ps).
Proof.
  unfold filter_blocks. rewrite import_blocks_bindings.
  rewrite filter_blocks_bindings_from; [reflexivity | apply bindings_comments | reflexivity].
Qed.

(** C6: when [imports.tf] exists and is not overwritten, the addresses it
    binds are parsed from its [to] lines, and of every binding only the
    comment is emitted when its address is among them: no statement is
    emitted for an address that is among them.  So against a file that has
    the [to] line of every binding, no binding statement is emitted. *)
Theorem import_dedup (fetch : str -> Pages) (ps : list ProcessedZone)
    (existing_content : str) :
  let existing := _parse_existing_imports_to_addresses existing_content in
  let emitted := emitted_blocks fetch ps false (Some existing_content) in
  emitted =
    flat_map (fun b =>
                b_comment b
                :: (if mem (address_key (b_to b)) existing then []
                    else binding_statement b)
                ++ [ [] ]) (bindings fetch ps)
  /\ generate_import_blocks fetch ps false false (Some existing_content) =
     match ps with
     | [] => None
     | _ :: _ =>
         Some match emitted with
              | [] => existing_content
              | _ :: _ =>
                  rstrip existing_content ++ [nl; nl]
                    ++ rstrip (unlines emitted) ++ [nl]
              end
     end
  /\ (forall addr, In (address_key addr) existing ->
                   ~ In (L "  to = " ++ addr) emitted)
  /\ (forall addr, In (L "  to = " ++ addr) (splitlines existing_content) ->
                   In (address_key addr) existing)
  /\ ((forall b, In b (bindings fetch ps) ->
                 In (L "  to = " ++ b_to b) (splitlines existing_content)) ->
      ~ In (L "import {") emitted
      /\ forall addr, ~ In (L "  to = " ++ addr) emitted).
Proof.
  cbv zeta. unfold emitted_blocks.
  assert (Hparse : forall addr,
             In (L "  to = " ++ addr) (splitlines existing_content) ->
             In (address_key addr)
                (_parse_existing_imports_to_addresses existing_content)).
  { intros addr H. unfold _parse_existing_imports_to_addresses.
    eapply addresses_of_lines_In; [exact H | apply address_of_to_line]. }
  split; [apply filter_blocks_import_blocks|].
  split; [destruct ps; reflexivity|].
  split.
  { intros addr Hin Hem. rewrite filter_blocks_import_blocks in Hem.
    apply in_flat_map in Hem as (b & Hb & Hline).
    pose proof (bindings_comments fetch ps) as Hc.
    rewrite Forall_forall in Hc. destruct (Hc b Hb) as (c & Ec).
    destruct Hline as [Hline | Hline]; [rewrite Ec in Hline; discriminate|].
    destruct (mem (address_key (b_to b))
                (_parse_existing_imports_to_addresses existing_content)) eqn:Em.
    - destruct Hline as [Hline | []]. discriminate.
    - unfold binding_statement in Hline. cbn [app In] in Hline.
      destruct Hline as [H | [H | [H | [H | [H | [H | []]]]]]]; try discriminate.
      apply (app_inv_head (L "  to = ")) in H. subst addr.
      apply mem_In in Hin. congruence. }
  split; [exact Hparse|].
  intros Hall. rewrite filter_blocks_import_blocks.
  assert (Hshape : forall line,
             In line
                (flat_map (fun b =>
                     b_comment b
                     :: (if mem (address_key (b_to b))
                              (_parse_existing_imports_to_addresses existing_content)
                         then [] else binding_statement b)
                     ++ [ [] ]) (bindings fetch ps)) ->
             line = [] \/ exists c, line = "#"%char :: c).
  { intros line Hin. apply in_flat_map in Hin as (b & Hb & Hin).
    pose proof (bindings_comments fetch ps) as Hc.
    rewrite Forall_forall in Hc. specialize (Hc b Hb).
    specialize (Hparse _ (Hall b Hb)). apply mem_In in Hparse.
    rewrite Hparse in Hin. simpl in Hin.
    destruct Hin as [<- | [<- | []]]; [right; exact Hc | now left]. }
  split.
  - intros Hin. destruct (Hshape _ Hin) as [H | (c & H)]; discriminate.
  - intros addr Hin. destruct (Hshape _ Hin) as [H | (c & H)]; discriminate.
Qed.

Lemma import_dedup_witness :
  ~ In (L "import {")
       (emitted_blocks example_fetch [example_processed "Z1" "example.com" true] false
          (Some (unlines (import_blocks example_fetch
                            [example_processed "Z1" "example.com" true])))).
Proof.
  apply (import_dedup example_fetch [example_processed "Z1" "example.com" true]
           (unlines (import_blocks example_fetch
                       [example_processed "Z1" "example.com" true]))).
  intros b Hb. vm_compute in Hb.
  destruct Hb as [<- | [<- | [<- | [<- | []]]]]; vm_compute; tauto.
Defined.

(** ** The scan of [findall] *)

Lemma span_eq (f : ascii -> bool) (s : str) :
  s = fst (span f s) ++ snd (span f s).
Proof.
  induction s as [|c s IH]; simpl; [reflexivity|].
  destruct (f c); [|reflexivity].
  destruct (span f s) as [a b]. simpl in *. now rewrite <- IH.
Qed.

Lemma span_fst_all (f : ascii -> bool) (s : str) :
  forallb f (fst (span f s)) = true.
Proof.
  induction s as [|c s IH]; simpl; [reflexivity|].
  destruct (f c) eqn:E; [|reflexivity].
  destruct (span f s) as [a b]. simpl in *. now rewrite E.
Qed.

Lemma span_snd_dropwhile (f : ascii -> bool) (s : str) :
  snd (span f s) = dropwhile f s.
Proof.
  induction s as [|c s IH]; simpl; [reflexivity|].
  destruct (f c); [|reflexivity].
  destruct (span f s) as [a b]. exact IH.
Qed.

Lemma span_snd_head (f : ascii -> bool) (s : str) (c : ascii) (r : str) :
  snd (span f s) = c :: r -> f c = false.
Proof.
  induction s as [|x s IH]; simpl; [discriminate|].
  destruct (f x) eqn:E.
  - destruct (span f s) as [a b]. exact IH.
  - simpl. intros H. injection H as -> _. exact E.
Qed.

Lemma span_app_stop (f : ascii -> bool) (s t : str) :
  snd (span f s) <> [] ->
  span f (s ++ t) = (fst (span f s), snd (span f s) ++ t).
Proof.
  induction s as [|c s IH]; simpl; [contradiction|].
  destruct (f c); [|reflexivity].
  destruct (span f s) as [a b]. simpl in *. intros H. now rewrite (IH H).
Qed.

Lemma span_app_all (f : ascii -> bool) (s t : str) :
  snd (span f s) = [] ->
  span f (s ++ t) = (s ++ fst (span f t), snd (span f t)).
Proof.
  induction s as [|c s IH]; simpl.
  - intros _. now destruct (span f t).
  - destruct (f c); [|discriminate].
    destruct (span f s) as [a b]. simpl in *. intros H. now rewrite (IH H).
Qed.

Lemma span_all (f : ascii -> bool) (s : str) :
  forallb f s = true -> span f s = (s, []).
Proof.
  induction s as [|c s IH]; simpl; [reflexivity|].
  intros H. apply andb_true_iff in H as (Hc & Hs). now rewrite Hc, (IH Hs).
Qed.

Lemma span_until (f : ascii -> bool) (a : str) (c : ascii) (r : str) :
  forallb f a = true -> f c = false -> span f (a ++ c :: r) = (a, c :: r).
Proof.
  intros Ha Hc. rewrite span_app_all by (now rewrite (span_all _ _ Ha)).
  simpl. rewrite Hc. simpl. now rewrite app_nil_r.
Qed.

Lemma startswith_app_l (p s t : str) :
  startswith p s = true -> startswith p (s ++ t) = true.
Proof.
  intros H. apply startswith_iff in H as (r & ->).
  rewrite <- app_assoc. apply startswith_app.
Qed.

(** A prefix test that succeeds only with the help of the text behind. *)
Lemma startswith_app_short (p s t : str) :
  startswith p (s ++ t) = true -> startswith p s = false ->
  exists c p2, p = s ++ c :: p2 /\ startswith (c :: p2) t = true.
Proof.
  revert s. induction p as [|x p IH]; intros s; simpl; [discriminate|].
  destruct s as [|y s]; simpl.
  - intros H _. exists x, p. split; [reflexivity | exact H].
  - intros H1 H2. apply andb_true_iff in H1 as (Hx & H1). rewrite Hx in H2.
    simpl in H2. destruct (IH s H1 H2) as (c & p2 & -> & Hc).
    apply Ascii.eqb_eq in Hx. subst. exists c, p2. split; [reflexivity | exact Hc].
Qed.

Lemma match_output_here_output (s1 : str) :
  match_output_here (L "output" ++ s1) =
  let '(ws, s2) := span isspace s1 in
  match ws, s2 with
  | _ :: _, q :: s3 =>
      if Ascii.eqb q dq then
        let '(body, s4) := span not_dq s3 in
        match body, s4 with
        | _ :: _, _ :: _ => Some (body, 6 + length ws + 1 + length body + 1)
        | _, _ => None
        end
      else None
  | _, _ => None
  end.
Proof. reflexivity. Qed.

Lemma opens_here_output (s1 : str) :
  opens_here (L "output" ++ s1) =
  let '(ws, s2) := span isspace s1 in
  match ws, s2 with
  | _ :: _, q :: s3 =>
      Ascii.eqb q dq
      && match snd (span not_dq s3) with [] => true | _ :: _ => false end
  | _, _ => false
  end.
Proof. reflexivity. Qed.

Lemma match_output_here_not_output (s : str) :
  startswith (L "output") s = false -> match_output_here s = None.
Proof. intros H. unfold match_output_here. now rewrite H. Qed.

(** A match lies within the text. *)
Lemma match_output_here_bound (s body : str) (n : nat) :
  match_output_here s = Some (body, n) -> n <= length s.
Proof.
  destruct (startswith (L "output") s) eqn:E;
    [|rewrite match_output_here_not_output by assumption; discriminate].
  apply startswith_iff in E as (s1 & ->).
  rewrite match_output_here_output.
  pose proof (span_eq isspace s1) as E1.
  destruct (span isspace s1) as [ws s2]. simpl in E1.
  destruct ws as [|w ws]; [discriminate|].
  destruct s2 as [|q s3]; [discriminate|].
  destruct (Ascii.eqb q dq); [|discriminate].
  pose proof (span_eq not_dq s3) as E2.
  destruct (span not_dq s3) as [b s4]. simpl in E2.
  destruct b as [|b0 b]; [discriminate|].
  destruct s4 as [|d s5]; [discriminate|].
  intros H. injection H as <- <-.
  rewrite E1, E2. rewrite !length_app. simpl. rewrite !length_app. simpl. lia.
Qed.

(** A match is not disturbed by text behind it. *)
Lemma match_output_here_app (s t body : str) (n : nat) :
  match_output_here s = Some (body, n) ->
  match_output_here (s ++ t) = Some (body, n).
Proof.
  destruct (startswith (L "output") s) eqn:E;
    [|rewrite match_output_here_not_output by assumption; discriminate].
  apply startswith_iff in E as (s1 & ->).
  rewrite <- app_assoc, !match_output_here_output.
  destruct (span isspace s1) as [ws s2] eqn:E1.
  destruct ws as [|w ws]; [discriminate|].
  destruct s2 as [|q s3]; [discriminate|].
  rewrite span_app_stop by (rewrite E1; discriminate).
  rewrite E1. cbn [fst snd app].
  destruct (Ascii.eqb q dq); [|discriminate].
  destruct (span not_dq s3) as [b s4] eqn:E2.
  destruct b as [|b0 b]; [discriminate|].
  destruct s4 as [|d s5]; [discriminate|].
  rewrite span_app_stop by (rewrite E2; discriminate).
  rewrite E2. cbn [fst snd app]. trivial.
Qed.

Lemma inert_cons_not_letter (c : ascii) (t : str) :
  inert (c :: t) = true -> existsb (Ascii.eqb c) (L "utp") = false.
Proof.
  unfold inert. intros H. apply andb_true_iff in H as (H & _).
  now apply negb_true_iff in H.
Qed.

Lemma inert_after_space (t : str) :
  inert t = true ->
  match snd (span isspace t) with
  | d :: _ => Ascii.eqb d dq = false
  | [] => True
  end.
Proof.
  rewrite span_snd_dropwhile. destruct t as [|c t]; [exact (fun _ => I)|].
  unfold inert. intros H. apply andb_true_iff in H as (_ & H).
  destruct (dropwhile isspace (c :: t)); [exact I | now apply negb_true_iff in H].
Qed.

(** A failed attempt, not an opened name, is not helped by inert text
    behind it. *)
Lemma match_output_here_app_none (s t : str) :
  s <> [] ->
  match_output_here s = None ->
  opens_here s = false ->
  inert t = true ->
  match_output_here (s ++ t) = None.
Proof.
  intros Hs Hnone Hopen Hin.
  destruct (startswith (L "output") s) eqn:E.
  - apply startswith_iff in E as (s1 & ->).
    rewrite <- app_assoc, match_output_here_output.
    rewrite match_output_here_output in Hnone.
    rewrite opens_here_output in Hopen.
    destruct (span isspace s1) as [ws s2] eqn:E1.
    destruct s2 as [|q s3].
    + (* the text ends in the white space behind the word *)
      rewrite span_app_all by (now rewrite E1).
      pose proof (inert_after_space t Hin) as Hq.
      destruct (snd (span isspace t)) as [|d r]; [now destruct (s1 ++ _)|].
      rewrite Hq. now destruct (s1 ++ _).
    + rewrite span_app_stop by (rewrite E1; discriminate).
      rewrite E1. cbn [fst snd app].
      destruct ws as [|w ws]; [reflexivity|].
      destruct (Ascii.eqb q dq); [|reflexivity].
      destruct (span not_dq s3) as [b s4] eqn:E2.
      destruct s4 as [|d s5]; [simpl in Hopen; discriminate|].
      rewrite span_app_stop by (rewrite E2; discriminate).
      rewrite E2. cbn [fst snd app].
      destruct b; [reflexivity | discriminate].
  - destruct (startswith (L "output") (s ++ t)) eqn:E';
      [|now apply match_output_here_not_output].
    exfalso.
    destruct (startswith_app_short _ _ _ E' E) as (c & p2 & Hp & Hc).
    destruct t as [|y t]; [discriminate|].
    simpl in Hc. apply andb_true_iff in Hc as (Hy & _).
    apply Ascii.eqb_eq in Hy. subst y.
    apply inert_cons_not_letter in Hin.
    destruct s as [|a1 [|a2 [|a3 [|a4 [|a5 [|a6 s]]]]]]; [contradiction| | | | | |];
      injection Hp as <-; intros; subst; discriminate.
Qed.

Lemma findall_from_skip_all (k : nat) (s : str) :
  length s <= k -> findall_from k s = [].
Proof.
  revert k. induction s as [|c s IH]; intros k H; [reflexivity|].
  destruct k as [|k]; [simpl in H; lia|]. simpl. apply IH. simpl in H. lia.
Qed.

Lemma findall_from_skip (a t : str) :
  findall_from (length a) (a ++ t) = findall_from 0 t.
Proof. induction a as [|c a IH]; [reflexivity | exact IH]. Qed.

(** The scan of a text that does not end inside a name, followed by inert
    text, is the scan of the one followed by the scan of the other. *)
Lemma findall_from_app (s t : str) (k : nat) :
  k <= length s ->
  open_from k s = false ->
  inert t = true ->
  findall_from k (s ++ t) = findall_from k s ++ findall_from 0 t.
Proof.
  intros Hk Hopen Hin. revert k Hk Hopen.
  induction s as [|c s IH]; intros k Hk Hopen.
  - simpl in Hk. now replace k with 0 by lia.
  - destruct k as [|k].
    + cbn [app findall_from]. cbn [open_from] in Hopen.
      destruct (match_output_here (c :: s)) as [[body n]|] eqn:E.
      * change (c :: s ++ t) with ((c :: s) ++ t).
        rewrite (match_output_here_app _ t _ _ E).
        apply match_output_here_bound in E. simpl in E.
        rewrite IH; [reflexivity | lia | assumption].
      * apply orb_false_iff in Hopen as (Ho & Hopen).
        change (c :: s ++ t) with ((c :: s) ++ t).
        rewrite match_output_here_app_none by (assumption || discriminate).
        apply IH; [lia | assumption].
    + cbn [app findall_from]. cbn [open_from] in Hopen.
      apply IH; [simpl in Hk; lia | assumption].
Qed.

Lemma findall_output_app (s t : str) :
  unterminated s = false -> inert t = true ->
  findall_output (s ++ t) = findall_output s ++ findall_output t.
Proof. intros H1 H2. apply findall_from_app; [lia | exact H1 | exact H2]. Qed.

(** *** Text without double quotes, and text given by its pieces *)

Lemma span_snd_nil_iff (f : ascii -> bool) (s : str) :
  snd (span f s) = [] <-> forallb f s = true.
Proof.
  rewrite span_snd_dropwhile. split.
  - induction s as [|c s IH]; simpl; [reflexivity|].
    destruct (f c); [exact IH | discriminate].
  - apply dropwhile_all.
Qed.

Lemma forallb_app_inv (f : ascii -> bool) (a b : str) :
  forallb f (a ++ b) = true -> forallb f a = true /\ forallb f b = true.
Proof. rewrite forallb_app. apply andb_true_iff. Qed.

Lemma quote_free_no_match (x : str) :
  forallb not_dq x = true ->
  match_output_here x = None /\ opens_here x = false.
Proof.
  intros Hx.
  destruct (startswith (L "output") x) eqn:E.
  - apply startswith_iff in E as (s1 & ->).
    rewrite match_output_here_output, opens_here_output.
    apply forallb_app_inv in Hx as (_ & Hx).
    pose proof (span_eq isspace s1) as E1.
    destruct (span isspace s1) as [ws s2]. simpl in E1.
    destruct ws as [|w ws]; [now split|].
    destruct s2 as [|q s3]; [now split|].
    rewrite E1 in Hx. apply forallb_app_inv in Hx as (_ & Hx).
    simpl in Hx. apply andb_true_iff in Hx as (Hq & _).
    unfold not_dq in Hq. apply negb_true_iff in Hq. rewrite Hq. now split.
  - unfold match_output_here, opens_here. rewrite E. now split.
Qed.

Lemma quote_free_scan (x : str) :
  forallb not_dq x = true ->
  findall_from 0 x = [] /\ open_from 0 x = false.
Proof.
  induction x as [|c x IH]; [now split|].
  intros Hx. destruct (quote_free_no_match _ Hx) as (Hm & Ho).
  cbn [findall_from open_from]. rewrite Hm, Ho.
  simpl in Hx. apply andb_true_iff in Hx as (_ & Hx). now apply IH.
Qed.

(** The attempt at the start of a piece without double quotes that is
    followed by a double quote. *)
Lemma match_output_here_piece (w x : str) :
  forallb not_dq w = true ->
  match_output_here (w ++ dq :: x) =
  if is_output_ws w then
    match span not_dq x with
    | (b :: body, _ :: _) => Some (b :: body, length w + 1 + length (b :: body) + 1)
    | _ => None
    end
  else None.
Proof.
  intros Hw. unfold is_output_ws.
  destruct (startswith (L "output") w) eqn:E.
  - apply startswith_iff in E as (w1 & ->).
    rewrite <- app_assoc, match_output_here_output.
    change (skipn 6 (L "output" ++ w1)) with w1.
    apply forallb_app_inv in Hw as (_ & Hw1).
    destruct (forallb isspace w1) eqn:Hws.
    + rewrite span_until by (assumption || reflexivity).
      destruct w1 as [|c w1]; [reflexivity|].
      cbn [andb]. rewrite Hws. rewrite Ascii.eqb_refl.
      destruct (span not_dq x) as [[|b body] [|d x']]; reflexivity.
    + assert (Hs : snd (span isspace w1) <> []).
      { intros H. apply span_snd_nil_iff in H. congruence. }
      rewrite span_app_stop by assumption.
      pose proof (span_eq isspace w1) as E1.
      destruct (span isspace w1) as [ws s2]. simpl in E1, Hs. cbn [fst snd].
      destruct s2 as [|q s3]; [contradiction|].
      rewrite E1 in Hw1. apply forallb_app_inv in Hw1 as (_ & Hq).
      simpl in Hq. apply andb_true_iff in Hq as (Hq & _).
      unfold not_dq in Hq. apply negb_true_iff in Hq.
      cbn [app]. rewrite Hq.
      destruct w1; [simpl in Hws; discriminate|]. cbn [andb]. rewrite Hws.
      now destruct ws.
  - cbn [andb]. apply match_output_here_not_output.
    destruct (startswith (L "output") (w ++ dq :: x)) eqn:E'; [|reflexivity].
    exfalso.
    destruct (startswith_app_short _ _ _ E' E) as (c & p2 & Hp & Hc).
    simpl in Hc. apply andb_true_iff in Hc as (Hc & _).
    apply Ascii.eqb_eq in Hc. subst c.
    assert (Hin : In dq (L "output")) by (rewrite Hp; apply in_or_app; right; now left).
    simpl in Hin. repeat (destruct Hin as [Hin | Hin]; [discriminate|]).
    contradiction.
Qed.

Lemma no_o_not_ends_output_ws (v : str) :
  ~ In "o"%char v -> ends_output_ws v = false.
Proof.
  induction v as [|c v IH]; intros H; [reflexivity|].
  cbn [ends_output_ws]. rewrite IH by (intros Hin; apply H; now right).
  rewrite orb_false_r. unfold is_output_ws.
  destruct (Ascii.eqb_spec "o"%char c) as [<- | Hc].
  - exfalso. apply H. now left.
  - apply Ascii.eqb_neq in Hc. cbn [L list_ascii_of_string startswith].
    now rewrite Hc.
Qed.

(** At most one suffix of a piece is the word and white space. *)
Lemma is_output_ws_unique (c : ascii) (u : str) :
  is_output_ws (c :: u) = true -> ends_output_ws u = false.
Proof.
  unfold is_output_ws. intros H. apply andb_true_iff in H as (H1 & H2).
  apply startswith_iff in H1 as (ws & E).
  change (L "output" ++ ws) with ("o"%char :: L "utput" ++ ws) in E.
  injection E as -> ->.
  cbn [skipn L list_ascii_of_string app] in H2.
  apply no_o_not_ends_output_ws. intros Hin.
  simpl in Hin. do 5 (destruct Hin as [Hin | Hin]; [discriminate|]).
  destruct ws as [|w ws]; [discriminate|].
  rewrite forallb_forall in H2. specialize (H2 _ Hin). discriminate.
Qed.

Lemma span_not_dq_snd_head (x : str) (d : ascii) (x' : str) :
  snd (span not_dq x) = d :: x' -> d = dq.
Proof.
  intros H. apply span_snd_head in H. unfold not_dq in H.
  apply negb_false_iff in H. now apply Ascii.eqb_eq in H.
Qed.

(** The scan through a piece without double quotes and the double quote
    behind it. *)
Lemma findall_from_piece (u x : str) :
  forallb not_dq u = true ->
  findall_from 0 (u ++ dq :: x) =
  if ends_output_ws u then
    match span not_dq x with
    | (b :: body, _ :: x') => (b :: body) :: findall_from 0 x'
    | _ => findall_from 0 x
    end
  else findall_from 0 x.
Proof.
  induction u as [|c u IH]; intros Hu.
  - cbn [app findall_from].
    change (dq :: x) with ([] ++ dq :: x) at 1.
    rewrite match_output_here_piece by reflexivity. reflexivity.
  - cbn [app findall_from].
    change (c :: u ++ dq :: x) with ((c :: u) ++ dq :: x).
    rewrite match_output_here_piece by assumption.
    simpl in Hu. apply andb_true_iff in Hu as (_ & Hu).
    cbn [ends_output_ws].
    destruct (is_output_ws (c :: u)) eqn:E.
    + cbn [orb].
      pose proof (span_eq not_dq x) as Ex.
      destruct (span not_dq x) as [[|b body] [|d x']] eqn:Es;
        try (rewrite (IH Hu), (is_output_ws_unique _ _ E); reflexivity).
      f_equal. simpl in Ex.
      assert (d = dq) by (apply (span_not_dq_snd_head x d x'); now rewrite Es).
      subst d. rewrite Ex.
      replace (length (c :: u) + 1 + length (b :: body) + 1 - 1)
        with (length (u ++ dq :: b :: body ++ [dq]))
        by (rewrite length_app; simpl; rewrite length_app; simpl; lia).
      replace (u ++ dq :: b :: body ++ dq :: x')
        with ((u ++ dq :: b :: body ++ [dq]) ++ x')
        by (rewrite <- app_assoc; simpl; now rewrite <- app_assoc).
      apply findall_from_skip.
    + cbn [orb]. apply IH. assumption.
Qed.

(** The names of a text given by its pieces. *)
Lemma findall_from_segs_text (n : nat) :
  forall (segs : list str) (tail : str),
    length segs <= n ->
    Forall (fun u => forallb not_dq u = true) segs ->
    segs_open segs = false ->
    findall_from 0 (segs_text segs tail) = names_segs segs ++ findall_from 0 tail.
Proof.
  induction n as [|n IH]; intros segs tail Hlen Hall Hopen.
  - destruct segs; [reflexivity | simpl in Hlen; lia].
  - destruct segs as [|u rest]; [reflexivity|].
    inversion Hall as [|? ? Hu Hrest]; subst.
    cbn [segs_text names_segs]. cbn [segs_open] in Hopen.
    rewrite findall_from_piece by assumption.
    destruct (ends_output_ws u).
    + destruct rest as [|v rest']; [discriminate|].
      inversion Hrest as [|? ? Hv Hrest']; subst.
      cbn [segs_text].
      rewrite span_until by (assumption || reflexivity).
      destruct v as [|b body].
      * change ([] ++ dq :: segs_text rest' tail) with (segs_text ([] :: rest') tail).
        apply IH; [simpl in *; lia | assumption | assumption].
      * cbn [app]. f_equal. apply IH; [simpl in *; lia | assumption | assumption].
    + apply IH; [simpl in *; lia | assumption | assumption].
Qed.

Lemma findall_segs_text (segs : list str) (tail : str) :
  Forall (fun u => forallb not_dq u = true) segs ->
  segs_open segs = false ->
  findall_from 0 (segs_text segs tail) = names_segs segs ++ findall_from 0 tail.
Proof. apply (findall_from_segs_text (length segs)). lia. Qed.

(** ** Joining lines, stripping, searching *)

Lemma unlines_cons (a b : str) (l : list str) :
  unlines (a :: b :: l) = a ++ nl :: unlines (b :: l).
Proof. reflexivity. Qed.

Lemma unlines_app (l1 l2 : list str) :
  l2 <> [] -> unlines (l1 ++ l2) = lines_text l1 ++ unlines l2.
Proof.
  intros H2. induction l1 as [|a l1 IH]; [reflexivity|].
  cbn [app lines_text flat_map]. fold (lines_text l1).
  destruct (l1 ++ l2) as [|b l] eqn:E.
  - apply app_eq_nil in E as (_ & ->). contradiction.
  - rewrite unlines_cons, IH. now rewrite <- !app_assoc.
Qed.

Lemma unlines_snoc_empty (l : list str) : unlines (l ++ [ [] ]) = lines_text l.
Proof.
  rewrite unlines_app by discriminate. apply app_nil_r.
Qed.

Lemma lines_text_app (l1 l2 : list str) :
  lines_text (l1 ++ l2) = lines_text l1 ++ lines_text l2.
Proof. apply flat_map_app. Qed.

Lemma rstrip_by_app_nonempty (f : ascii -> bool) (a b : str) :
  rstrip_by f b <> [] -> rstrip_by f (a ++ b) = a ++ rstrip_by f b.
Proof.
  intros Hb. induction a as [|c a IH]; [reflexivity|].
  cbn [app]. rewrite rstrip_by_cons_nonempty; rewrite IH; [reflexivity|].
  destruct a; [assumption | discriminate].
Qed.

Lemma rstrip_by_app_solid (f : ascii -> bool) (a : str) (c : ascii) (b : str) :
  f c = false -> rstrip_by f (a ++ c :: b) = a ++ c :: rstrip_by f b.
Proof.
  intros Hc. rewrite rstrip_by_app_nonempty;
    rewrite rstrip_by_cons_keep by assumption; [reflexivity | discriminate].
Qed.

Lemma rstrip_by_prefix_forallb (f g : ascii -> bool) (s : str) :
  forallb g s = true -> forallb g (rstrip_by f s) = true.
Proof.
  intros H. destruct (rstrip_by_split f s) as (w & E & _).
  rewrite E in H. now apply forallb_app_inv in H as (H & _).
Qed.

Lemma find_at_spec (sub s : str) (k : nat) :
  (0 <= find_at sub k s)%Z ->
  exists j, find_at sub k s = Z.of_nat (k + j)
            /\ j <= length s
            /\ startswith sub (skipn j s) = true.
Proof.
  revert k. induction s as [|c s IH]; intros k H.
  - cbn [find_at] in *. destruct (startswith sub []) eqn:E; [|lia].
    exists 0. rewrite Nat.add_0_r. repeat split; [lia | exact E].
  - cbn [find_at] in *. destruct (startswith sub (c :: s)) eqn:E.
    + exists 0. rewrite Nat.add_0_r. repeat split; [simpl; lia | exact E].
    + destruct (IH (S k) H) as (j & Hj & Hlen & Hs).
      exists (S j). rewrite Hj. repeat split; [f_equal; lia | simpl; lia | exact Hs].
Qed.

Lemma find_spec (sub s : str) :
  (0 < find sub s)%Z ->
  startswith sub (skipn (Z.to_nat (find sub s)) s) = true.
Proof.
  intros H. destruct (find_at_spec sub s 0) as (j & Hj & _ & Hs); [unfold find in H; lia|].
  unfold find. rewrite Hj. simpl. now rewrite Nat2Z.id.
Qed.

Lemma rfind_at_spec (sub s : str) (k : nat) :
  (0 <= rfind_at sub k s)%Z ->
  exists j, rfind_at sub k s = Z.of_nat (k + j)
            /\ j <= length s
            /\ startswith sub (skipn j s) = true.
Proof.
  revert k. induction s as [|c s IH]; intros k H.
  - cbn [rfind_at] in *. destruct (startswith sub []) eqn:E; [|lia].
    exists 0. rewrite Nat.add_0_r. repeat split; [lia | exact E].
  - cbn [rfind_at] in *.
    destruct (0 <=? rfind_at sub (S k) s)%Z eqn:E0.
    + apply Z.leb_le in E0. destruct (IH (S k) E0) as (j & Hj & Hlen & Hs).
      exists (S j). rewrite Hj. repeat split; [f_equal; lia | simpl; lia | exact Hs].
    + destruct (startswith sub (c :: s)) eqn:E; [|lia].
      exists 0. rewrite Nat.add_0_r. repeat split; [simpl; lia | exact E].
Qed.

Lemma rfind_spec (sub s : str) :
  (0 < rfind sub s)%Z ->
  Z.to_nat (rfind sub s) <= length s
  /\ startswith sub (skipn (Z.to_nat (rfind sub s)) s) = true.
Proof.
  intros H. destruct (rfind_at_spec sub s 0) as (j & Hj & Hlen & Hs);
    [unfold rfind in H; lia|].
  unfold rfind. rewrite Hj. simpl. rewrite Nat2Z.id. now split.
Qed.

(** The loop that splices the entries puts them, the last first, at the
    insertion point. *)
Lemma splice_entries_spec (value_end : nat) (entries : list str) (section : str) :
  value_end <= length section ->
  splice_entries value_end entries section =
  firstn value_end section
  ++ flat_map (fun e => e ++ [nl]) (rev entries)
  ++ skipn value_end section.
Proof.
  intros Hlen. unfold splice_entries.
  assert (H : forall done,
             fold_left (fun sec entry =>
                          firstn value_end sec ++ entry ++ [nl] ++ skipn value_end sec)
                       entries
                       (firstn value_end section ++ done ++ skipn value_end section)
             = firstn value_end section
               ++ (flat_map (fun e => e ++ [nl]) (rev entries) ++ done)
               ++ skipn value_end section).
  { induction entries as [|e entries IH]; intros done; [reflexivity|].
    cbn [fold_left].
    rewrite firstn_app, firstn_firstn, Nat.min_id, length_firstn, Nat.min_l by lia.
    rewrite Nat.sub_diag, firstn_0, app_nil_r.
    rewrite skipn_app, length_firstn, Nat.min_l by lia.
    rewrite Nat.sub_diag, skipn_0, skipn_firstn_comm, Nat.sub_diag, firstn_0.
    cbn [app].
    replace (e ++ nl :: done ++ skipn value_end section)
      with ((e ++ nl :: done) ++ skipn value_end section)
      by (now rewrite <- app_assoc).
    rewrite IH. cbn [rev]. rewrite flat_map_app. cbn [flat_map].
    rewrite app_nil_r, <- !app_assoc. reflexivity. }
  specialize (H []).
  change ([] ++ skipn value_end section) with (skipn value_end section) in H.
  rewrite firstn_skipn in H.
  rewrite H, app_nil_r. reflexivity.
Qed.

(** ** The generated texts *)

Lemma segs_text_app (segs : list str) (tail rest : str) :
  segs_text segs tail ++ rest = segs_text segs (tail ++ rest).
Proof.
  induction segs as [|u segs IH]; [reflexivity|].
  cbn [segs_text]. now rewrite <- app_assoc, <- IH.
Qed.

Lemma rstrip_segs_text (u : str) (segs : list str) (tail : str) :
  rstrip (segs_text (u :: segs) tail) = segs_text (u :: segs) (rstrip tail).
Proof.
  revert u. induction segs as [|v segs IH]; intros u.
  - cbn [segs_text]. unfold rstrip. now rewrite rstrip_by_app_solid.
  - change (segs_text (u :: v :: segs) tail)
      with (u ++ dq :: segs_text (v :: segs) tail).
    change (segs_text (u :: v :: segs) (rstrip tail))
      with (u ++ dq :: segs_text (v :: segs) (rstrip tail)).
    rewrite <- IH. unfold rstrip. now rewrite rstrip_by_app_solid.
Qed.

Ltac norm_text :=
  repeat (rewrite <- ?app_assoc; cbn [app]);
  reflexivity.

Lemma zone_block_text (zone_name : str) (is_sub has_records : bool) :
  lines_text (generate_zone_output_block zone_name (sanitize_module_name zone_name)
                is_sub has_records)
  = segs_text (zone_block_segs zone_name is_sub)
              (zone_block_tail zone_name is_sub has_records).
Proof.
  unfold generate_zone_output_block, zone_block_segs, zone_block_tail, lines_text, quoted.
  cbv zeta. cbn [flat_map segs_text].
  destruct has_records; norm_text.
Qed.

Lemma entry_text (z : ProcessedZone) :
  all_zones_entry z
  = segs_text (entry_segs (p_name z) (p_is_subdomain z))
              (entry_tail (p_name z) (p_is_subdomain z) (p_has_records z)).
Proof.
  unfold all_zones_entry, entry_segs, entry_tail, unlines, quoted.
  cbv zeta. cbn [join segs_text].
  destruct (p_has_records z); norm_text.
Qed.

Lemma root_block_text (zone_name : str) :
  lines_text
    [ L "output " ++ quoted (sanitize_module_name zone_name ++ L "_details") ++ L " {";
      L "  description = " ++ quoted (L "Details for " ++ zone_name);
      L "  value = module.zones." ++ sanitize_module_name zone_name;
      L "}" ]
  = segs_text (root_block_segs zone_name) (root_block_tail zone_name).
Proof.
  unfold root_block_segs, root_block_tail, lines_text, quoted.
  cbv zeta. cbn [flat_map segs_text]. norm_text.
Qed.

(** *** Plain names *)

Lemma isalnum_plain (c : ascii) : isalnum c = true -> plain_char c = true.
Proof.
  destruct c as [[] [] [] [] [] [] [] []]; vm_compute; intros H;
    first [reflexivity | discriminate H].
Qed.

Lemma sanitize_plain (domain : str) :
  plain_name (sanitize_module_name domain) = true.
Proof.
  pose proof (sanitize_module_name_chars domain) as Hall.
  unfold plain_name. apply forallb_forall. intros c Hc.
  rewrite Forall_forall in Hall. destruct (Hall c Hc) as [H | ->].
  - now apply isalnum_plain.
  - reflexivity.
Qed.

Lemma sanitize_nonempty (domain : str) :
  exists c r, sanitize_module_name domain = c :: r /\ plain_char c = true.
Proof.
  destruct (sanitize_module_name_head domain) as (c & r & E & _).
  exists c, r. split; [exact E|].
  pose proof (sanitize_plain domain) as H. rewrite E in H.
  simpl in H. now apply andb_true_iff in H as (H & _).
Qed.

Lemma plain_name_quote_free (z : str) :
  plain_name z = true -> forallb not_dq z = true.
Proof.
  unfold plain_name. rewrite !forallb_forall. intros H c Hc.
  specialize (H c Hc). unfold plain_char in H.
  now apply andb_true_iff in H as (_ & H).
Qed.

Lemma plain_name_app (a b : str) :
  plain_name a = true -> plain_name b = true -> plain_name (a ++ b) = true.
Proof. unfold plain_name. intros Ha Hb. now rewrite forallb_app, Ha, Hb. Qed.

Lemma zone_module_plain (m : str) (is_sub : bool) :
  plain_name m = true -> plain_name (zone_module_of m is_sub) = true.
Proof.
  intros H. unfold zone_module_of. destruct is_sub; [|exact H].
  now apply plain_name_app.
Qed.

Lemma records_module_plain (m : str) (is_sub : bool) :
  plain_name m = true -> plain_name (records_module_of m is_sub) = true.
Proof.
  intros H. unfold records_module_of. destruct is_sub; now apply plain_name_app.
Qed.

(** *** Pieces that do not open a name *)

Lemma is_output_ws_snoc (a : str) (c : ascii) :
  isspace c = false -> is_output_ws (a ++ [c]) = false.
Proof.
  intros Hc. unfold is_output_ws.
  destruct (startswith (L "output") (a ++ [c])) eqn:E; [|reflexivity].
  cbn [andb].
  destruct (skipn 6 (a ++ [c])) as [|x r] eqn:Es; [reflexivity|].
  assert (Hin : In c (x :: r)).
  { destruct (Nat.le_gt_cases 6 (length a)) as [Hle | Hgt].
    - rewrite skipn_app in Es.
      replace (6 - length a) with 0 in Es by lia. simpl skipn at 2 in Es.
      rewrite <- Es. apply in_or_app. right. now left.
    - rewrite skipn_all2 in Es by (rewrite length_app; simpl; lia).
      discriminate. }
  apply not_true_is_false. intros H. rewrite forallb_forall in H.
  specialize (H c Hin). congruence.
Qed.

Lemma ends_output_ws_snoc (a : str) (c : ascii) :
  isspace c = false -> ends_output_ws (a ++ [c]) = false.
Proof.
  intros Hc. induction a as [|x a IH].
  - pose proof (is_output_ws_snoc [] c Hc) as H. cbn [app] in H.
    cbn [app ends_output_ws]. rewrite H. reflexivity.
  - cbn [app ends_output_ws].
    change (x :: a ++ [c]) with ((x :: a) ++ [c]).
    now rewrite (is_output_ws_snoc _ c Hc), IH.
Qed.

Lemma ends_output_ws_app_r (a b : str) :
  ends_output_ws b = true -> ends_output_ws (a ++ b) = true.
Proof.
  intros H. induction a as [|x a IH]; [exact H|].
  cbn [app ends_output_ws]. rewrite IH. apply orb_true_r.
Qed.

Lemma ends_output_ws_plain (a z : str) :
  plain_name z = true -> ends_output_ws a = false ->
  ends_output_ws (a ++ z) = false.
Proof.
  intros Hz Ha. destruct z as [|x z]; [now rewrite app_nil_r|].
  destruct (@exists_last _ (x :: z)) as (z' & c & E); [discriminate|].
  rewrite E in *. rewrite app_assoc. apply ends_output_ws_snoc.
  unfold plain_name in Hz. apply forallb_app_inv in Hz as (_ & Hc).
  simpl in Hc. apply andb_true_iff in Hc as (Hc & _).
  unfold plain_char in Hc. apply andb_true_iff in Hc as (Hc & _).
  now apply negb_true_iff in Hc.
Qed.

Ltac quote_free :=
  rewrite ?forallb_app;
  repeat match goal with
         | H : forallb not_dq _ = true |- _ => rewrite H
         end;
  reflexivity.

Lemma ends_output_ws_bracket (a : str) : ends_output_ws (a ++ L "[") = false.
Proof. now apply ends_output_ws_snoc. Qed.

Lemma zone_block_segs_ok (zone_name : str) (is_sub : bool) :
  plain_name zone_name = true ->
  Forall (fun u => forallb not_dq u = true) (zone_block_segs zone_name is_sub)
  /\ names_segs (zone_block_segs zone_name is_sub) = [sanitize_module_name zone_name]
  /\ segs_open (zone_block_segs zone_name is_sub) = false.
Proof.
  intros Hz.
  pose proof (plain_name_quote_free _ Hz) as Hq.
  pose proof (plain_name_quote_free _ (sanitize_plain zone_name)) as Hm.
  pose proof (plain_name_quote_free _
                (zone_module_plain _ is_sub (sanitize_plain zone_name))) as Hzm.
  destruct (sanitize_nonempty zone_name) as (c & r & Em & _).
  assert (E1 : ends_output_ws (L "# Output " ++ zone_name ++ L " details" ++ [nl]
                                 ++ L "output ") = true).
  { rewrite !app_assoc. now apply ends_output_ws_app_r. }
  assert (E3 : ends_output_ws (L " {" ++ [nl] ++ L "  description = ") = false)
    by reflexivity.
  assert (E4 : ends_output_ws (L "Details for " ++ zone_name) = false)
    by (now apply ends_output_ws_plain).
  assert (E5 : forall a b, ends_output_ws
                 ([nl] ++ L "  value = {" ++ [nl] ++ a
                    ++ zone_module_of (sanitize_module_name zone_name) is_sub
                    ++ b ++ L "[") = false).
  { intros a b. rewrite !app_assoc. apply ends_output_ws_bracket. }
  assert (E6 : ends_output_ws zone_name = false)
    by (now apply (ends_output_ws_plain [])).
  assert (E7 : forall a b, ends_output_ws
                 (L "]" ++ [nl] ++ a
                    ++ zone_module_of (sanitize_module_name zone_name) is_sub
                    ++ b ++ L "[") = false).
  { intros a b. rewrite !app_assoc. apply ends_output_ws_bracket. }
  unfold zone_block_segs. cbv zeta.
  split; [|split].
  - repeat constructor; quote_free.
  - cbn [names_segs]. rewrite E1, Em, <- Em, E3, E4, E5, E6, E7. reflexivity.
  - cbn [segs_open]. rewrite E1, Em, <- Em, E3, E4, E5, E6, E7. reflexivity.
Qed.

Lemma zone_block_tail_quote_free (zone_name : str) (is_sub has_records : bool) :
  forallb not_dq (zone_block_tail zone_name is_sub has_records) = true.
Proof.
  pose proof (plain_name_quote_free _
                (records_module_plain _ is_sub (sanitize_plain zone_name))) as Hrm.
  unfold zone_block_tail. destruct has_records; quote_free.
Qed.

Lemma entry_segs_ok (zone_name : str) (is_sub : bool) :
  plain_name zone_name = true ->
  Forall (fun u => forallb not_dq u = true) (entry_segs zone_name is_sub)
  /\ names_segs (entry_segs zone_name is_sub) = []
  /\ segs_open (entry_segs zone_name is_sub) = false.
Proof.
  intros Hz.
  pose proof (plain_name_quote_free _ Hz) as Hq.
  pose proof (plain_name_quote_free _ (sanitize_plain zone_name)) as Hm.
  pose proof (plain_name_quote_free _
                (zone_module_plain _ is_sub (sanitize_plain zone_name))) as Hzm.
  assert (E1 : forall a b c d, ends_output_ws
                 (L "    " ++ a ++ L " = {" ++ [nl] ++ b ++ c ++ d ++ L "[") = false).
  { intros a b c d. rewrite !app_assoc. apply ends_output_ws_bracket. }
  assert (E2 : ends_output_ws zone_name = false)
    by (now apply (ends_output_ws_plain [])).
  assert (E3 : forall a b c, ends_output_ws
                 (L "]" ++ [nl] ++ a ++ b ++ c ++ L "[") = false).
  { intros a b c. rewrite !app_assoc. apply ends_output_ws_bracket. }
  unfold entry_segs. cbv zeta.
  split; [|split].
  - repeat constructor; quote_free.
  - cbn [names_segs]. now rewrite E1, E2, E3.
  - cbn [segs_open]. now rewrite E1, E2, E3.
Qed.

Lemma entry_tail_quote_free (zone_name : str) (is_sub has_records : bool) :
  forallb not_dq (entry_tail zone_name is_sub has_records) = true.
Proof.
  pose proof (plain_name_quote_free _
                (records_module_plain _ is_sub (sanitize_plain zone_name))) as Hrm.
  unfold entry_tail. destruct has_records; quote_free.
Qed.

Lemma root_block_segs_ok (zone_name : str) :
  plain_name zone_name = true ->
  Forall (fun u => forallb not_dq u = true) (root_block_segs zone_name)
  /\ names_segs (root_block_segs zone_name)
     = [sanitize_module_name zone_name ++ L "_details"]
  /\ segs_open (root_block_segs zone_name) = false.
Proof.
  intros Hz.
  pose proof (plain_name_quote_free _ Hz) as Hq.
  pose proof (plain_name_quote_free _ (sanitize_plain zone_name)) as Hm.
  destruct (sanitize_nonempty zone_name) as (c & r & Em & _).
  assert (E4 : ends_output_ws (L "Details for " ++ zone_name) = false)
    by (now apply ends_output_ws_plain).
  unfold root_block_segs. cbv zeta.
  split; [|split].
  - repeat constructor; quote_free.
  - cbn [names_segs].
    change (ends_output_ws (L "output ")) with true. cbv iota.
    rewrite Em. cbn [app].
    change (ends_output_ws (L " {" ++ [nl] ++ L "  description = ")) with false.
    cbv iota. now rewrite E4.
  - cbn [segs_open].
    change (ends_output_ws (L "output ")) with true. cbv iota.
    rewrite Em. cbn [app].
    change (ends_output_ws (L " {" ++ [nl] ++ L "  description = ")) with false.
    cbv iota. now rewrite E4.
Qed.

Lemma root_block_tail_quote_free (zone_name : str) :
  forallb not_dq (root_block_tail zone_name) = true.
Proof.
  pose proof (plain_name_quote_free _ (sanitize_plain zone_name)) as Hm.
  unfold root_block_tail. quote_free.
Qed.

(** *** Scanning the generated texts *)

Lemma findall_quote_free_app (tail rest : str) :
  forallb not_dq tail = true -> inert rest = true ->
  findall_from 0 (tail ++ rest) = findall_from 0 rest.
Proof.
  intros Ht Hr. destruct (quote_free_scan _ Ht) as (Hf & Ho).
  rewrite findall_from_app by (lia || assumption). now rewrite Hf.
Qed.

Lemma findall_segs_block (segs : list str) (tail rest : str) :
  Forall (fun u => forallb not_dq u = true) segs ->
  segs_open segs = false ->
  forallb not_dq tail = true ->
  inert rest = true ->
  findall_from 0 (segs_text segs tail ++ rest) = names_segs segs ++ findall_from 0 rest.
Proof.
  intros Hall Hopen Ht Hr.
  rewrite segs_text_app, findall_segs_text by assumption.
  now rewrite findall_quote_free_app.
Qed.

Lemma isspace_not_letter (c : ascii) :
  isspace c = true ->
  Ascii.eqb "o"%char c = false /\ existsb (Ascii.eqb c) (L "utp") = false.
Proof.
  destruct c as [[] [] [] [] [] [] [] []]; vm_compute; intros H;
    first [discriminate H | split; reflexivity].
Qed.

Lemma findall_from_space_cons (c : ascii) (s : str) :
  isspace c = true -> findall_from 0 (c :: s) = findall_from 0 s.
Proof.
  intros Hc. cbn [findall_from].
  rewrite match_output_here_not_output; [reflexivity|].
  cbn [L list_ascii_of_string startswith].
  destruct (isspace_not_letter c Hc) as (H & _). now rewrite H.
Qed.

Lemma inert_space_cons (c : ascii) (rest : str) :
  isspace c = true -> inert rest = true -> inert (c :: rest) = true.
Proof.
  intros Hc Hr. unfold inert. cbn [dropwhile]. rewrite Hc.
  destruct (isspace_not_letter c Hc) as (_ & H). rewrite H. cbn [negb andb].
  destruct rest as [|d rest]; [reflexivity|].
  unfold inert in Hr. now apply andb_true_iff in Hr as (_ & Hr).
Qed.

(** The text of the output blocks. *)
Lemma output_blocks_cons (z : ProcessedZone) (zs : list ProcessedZone) :
  output_blocks_of (z :: zs) =
  (generate_zone_output_block (p_name z) (sanitize_module_name (p_name z))
     (p_is_subdomain z) (p_has_records z) ++ [ [] ])
  ++ output_blocks_of zs.
Proof. reflexivity. Qed.

Lemma output_blocks_nonempty (z : ProcessedZone) (zs : list ProcessedZone) :
  output_blocks_of (z :: zs) <> [].
Proof. discriminate. Qed.

Lemma lines_text_output_blocks (z : ProcessedZone) (zs : list ProcessedZone) :
  lines_text (output_blocks_of (z :: zs)) =
  segs_text (zone_block_segs (p_name z) (p_is_subdomain z))
            (zone_block_tail (p_name z) (p_is_subdomain z) (p_has_records z))
  ++ nl :: lines_text (output_blocks_of zs).
Proof.
  rewrite output_blocks_cons, !lines_text_app, zone_block_text, <- app_assoc.
  reflexivity.
Qed.

Lemma unlines_output_blocks (z : ProcessedZone) (zs : list ProcessedZone) :
  unlines (output_blocks_of (z :: zs)) =
  segs_text (zone_block_segs (p_name z) (p_is_subdomain z))
            (zone_block_tail (p_name z) (p_is_subdomain z) (p_has_records z))
  ++ match zs with
     | [] => []
     | _ :: _ => nl :: unlines (output_blocks_of zs)
     end.
Proof.
  rewrite output_blocks_cons. destruct zs as [|z' zs].
  - cbn [output_blocks_of flat_map]. rewrite !app_nil_r.
    now rewrite unlines_snoc_empty, zone_block_text.
  - rewrite unlines_app by apply output_blocks_nonempty.
    rewrite lines_text_app, zone_block_text, <- app_assoc. reflexivity.
Qed.

Lemma inert_zone_block (zone_name : str) (is_sub has_records : bool) (rest : str) :
  inert (segs_text (zone_block_segs zone_name is_sub)
           (zone_block_tail zone_name is_sub has_records) ++ rest) = true.
Proof. reflexivity. Qed.

Lemma findall_zone_block (z : ProcessedZone) (rest : str) :
  plain_name (p_name z) = true -> inert rest = true ->
  findall_from 0
    (segs_text (zone_block_segs (p_name z) (p_is_subdomain z))
       (zone_block_tail (p_name z) (p_is_subdomain z) (p_has_records z)) ++ rest)
  = sanitize_module_name (p_name z) :: findall_from 0 rest.
Proof.
  intros Hz Hr.
  destruct (zone_block_segs_ok (p_name z) (p_is_subdomain z) Hz) as (Hall & Hn & Ho).
  rewrite findall_segs_block;
    [now rewrite Hn | assumption | assumption
     | apply zone_block_tail_quote_free | assumption].
Qed.

Lemma findall_lines_blocks (zs : list ProcessedZone) (rest : str) :
  Forall (fun z => plain_name (p_name z) = true) zs ->
  inert rest = true ->
  findall_from 0 (lines_text (output_blocks_of zs) ++ rest)
  = map (fun z => sanitize_module_name (p_name z)) zs ++ findall_from 0 rest.
Proof.
  intros Hall Hr. induction Hall as [|z zs Hz Hzs IH]; [reflexivity|].
  rewrite lines_text_output_blocks, <- app_assoc.
  cbn [app map].
  assert (Hin : inert (lines_text (output_blocks_of zs) ++ rest) = true).
  { destruct zs as [|z' zs']; [exact Hr|].
    rewrite lines_text_output_blocks, <- app_assoc. apply inert_zone_block. }
  rewrite findall_zone_block by (assumption || now apply inert_space_cons).
  rewrite findall_from_space_cons by reflexivity. now rewrite IH.
Qed.

Lemma rstrip_quote_free (tail : str) :
  forallb not_dq tail = true -> forallb not_dq (rstrip tail) = true.
Proof. apply rstrip_by_prefix_forallb. Qed.

(** The stripped text of the output blocks starts with the comment of the
    first block. *)
Lemma rstrip_unlines_output_blocks (z : ProcessedZone) (zs : list ProcessedZone) :
  rstrip (unlines (output_blocks_of (z :: zs))) =
  match zs with
  | [] =>
      segs_text (zone_block_segs (p_name z) (p_is_subdomain z))
        (rstrip (zone_block_tail (p_name z) (p_is_subdomain z) (p_has_records z)))
  | _ :: _ =>
      segs_text (zone_block_segs (p_name z) (p_is_subdomain z))
        (zone_block_tail (p_name z) (p_is_subdomain z) (p_has_records z))
      ++ nl :: rstrip (unlines (output_blocks_of zs))
  end
  /\ exists x, rstrip (unlines (output_blocks_of (z :: zs))) = "#"%char :: x.
Proof.
  revert z. induction zs as [|z' zs IH]; intros z.
  - rewrite unlines_output_blocks, app_nil_r.
    split; [apply rstrip_segs_text|].
    unfold rstrip. cbn [zone_block_segs segs_text app L list_ascii_of_string].
    rewrite rstrip_by_cons_keep by reflexivity. eexists. reflexivity.
  - destruct (IH z') as (_ & x & Ex).
    rewrite unlines_output_blocks.
    assert (E : rstrip (segs_text (zone_block_segs (p_name z) (p_is_subdomain z))
                          (zone_block_tail (p_name z) (p_is_subdomain z) (p_has_records z))
                        ++ nl :: unlines (output_blocks_of (z' :: zs)))
                = segs_text (zone_block_segs (p_name z) (p_is_subdomain z))
                    (zone_block_tail (p_name z) (p_is_subdomain z) (p_has_records z))
                  ++ nl :: rstrip (unlines (output_blocks_of (z' :: zs)))).
    { unfold rstrip in *. rewrite rstrip_by_app_nonempty.
      - rewrite rstrip_by_cons_nonempty; [reflexivity | rewrite Ex; discriminate].
      - rewrite rstrip_by_cons_nonempty; [discriminate | rewrite Ex; discriminate]. }
    split; [exact E|]. rewrite E.
    cbn [zone_block_segs segs_text app L list_ascii_of_string]. eexists. reflexivity.
Qed.

Lemma findall_stripped_blocks (zs : list ProcessedZone) (rest : str) :
  zs <> [] ->
  Forall (fun z => plain_name (p_name z) = true) zs ->
  inert rest = true ->
  findall_from 0 (rstrip (unlines (output_blocks_of zs)) ++ rest)
  = map (fun z => sanitize_module_name (p_name z)) zs ++ findall_from 0 rest.
Proof.
  intros Hne Hall Hr. induction Hall as [|z zs Hz Hzs IH]; [contradiction|].
  destruct (rstrip_unlines_output_blocks z zs) as (E & _). rewrite E.
  destruct zs as [|z' zs'].
  - destruct (zone_block_segs_ok (p_name z) (p_is_subdomain z) Hz) as (Hall & Hn & Ho).
    rewrite findall_segs_block;
      [now rewrite Hn | assumption | assumption | | assumption].
    apply rstrip_quote_free, zone_block_tail_quote_free.
  - destruct (rstrip_unlines_output_blocks z' zs') as (_ & x & Ex).
    rewrite <- app_assoc. cbn [app map].
    rewrite findall_zone_block;
      [ | assumption | apply inert_space_cons; [reflexivity | now rewrite Ex] ].
    rewrite findall_from_space_cons by reflexivity.
    rewrite IH by discriminate. reflexivity.
Qed.

(** The entries of the combined output hold no name. *)
Lemma inert_entry (z : ProcessedZone) (rest : str) :
  inert (all_zones_entry z ++ rest) = true.
Proof.
  rewrite entry_text. unfold entry_segs. cbv zeta. cbn [segs_text].
  destruct (sanitize_nonempty (p_name z)) as (c & r & Em & Hc).
  rewrite Em. unfold plain_char in Hc. apply andb_true_iff in Hc as (Hs & Hq).
  apply negb_true_iff in Hs. unfold not_dq in Hq.
  unfold inert. cbn [L list_ascii_of_string app dropwhile].
  change (isspace " "%char) with true. cbv iota.
  rewrite Hs, Hq. reflexivity.
Qed.

Lemma findall_entry (z : ProcessedZone) (rest : str) :
  plain_name (p_name z) = true -> inert rest = true ->
  findall_from 0 (all_zones_entry z ++ rest) = findall_from 0 rest.
Proof.
  intros Hz Hr. rewrite entry_text.
  destruct (entry_segs_ok (p_name z) (p_is_subdomain z) Hz) as (Hall & Hn & Ho).
  rewrite findall_segs_block;
    [now rewrite Hn | assumption | assumption
     | apply entry_tail_quote_free | assumption].
Qed.

Lemma findall_entries (zs : list ProcessedZone) (rest : str) :
  Forall (fun z => plain_name (p_name z) = true) zs ->
  inert rest = true ->
  findall_from 0 (flat_map (fun z => all_zones_entry z ++ [nl]) zs ++ rest)
  = findall_from 0 rest
  /\ inert (flat_map (fun z => all_zones_entry z ++ [nl]) zs ++ rest) = true.
Proof.
  intros Hall Hr. induction Hall as [|z zs Hz Hzs (IH & IHi)]; [now split|].
  cbn [flat_map]. rewrite <- !app_assoc. cbn [app].
  split; [|apply inert_entry].
  rewrite findall_entry by (assumption || now apply inert_space_cons).
  rewrite findall_from_space_cons by reflexivity. exact IH.
Qed.

Lemma unlines_map_snoc {A : Type} (f : A -> str) (x : A) (xs : list A) :
  unlines (map f (x :: xs)) ++ [nl] = flat_map (fun z => f z ++ [nl]) (x :: xs).
Proof.
  revert x. induction xs as [|y xs IH]; intros x.
  - cbn. now rewrite app_nil_r.
  - change (map f (x :: y :: xs)) with (f x :: f y :: map f xs).
    rewrite unlines_cons.
    change (flat_map (fun z => f z ++ [nl]) (x :: y :: xs))
      with ((f x ++ [nl]) ++ flat_map (fun z => f z ++ [nl]) (y :: xs)).
    rewrite <- IH.
    change (f y :: map f xs) with (map f (y :: xs)).
    rewrite <- !app_assoc. reflexivity.
Qed.

(** The names of a document generated whole. *)
Lemma findall_full_zones_outputs (z : ProcessedZone) (zs : list ProcessedZone) :
  Forall (fun z => plain_name (p_name z) = true) (z :: zs) ->
  findall_output (_generate_full_zones_outputs_file (z :: zs))
  = map (fun z => sanitize_module_name (p_name z)) (z :: zs) ++ [ALL_ZONES]
  /\ inert (_generate_full_zones_outputs_file (z :: zs)) = true.
Proof.
  intros Hall.
  unfold _generate_full_zones_outputs_file.
  rewrite unlines_app by discriminate.
  split.
  2:{ rewrite lines_text_output_blocks, <- app_assoc. apply inert_zone_block. }
  unfold findall_output.
  rewrite findall_lines_blocks by (assumption || reflexivity).
  f_equal.
  set (entries := unlines (map all_zones_entry (z :: zs))).
  assert (E : unlines
                [ L "# Combined output of all zones";
                  L "output " ++ quoted ALL_ZONES ++ L " {";
                  L "  description = " ++ quoted (L "Combined information for all zones");
                  L "  value = {"; entries; L "  }"; L "}" ]
              = segs_text combined_segs
                  ((nl :: L "  value = {" ++ [nl])
                   ++ (entries ++ [nl]) ++ L "  }" ++ nl :: L "}")).
  { unfold unlines, combined_segs, quoted. cbn [join segs_text]. norm_text. }
  rewrite E, findall_segs_text by (repeat constructor).
  change (names_segs combined_segs) with [ALL_ZONES]. cbn [app]. f_equal.
  subst entries. rewrite unlines_map_snoc.
  destruct (findall_entries (z :: zs) (L "  }" ++ nl :: L "}") Hall eq_refl) as (Hf & Hi).
  rewrite findall_from_space_cons by reflexivity.
  rewrite findall_quote_free_app by (reflexivity || exact Hi).
  rewrite Hf. reflexivity.
Qed.

(** The text of the root references. *)
Lemma unlines_root_output_lines (z : ProcessedZone) (zs : list ProcessedZone) :
  unlines (root_output_lines (z :: zs)) =
  segs_text (root_block_segs (p_name z)) (root_block_tail (p_name z))
  ++ match zs with
     | [] => []
     | _ :: _ => nl :: unlines (root_output_lines zs)
     end.
Proof.
  rewrite <- root_block_text.
  change (root_output_lines (z :: zs))
    with (([ L "output " ++ quoted (sanitize_module_name (p_name z) ++ L "_details") ++ L " {";
             L "  description = " ++ quoted (L "Details for " ++ p_name z);
             L "  value = module.zones." ++ sanitize_module_name (p_name z);
             L "}" ] ++ [ [] ]) ++ root_output_lines zs).
  destruct zs as [|z' zs].
  - cbn [root_output_lines flat_map]. rewrite !app_nil_r.
    apply unlines_snoc_empty.
  - rewrite unlines_app by discriminate.
    rewrite lines_text_app, <- app_assoc. reflexivity.
Qed.

Lemma findall_root_output_lines (zs : list ProcessedZone) :
  Forall (fun z => plain_name (p_name z) = true) zs ->
  findall_from 0 (unlines (root_output_lines zs))
  = map (fun z => sanitize_module_name (p_name z) ++ L "_details") zs.
Proof.
  intros Hall. induction Hall as [|z zs Hz Hzs IH]; [reflexivity|].
  rewrite unlines_root_output_lines.
  destruct (root_block_segs_ok (p_name z) Hz) as (Hs & Hn & Ho).
  destruct zs as [|z' zs'].
  - rewrite findall_segs_block;
      [now rewrite Hn | assumption | assumption
       | apply root_block_tail_quote_free | reflexivity].
  - rewrite findall_segs_block;
      [ | assumption | assumption | apply root_block_tail_quote_free | ].
    + rewrite Hn, findall_from_space_cons by reflexivity.
      cbn [app map]. now rewrite IH.
    + apply inert_space_cons; [reflexivity|].
      rewrite unlines_root_output_lines. reflexivity.
Qed.

(** *** Stripping the end of a document keeps its names *)

Lemma inert_spaces_app (w rest : str) :
  forallb isspace w = true -> inert rest = true -> inert (w ++ rest) = true.
Proof.
  induction w as [|c w IH]; intros Hw Hr; [exact Hr|].
  simpl in Hw. apply andb_true_iff in Hw as (Hc & Hw).
  cbn [app]. apply inert_space_cons; [assumption | now apply IH].
Qed.

Lemma findall_from_spaces_app (w rest : str) :
  forallb isspace w = true ->
  findall_from 0 (w ++ rest) = findall_from 0 rest.
Proof.
  induction w as [|c w IH]; intros Hw; [reflexivity|].
  simpl in Hw. apply andb_true_iff in Hw as (Hc & Hw).
  cbn [app]. rewrite findall_from_space_cons by assumption. now apply IH.
Qed.

(** A text whose stripped part does not end inside a name, followed by
    inert text. *)
Lemma findall_rstrip_app (s rest : str) :
  unterminated (rstrip s) = false -> inert rest = true ->
  findall_output (s ++ rest) = findall_output (rstrip s) ++ findall_output rest
  /\ findall_output (rstrip s ++ rest)
     = findall_output (rstrip s) ++ findall_output rest.
Proof.
  intros Hs Hr. destruct (rstrip_by_split isspace s) as (w & E & Hw).
  fold (rstrip s) in E. split.
  - rewrite E at 1. rewrite <- app_assoc.
    rewrite findall_output_app by (assumption || now apply inert_spaces_app).
    unfold findall_output. now rewrite findall_from_spaces_app.
  - now apply findall_output_app.
Qed.

Lemma findall_rstrip (s : str) :
  unterminated (rstrip s) = false ->
  findall_output (rstrip s) = findall_output s.
Proof.
  intros Hs. destruct (findall_rstrip_app s [] Hs eq_refl) as (H & _).
  rewrite app_nil_r in H. rewrite H. unfold findall_output at 3.
  cbn [findall_from]. now rewrite app_nil_r.
Qed.

(** ** The names of an updated document *)

Lemma root_update_names (add : list ProcessedZone) (file : option str) :
  add <> [] ->
  Forall (fun z => plain_name (p_name z) = true) add ->
  root_doc_ok file = true ->
  findall_output (new_root_outputs_content add file)
  = findall_output (match file with Some c => c | None => ROOT_PREAMBLE end)
    ++ map (fun z => sanitize_module_name (p_name z) ++ L "_details") add.
Proof.
  intros Hne Hall Hok. unfold new_root_outputs_content.
  set (existing := match file with Some c => c | None => ROOT_PREAMBLE end).
  assert (Hclosed : unterminated (rstrip existing) = false).
  { subst existing. destruct file as [c|]; [|reflexivity].
    simpl in Hok. now apply negb_true_iff in Hok. }
  destruct add as [|z zs]; [contradiction|].
  assert (Hin : inert ([nl; nl] ++ unlines (root_output_lines (z :: zs))) = true).
  { cbn [app]. do 2 (apply inert_space_cons; [reflexivity|]).
    rewrite unlines_root_output_lines. reflexivity. }
  destruct (findall_rstrip_app existing _ Hclosed Hin) as (_ & E).
  rewrite E, findall_rstrip by assumption. f_equal.
  unfold findall_output. cbn [app].
  rewrite !findall_from_space_cons by reflexivity.
  now apply findall_root_output_lines.
Qed.

Lemma startswith_head (p s : str) (c : ascii) (p' : str) :
  p = c :: p' -> startswith p s = true -> exists s', s = c :: s'.
Proof.
  intros -> H. destruct s as [|d s]; [discriminate|].
  simpl in H. apply andb_true_iff in H as (H & _).
  apply Ascii.eqb_eq in H. subst. now exists s.
Qed.

Lemma spliced_entries_map (add : list ProcessedZone) :
  flat_map (fun e => e ++ [nl]) (rev (map all_zones_entry add)) = spliced_entries add.
Proof.
  unfold spliced_entries. rewrite <- map_rev.
  induction (rev add) as [|z zs IH]; [reflexivity|].
  cbn [map flat_map]. now rewrite IH.
Qed.

(** The content written by [update_zones_outputs_file], case by case. *)
Lemma new_zones_outputs_content_cases (add : list ProcessedZone) (existing : str) :
  (existing = []
   /\ new_zones_outputs_content add existing = _generate_full_zones_outputs_file add)
  \/ (existing <> []
      /\ (find (L "output " ++ quoted ALL_ZONES) existing <= 0)%Z
      /\ new_zones_outputs_content add existing
         = rstrip existing ++ [nl; nl] ++ _generate_full_zones_outputs_file add)
  \/ (exists before section,
        existing = before ++ section
        /\ before = firstn (Z.to_nat (find (L "output " ++ quoted ALL_ZONES) existing)) existing
        /\ section = skipn (Z.to_nat (find (L "output " ++ quoted ALL_ZONES) existing)) existing
        /\ (0 < find (L "output " ++ quoted ALL_ZONES) existing)%Z
        /\ startswith (L "output " ++ quoted ALL_ZONES) section = true
        /\ ((rfind (L "  }") section <= 0)%Z
            /\ new_zones_outputs_content add existing
               = rstrip before ++ [nl; nl] ++ rstrip (unlines (output_blocks_of add))
                 ++ [nl; nl] ++ section
            \/ exists inner closing,
                 section = inner ++ closing
                 /\ inner = firstn (Z.to_nat (rfind (L "  }") section)) section
                 /\ closing = skipn (Z.to_nat (rfind (L "  }") section)) section
                 /\ (0 < rfind (L "  }") section)%Z
                 /\ startswith (L "  }") closing = true
                 /\ new_zones_outputs_content add existing
                    = rstrip before ++ [nl; nl]
                      ++ rstrip (unlines (output_blocks_of add)) ++ [nl; nl]
                      ++ inner ++ spliced_entries add ++ closing)).
Proof.
  unfold new_zones_outputs_content.
  destruct existing as [|c e]; [left; now split|]. right.
  set (existing := c :: e).
  set (pos := find (L "output " ++ quoted ALL_ZONES) existing).
  destruct (0 <? pos)%Z eqn:Hpos.
  - right. apply Z.ltb_lt in Hpos.
    exists (firstn (Z.to_nat pos) existing), (skipn (Z.to_nat pos) existing).
    split; [symmetry; apply firstn_skipn|]. split; [reflexivity|].
    split; [reflexivity|].
    split; [exact Hpos|]. split; [now apply find_spec|].
    set (section := skipn (Z.to_nat pos) existing).
    set (ve := rfind (L "  }") section).
    destruct (0 <? ve)%Z eqn:Hve.
    + right. apply Z.ltb_lt in Hve.
      destruct (rfind_spec (L "  }") section Hve) as (Hlen & Hs).
      exists (firstn (Z.to_nat ve) section), (skipn (Z.to_nat ve) section).
      split; [symmetry; apply firstn_skipn|]. split; [reflexivity|].
      split; [reflexivity|].
      split; [exact Hve|]. split; [exact Hs|].
      rewrite splice_entries_spec by exact Hlen.
      rewrite spliced_entries_map, <- !app_assoc. reflexivity.
    + left. apply Z.ltb_ge in Hve. split; [exact Hve|].
      rewrite <- !app_assoc. reflexivity.
  - left. apply Z.ltb_ge in Hpos. split; [discriminate|]. split; [exact Hpos | reflexivity].
Qed.

Lemma inert_stripped_blocks (z : ProcessedZone) (zs : list ProcessedZone) (rest : str) :
  inert (rstrip (unlines (output_blocks_of (z :: zs))) ++ rest) = true.
Proof.
  destruct (rstrip_unlines_output_blocks z zs) as (_ & x & ->). reflexivity.
Qed.

Lemma rev_plain (add : list ProcessedZone) :
  Forall (fun z => plain_name (p_name z) = true) add ->
  Forall (fun z => plain_name (p_name z) = true) (rev add).
Proof. apply Forall_rev. Qed.

(** The names of the group document after an update: those it had, in
    their order, and the names of the added zones put in before the
    combined output (before a new combined output when there was none). *)
Lemma group_update_names (add : list ProcessedZone) (existing : str) :
  add <> [] ->
  Forall (fun z => plain_name (p_name z) = true) add ->
  group_doc_ok (Some existing) = true ->
  exists names1 names2 extra,
    findall_output existing = names1 ++ names2
    /\ findall_output (new_zones_outputs_content add existing)
       = names1 ++ map (fun z => sanitize_module_name (p_name z)) add
         ++ names2 ++ extra
    /\ (extra = [] \/ extra = [ALL_ZONES]).
Proof.
  intros Hne Hall Hok.
  destruct add as [|z zs]; [contradiction|]. clear Hne.
  destruct (new_zones_outputs_content_cases (z :: zs) existing)
    as [(-> & E) | [(Hex & Hpos & E) | (before & section & Hsplit & Hb & Hsec & Hpos & Hstart & Hcases)]].
  - (* an empty document *)
    exists [], [], [ALL_ZONES]. split; [reflexivity|]. split; [|now right].
    rewrite E. now destruct (findall_full_zones_outputs z zs Hall) as (-> & _).
  - (* no combined output behind the start *)
    destruct existing as [|c e]; [contradiction|].
    unfold group_doc_ok in Hok. cbv zeta in Hok.
    apply Z.ltb_ge in Hpos. rewrite Hpos in Hok. apply negb_true_iff in Hok.
    destruct (findall_full_zones_outputs z zs Hall) as (Hfull & Hin).
    exists (findall_output (c :: e)), [], [ALL_ZONES]. split; [now rewrite app_nil_r|].
    split; [|now right].
    rewrite E.
    assert (Hin2 : inert ([nl; nl] ++ _generate_full_zones_outputs_file (z :: zs)) = true)
      by (cbn [app]; now do 2 (apply inert_space_cons; [reflexivity|])).
    destruct (findall_rstrip_app (c :: e) _ Hok Hin2) as (_ & ->).
    rewrite findall_rstrip by assumption. f_equal.
    unfold findall_output in *. cbn [app].
    rewrite !findall_from_space_cons by reflexivity.
    now rewrite Hfull.
  - (* new outputs before the combined output *)
    destruct existing as [|c e].
    { exfalso. vm_compute in Hpos. discriminate. }
    unfold group_doc_ok in Hok. cbv zeta in Hok.
    pose proof Hpos as Hpos'. apply Z.ltb_lt in Hpos'. rewrite Hpos' in Hok.
    rewrite <- Hb, <- Hsec in Hok.
    apply andb_true_iff in Hok as (Hc1 & Hc2). apply negb_true_iff in Hc1.
    destruct (startswith_head _ section "o"%char (L "utput " ++ quoted ALL_ZONES)
                eq_refl Hstart) as (s0 & Es).
    assert (Hin_sec : inert section = true) by (now rewrite Es).
    destruct (findall_rstrip_app before section Hc1 Hin_sec) as (Hexisting & _).
    rewrite <- Hsplit in Hexisting.
    exists (findall_output (rstrip before)), (findall_output section), [].
    split; [exact Hexisting|]. split; [|now left]. rewrite app_nil_r.
    assert (Hnew : forall section',
               inert section' = true ->
               findall_output
                 (rstrip before ++ [nl; nl]
                    ++ rstrip (unlines (output_blocks_of (z :: zs)))
                    ++ [nl; nl] ++ section')
               = findall_output (rstrip before)
                 ++ map (fun z => sanitize_module_name (p_name z)) (z :: zs)
                 ++ findall_output section').
    { intros section' Hin'.
      assert (Hin2 : inert ([nl; nl] ++ rstrip (unlines (output_blocks_of (z :: zs)))
                              ++ [nl; nl] ++ section') = true).
      { cbn [app]. do 2 (apply inert_space_cons; [reflexivity|]).
        apply inert_stripped_blocks. }
      destruct (findall_rstrip_app before _ Hc1 Hin2) as (_ & ->).
      f_equal. unfold findall_output. cbn [app].
      rewrite !findall_from_space_cons by reflexivity.
      rewrite findall_stripped_blocks;
        [ | discriminate | assumption
          | now do 2 (apply inert_space_cons; [reflexivity|]) ].
      now rewrite !findall_from_space_cons by reflexivity. }
    destruct Hcases as [(Hve & E) | (inner & closing & Hsplit2 & Hi & Hcl & Hve & Hstart2 & E)].
    + rewrite E. now apply Hnew.
    + rewrite E.
      apply Z.ltb_lt in Hve. rewrite Hve, <- Hi in Hc2. apply negb_true_iff in Hc2.
      destruct (startswith_head _ closing " "%char (L " }") eq_refl Hstart2)
        as (c0 & Ec).
      assert (Hin_cl : inert closing = true).
      { rewrite Ec in Hstart2 |- *. destruct c0 as [|d c0]; [discriminate|].
        cbn in Hstart2. apply andb_true_iff in Hstart2 as (_ & Hstart2).
        apply andb_true_iff in Hstart2 as (Hd & Hstart2).
        apply Ascii.eqb_eq in Hd. subst d.
        destruct c0 as [|d c0]; [discriminate|].
        apply andb_true_iff in Hstart2 as (Hd & _).
        apply Ascii.eqb_eq in Hd. subst d. reflexivity. }
      destruct (findall_entries (rev (z :: zs)) closing (rev_plain _ Hall) Hin_cl)
        as (Hf & Hin_sp).
      fold (spliced_entries (z :: zs)) in Hf, Hin_sp.
      assert (Hin_new : inert (inner ++ spliced_entries (z :: zs) ++ closing) = true).
      { apply Z.ltb_lt in Hve. rewrite Es in Hi, Hve.
        destruct (Z.to_nat (rfind (L "  }") ("o"%char :: s0))) eqn:En; [lia|].
        rewrite Hi. reflexivity. }
      rewrite (Hnew _ Hin_new). do 2 f_equal.
      rewrite Hsplit2.
      rewrite (findall_output_app inner (spliced_entries (z :: zs) ++ closing))
        by assumption.
      rewrite (findall_output_app inner closing) by assumption.
      unfold findall_output. now rewrite Hf.
Qed.

(** ** Idempotence of the merge *)

Lemma filter_nil {A : Type} (f : A -> bool) (l : list A) :
  (forall x, In x l -> f x = false) -> filter f l = [].
Proof.
  induction l as [|x l IH]; intros H; [reflexivity|].
  simpl. rewrite (H x) by now left. apply IH. intros y Hy. apply H. now right.
Qed.

Lemma zones_to_add_group_In (ps : list ProcessedZone) (existing : list str)
    (z : ProcessedZone) :
  In z (zones_to_add_group ps existing)
  <-> In z ps /\ ~ In (sanitize_module_name (p_name z)) existing.
Proof.
  unfold zones_to_add_group. rewrite filter_In, negb_true_iff.
  split; intros (H1 & H2); (split; [exact H1|]).
  - intros Hin. apply mem_In in Hin. congruence.
  - destruct (mem _ existing) eqn:E; [|reflexivity].
    apply mem_In in E. contradiction.
Qed.

Lemma zones_to_add_root_In (ps : list ProcessedZone) (existing : list str)
    (z : ProcessedZone) :
  In z (zones_to_add_root ps existing)
  <-> In z ps /\ ~ In (sanitize_module_name (p_name z) ++ L "_details") existing.
Proof.
  unfold zones_to_add_root. rewrite filter_In, negb_true_iff.
  split; intros (H1 & H2); (split; [exact H1|]).
  - intros Hin. apply mem_In in Hin. congruence.
  - destruct (mem _ existing) eqn:E; [|reflexivity].
    apply mem_In in E. contradiction.
Qed.

Lemma update_zones_outputs_file_Some (ps : list ProcessedZone) (file : option str)
    (content : str) :
  update_zones_outputs_file ps false file = Some content ->
  zones_to_add_group ps (parse_zones_outputs_file file) <> []
  /\ content = new_zones_outputs_content
                 (zones_to_add_group ps (parse_zones_outputs_file file))
                 (content_of file).
Proof.
  unfold update_zones_outputs_file. destruct ps as [|p ps]; [discriminate|].
  destruct (zones_to_add_group (p :: ps) (parse_zones_outputs_file file)) as [|z zs];
    [discriminate|].
  intros H. injection H as <-. split; [discriminate | reflexivity].
Qed.

Lemma update_root_outputs_file_Some (ps : list ProcessedZone) (file : option str)
    (content : str) :
  update_root_outputs_file ps false file = Some content ->
  zones_to_add_root ps (parse_root_outputs_file file) <> []
  /\ content = new_root_outputs_content
                 (zones_to_add_root ps (parse_root_outputs_file file)) file.
Proof.
  unfold update_root_outputs_file. destruct ps as [|p ps]; [discriminate|].
  destruct (zones_to_add_root (p :: ps) (parse_root_outputs_file file)) as [|z zs];
    [discriminate|].
  intros H. injection H as <-. split; [discriminate | reflexivity].
Qed.

Lemma update_zones_outputs_file_None (ps : list ProcessedZone) (dry_run : bool)
    (file : option str) :
  (forall z, In z ps ->
             In (sanitize_module_name (p_name z)) (parse_zones_outputs_file file)) ->
  update_zones_outputs_file ps dry_run file = None.
Proof.
  intros H. unfold update_zones_outputs_file. destruct ps as [|p ps]; [reflexivity|].
  unfold zones_to_add_group. rewrite filter_nil; [reflexivity|].
  intros z Hz. apply negb_false_iff, mem_In. now apply H.
Qed.

Lemma update_root_outputs_file_None (ps : list ProcessedZone) (dry_run : bool)
    (file : option str) :
  (forall z, In z ps ->
             In (sanitize_module_name (p_name z) ++ L "_details")
                (parse_root_outputs_file file)) ->
  update_root_outputs_file ps dry_run file = None.
Proof.
  intros H. unfold update_root_outputs_file. destruct ps as [|p ps]; [reflexivity|].
  unfold zones_to_add_root. rewrite filter_nil; [reflexivity|].
  intros z Hz. apply negb_false_iff, mem_In. now apply H.
Qed.

Lemma group_doc_ok_content (file : option str) :
  group_doc_ok file = true -> group_doc_ok (Some (content_of file)) = true.
Proof. destruct file; [trivial | reflexivity]. Qed.

Lemma group_second_update (ps : list ProcessedZone) (file : option str) :
  Forall (fun z => plain_name (p_name z) = true) ps ->
  Forall (fun z => sanitize_module_name (p_name z) <> ALL_ZONES) ps ->
  group_doc_ok file = true ->
  update_zones_outputs_file ps false
    (after_update file (update_zones_outputs_file ps false file)) = None.
Proof.
  intros Hplain Hnot Hok.
  destruct (update_zones_outputs_file ps false file) as [content|] eqn:U;
    [|exact U].
  destruct (update_zones_outputs_file_Some _ _ _ U) as (Hne & ->).
  set (add := zones_to_add_group ps (parse_zones_outputs_file file)) in *.
  assert (Hadd : Forall (fun z => plain_name (p_name z) = true) add).
  { apply Forall_forall. intros z Hz. apply zones_to_add_group_In in Hz as (Hz & _).
    rewrite Forall_forall in Hplain. now apply Hplain. }
  destruct (group_update_names add (content_of file) Hne Hadd
              (group_doc_ok_content _ Hok))
    as (n1 & n2 & extra & Hold & Hnew & _).
  cbn [after_update]. apply update_zones_outputs_file_None.
  intros z Hz.
  unfold parse_zones_outputs_file at 1. apply filter_In.
  rewrite Forall_forall in Hnot.
  split; [|apply negb_true_iff, str_eqb_neq; now apply Hnot].
  rewrite Hnew.
  destruct (mem (sanitize_module_name (p_name z)) (parse_zones_outputs_file file))
    eqn:Em.
  - apply mem_In in Em. destruct file as [c|]; [|contradiction].
    unfold parse_zones_outputs_file in Em. apply filter_In in Em as (Em & _).
    cbn [content_of] in Hold. rewrite Hold in Em.
    apply in_app_or in Em as [Em | Em]; apply in_or_app; [now left | right].
    apply in_or_app. right. apply in_or_app. now left.
  - apply in_or_app. right. apply in_or_app. left.
    apply in_map_iff. exists z. split; [reflexivity|].
    apply zones_to_add_group_In. split; [exact Hz|].
    intros Hin. apply mem_In in Hin. congruence.
Qed.

Lemma root_second_update (ps : list ProcessedZone) (file : option str) :
  Forall (fun z => plain_name (p_name z) = true) ps ->
  root_doc_ok file = true ->
  update_root_outputs_file ps false
    (after_update file (update_root_outputs_file ps false file)) = None.
Proof.
  intros Hplain Hok.
  destruct (update_root_outputs_file ps false file) as [content|] eqn:U;
    [|exact U].
  destruct (update_root_outputs_file_Some _ _ _ U) as (Hne & ->).
  set (add := zones_to_add_root ps (parse_root_outputs_file file)) in *.
  assert (Hadd : Forall (fun z => plain_name (p_name z) = true) add).
  { apply Forall_forall. intros z Hz. apply zones_to_add_root_In in Hz as (Hz & _).
    rewrite Forall_forall in Hplain. now apply Hplain. }
  pose proof (root_update_names add file Hne Hadd Hok) as Hnew.
  cbn [after_update]. apply update_root_outputs_file_None.
  intros z Hz.
  unfold parse_root_outputs_file at 1. rewrite Hnew.
  destruct (mem (sanitize_module_name (p_name z) ++ L "_details")
              (parse_root_outputs_file file)) eqn:Em.
  - apply mem_In in Em. destruct file as [c|]; [|contradiction].
    apply in_or_app. now left.
  - apply in_or_app. right.
    apply in_map_iff. exists z. split; [reflexivity|].
    apply zones_to_add_root_In. split; [exact Hz|].
    intros Hin. apply mem_In in Hin. congruence.
Qed.

(** C2, as stated, fails.  A zone named [all.zones] has the sanitized name
    of the combined output, which is never counted as represented, so the
    zone is added again by every run.  A document that ends inside a name
    swallows the name of the first added entry, and a zone name that ends
    with [output] and a blank does the same to the entry behind it; then the
    second run adds again. *)
Lemma aggregate_merge_not_idempotent :
  (let group1 :=
     after_update None (update_zones_outputs_file example_all_zones false None) in
   In (sanitize_module_name (L "all.zones")) (findall_output (content_of group1))
   /\ zones_to_add_group example_all_zones (parse_zones_outputs_file group1)
      = example_all_zones
   /\ update_zones_outputs_file example_all_zones false group1 <> None
   /\ after_update group1 (update_zones_outputs_file example_all_zones false group1)
      <> group1)
  /\ (let root1 :=
        after_update (Some example_open_doc)
          (update_root_outputs_file [example_processed "Z1" "example.com" true]
             false (Some example_open_doc)) in
      after_update root1
        (update_root_outputs_file [example_processed "Z1" "example.com" true]
           false root1)
      <> root1)
  /\ (let group1 :=
        after_update None (update_zones_outputs_file example_odd_names false None) in
      after_update group1 (update_zones_outputs_file example_odd_names false group1)
      <> group1)
  /\ (let root1 :=
        after_update None (update_root_outputs_file example_odd_names false None) in
      after_update root1 (update_root_outputs_file example_odd_names false root1)
      <> root1).
Proof.
  cbv zeta. repeat split.
  - vm_compute. right. now left.
  - vm_compute. discriminate.
  - vm_compute. intros H. injection H as H. discriminate.
  - vm_compute. intros H. injection H as H. discriminate.
  - vm_compute. intros H. injection H as H. discriminate.
  - vm_compute. intros H. injection H as H. discriminate.
Qed.

(** C2, amended: with zone names free of white space and double quotes,
    no sanitized name equal to [all_zones], and documents that do not end
    inside a name where the update cuts them, a second update with the same
    processed zones writes nothing, for the group document and for the root
    document.  The zones added are the processed zones whose output name is
    not among the names of the document (the combined output apart), and
    when there is none the document is not written. *)
Theorem aggregate_merge_idempotent (ps : list ProcessedZone)
    (group_file root_file : option str) :
  Forall (fun z => plain_name (p_name z) = true) ps ->
  Forall (fun z => sanitize_module_name (p_name z) <> ALL_ZONES) ps ->
  group_doc_ok group_file = true ->
  root_doc_ok root_file = true ->
  let group1 :=
    after_update group_file (update_zones_outputs_file ps false group_file) in
  let root1 :=
    after_update root_file (update_root_outputs_file ps false root_file) in
  update_zones_outputs_file ps false group1 = None
  /\ after_update group1 (update_zones_outputs_file ps false group1) = group1
  /\ update_root_outputs_file ps false root1 = None
  /\ after_update root1 (update_root_outputs_file ps false root1) = root1
  /\ (forall file z,
        In z (zones_to_add_group ps (parse_zones_outputs_file file))
        <-> In z ps
            /\ ~ In (sanitize_module_name (p_name z)) (parse_zones_outputs_file file))
  /\ (forall file z,
        In z (zones_to_add_root ps (parse_root_outputs_file file))
        <-> In z ps
            /\ ~ In (sanitize_module_name (p_name z) ++ L "_details")
                    (parse_root_outputs_file file))
  /\ (forall file dry_run,
        zones_to_add_group ps (parse_zones_outputs_file file) = [] ->
        update_zones_outputs_file ps dry_run file = None)
  /\ (forall file dry_run,
        zones_to_add_root ps (parse_root_outputs_file file) = [] ->
        update_root_outputs_file ps dry_run file = None).
Proof.
  intros Hplain Hnot Hg Hr. cbv zeta.
  pose proof (group_second_update ps group_file Hplain Hnot Hg) as G.
  pose proof (root_second_update ps root_file Hplain Hr) as R.
  split; [exact G|]. split; [now rewrite G|].
  split; [exact R|]. split; [now rewrite R|].
  split; [intros; apply zones_to_add_group_In|].
  split; [intros; apply zones_to_add_root_In|].
  split.
  - intros file dry_run H. unfold update_zones_outputs_file.
    destruct ps; [reflexivity | now rewrite H].
  - intros file dry_run H. unfold update_root_outputs_file.
    destruct ps; [reflexivity | now rewrite H].
Qed.

Lemma aggregate_merge_idempotent_witness :
  let group1 :=
    after_update (Some example_group_doc)
      (update_zones_outputs_file example_two_zones false (Some example_group_doc)) in
  let root1 :=
    after_update None (update_root_outputs_file example_two_zones false None) in
  update_zones_outputs_file example_two_zones false group1 = None
  /\ after_update group1 (update_zones_outputs_file example_two_zones false group1)
     = group1
  /\ update_root_outputs_file example_two_zones false root1 = None
  /\ after_update root1 (update_root_outputs_file example_two_zones false root1)
     = root1.
Proof.
  destruct (aggregate_merge_idempotent example_two_zones (Some example_group_doc) None)
    as (H1 & H2 & H3 & H4 & _).
  - repeat constructor.
  - repeat constructor; vm_compute; discriminate.
  - vm_compute. reflexivity.
  - reflexivity.
  - cbv zeta. repeat split; assumption.
Defined.

(** ** Where the merge departs from its comments *)

(** C3: the group update does not do what the claim and the comments of
    the code say.  The closing of the value block of the combined output is
    searched as the last closing in all the rest of the document: with an
    output [extra] behind the combined output, the entry of the new zone
    [example.com] goes into [extra], behind [k = 1], so the text of [extra]
    is no longer in the document, and the combined output gets no entry.
    And a document that starts with the combined output is taken to have
    none: the new output and a second combined output are appended. *)
Theorem aggregate_merge_modifies_later_entry :
  (exists content,
     update_zones_outputs_file [example_processed "Z1" "example.com" true] false
       (Some example_group_doc) = Some content
     /\ content
        = unlines
            [ L "# Zones";
              [];
              L "# Output example.com details";
              L "output " ++ quoted (L "example_com") ++ L " {";
              L "  description = " ++ quoted (L "Details for example.com");
              L "  value = {";
              L "    zone_id      = module.example_com.route53_zone_zone_id["
                ++ quoted (L "example.com") ++ L "]";
              L "    name_servers = module.example_com.route53_zone_name_servers["
                ++ quoted (L "example.com") ++ L "]";
              L "    records      = module.example_com_records.route53_record_name";
              L "  }";
              L "}";
              [];
              L "output " ++ quoted ALL_ZONES ++ L " {";
              L "  value = {";
              L "  }";
              L "}";
              [];
              L "output " ++ quoted (L "extra") ++ L " {";
              L "  value = {";
              L "    k = 1";
              L "    example_com = {";
              L "      zone_id      = module.example_com.route53_zone_zone_id["
                ++ quoted (L "example.com") ++ L "]";
              L "      name_servers = module.example_com.route53_zone_name_servers["
                ++ quoted (L "example.com") ++ L "]";
              L "      records      = module.example_com_records.route53_record_name";
              L "    }";
              L "  }";
              L "}";
              [] ]
     /\ (0 <= find example_extra_entry example_group_doc)%Z
     /\ find example_extra_entry content = (-1)%Z)
  /\ (exists content,
        update_zones_outputs_file [example_processed "Z1" "example.com" true] false
          (Some example_leading_doc) = Some content
        /\ content
           = example_leading_doc ++ [nl; nl]
               ++ _generate_full_zones_outputs_file
                    [example_processed "Z1" "example.com" true]
        /\ findall_output example_leading_doc = [ALL_ZONES]
        /\ findall_output content = [ALL_ZONES; L "example_com"; ALL_ZONES]).
Proof.
  split.
  - eexists. split; [vm_compute; reflexivity|].
    split; [vm_compute; reflexivity|].
    split; vm_compute; [discriminate | reflexivity].
  - eexists. split; [vm_compute; reflexivity|].
    repeat split; vm_compute; reflexivity.
Qed.

(** * Further properties of the generator *)

(** ** Names below a zone *)

Lemma below_neq (domain parent : str) : below domain parent -> domain <> parent.
Proof.
  intros (prefix & E) H. subst parent.
  apply (f_equal (@length ascii)) in E. rewrite !length_app in E. simpl in E. lia.
Qed.

Lemma is_subdomain_test (domain name : str) :
  negb (str_eqb domain name) && endswith (L "." ++ name) domain = true
  <-> below domain name.
Proof.
  rewrite andb_true_iff, negb_true_iff, str_eqb_neq, endswith_iff.
  split; [intros (_ & H); exact H|].
  intros H. split; [now apply below_neq | exact H].
Qed.

(** X1: [is_subdomain] returns the name of the first listed zone that the
    domain lies below (the domain is some text, a dot and that name), in the
    order of the listing and not by closeness, and [None] exactly when the
    domain lies below no listed zone.  So for [a.dev.example.com] with
    [example.com] listed before [dev.example.com] the parent found is
    [example.com]. *)
Theorem is_subdomain_first_listed (domain : str) (zones : list Zone) :
  match is_subdomain domain zones with
  | Some parent =>
      exists before zone after,
        zones = before ++ zone :: after
        /\ z_name zone = parent
        /\ below domain parent
        /\ domain <> parent
        /\ (forall z, In z before -> ~ below domain (z_name z))
  | None => forall z, In z zones -> ~ below domain (z_name z)
  end
  /\ is_subdomain (L "a.dev.example.com")
       [ example_zone "Z1" "example.com"; example_zone "Z2" "dev.example.com" ]
     = Some (L "example.com").
Proof.
  split; [|vm_compute; reflexivity].
  induction zones as [|zone rest IH]; [intros z []|].
  cbn [is_subdomain].
  destruct (negb (str_eqb domain (z_name zone))
            && endswith (L "." ++ z_name zone) domain) eqn:E.
  - apply is_subdomain_test in E.
    exists [], zone, rest. repeat split; try assumption.
    + now apply below_neq.
    + intros z [].
  - assert (Hn : ~ below domain (z_name zone)).
    { intros H. apply is_subdomain_test in H. congruence. }
    destruct (is_subdomain domain rest) as [parent|].
    + destruct IH as (before & z0 & after & -> & Hname & Hb & Hneq & Hfirst).
      exists (zone :: before), z0, after. repeat split; try assumption.
      intros z [<- | Hz]; [exact Hn | now apply Hfirst].
    + intros z [<- | Hz]; [exact Hn | now apply IH].
Qed.

(** ** [sanitize_module_name] on names that are identifiers already *)

Lemma fold_separator_replace (domain : str) :
  replace (L "-") (L "_") (replace (L ".") (L "_") domain)
  = map fold_separator domain.
Proof.
  change (L "-") with ["-"%char]. change (L "_") with [us].
  change (L ".") with ["."%char].
  rewrite !replace_char, map_map. apply map_ext. intros c.
  unfold fold_separator. rewrite (Ascii.eqb_sym c "."), (Ascii.eqb_sym c "-").
  destruct (Ascii.eqb "." c) eqn:E1; [reflexivity|].
  destruct (Ascii.eqb "-" c); reflexivity.
Qed.

Lemma valid_char_fold (c : ascii) :
  isalnum c || Ascii.eqb c us = true -> fold_separator c = c.
Proof.
  intros H. unfold fold_separator.
  destruct (Ascii.eqb c ".") eqn:E1.
  { apply Ascii.eqb_eq in E1. subst. discriminate. }
  destruct (Ascii.eqb c "-") eqn:E2; [|reflexivity].
  apply Ascii.eqb_eq in E2. subst. discriminate.
Qed.

Lemma valid_char_sanitize (c : ascii) :
  isalnum c || Ascii.eqb c us = true -> sanitize_char c = c.
Proof. intros H. unfold sanitize_char. now rewrite H. Qed.

Lemma map_id_in {A : Type} (f : A -> A) (l : list A) :
  (forall x, In x l -> f x = x) -> map f l = l.
Proof.
  intros H. rewrite <- (map_id l) at 2. now apply map_ext_in.
Qed.

Lemma sanitize_identifier (name : str) :
  is_identifier name = true -> sanitize_module_name name = name.
Proof.
  intros H. unfold is_identifier in H.
  destruct name as [|c rest]; [discriminate|].
  apply andb_true_iff in H as (Hhead & Hall).
  rewrite forallb_forall in Hall.
  unfold sanitize_module_name. rewrite fold_separator_replace.
  rewrite (map_id_in fold_separator) by (intros x Hx; now apply valid_char_fold, Hall).
  rewrite Hhead.
  apply map_id_in. intros x Hx. now apply valid_char_sanitize, Hall.
Qed.

Lemma sanitize_is_identifier (domain : str) :
  is_identifier (sanitize_module_name domain) = true.
Proof.
  destruct (sanitize_module_name_head domain) as (c & rest & E & Hc).
  pose proof (sanitize_module_name_chars domain) as Hall.
  rewrite E in *. unfold is_identifier.
  apply andb_true_iff. split.
  - destruct Hc as [-> | ->]; [reflexivity | apply orb_true_r].
  - apply forallb_forall. intros x Hx. rewrite Forall_forall in Hall.
    destruct (Hall x Hx) as [-> | ->]; [reflexivity | apply orb_true_r].
Qed.

(** X2: a name that starts with a letter or an underscore and holds only
    letters, digits and underscores is returned unchanged by
    [sanitize_module_name]; every result is such a name, so sanitising a
    second time changes nothing. *)
Theorem sanitize_module_name_idempotent (domain : str) :
  (is_identifier domain = true -> sanitize_module_name domain = domain)
  /\ is_identifier (sanitize_module_name domain) = true
  /\ sanitize_module_name (sanitize_module_name domain)
     = sanitize_module_name domain.
Proof.
  split; [apply sanitize_identifier|].
  split; [apply sanitize_is_identifier|].
  apply sanitize_identifier, sanitize_is_identifier.
Qed.

Lemma sanitize_module_name_idempotent_witness :
  is_identifier (L "example_com") = true
  /\ sanitize_module_name (L "example_com") = L "example_com".
Proof.
  split; [reflexivity|].
  exact (proj1 (sanitize_module_name_idempotent (L "example_com")) eq_refl).
Defined.

(** ** Names that differ in their separators *)


(** ** Trailing dots *)

Lemma dropwhile_head (f : ascii -> bool) (s : str) (c : ascii) (r : str) :
  dropwhile f s = c :: r -> f c = false.
Proof.
  induction s as [|x s IH]; simpl; [discriminate|].
  destruct (f x) eqn:E; [exact IH|].
  intros H. injection H as -> _. exact E.
Qed.

Lemma rstrip_by_last (f : ascii -> bool) (s t : str) (c : ascii) :
  rstrip_by f s = t ++ [c] -> f c = false.
Proof.
  unfold rstrip_by. intros H.
  apply (f_equal (@rev ascii)) in H. rewrite rev_involutive, rev_app_distr in H.
  simpl in H. now apply dropwhile_head in H.
Qed.

Lemma rstrip_dot_no_dot (s : str) : endswith (L ".") (rstrip_dot s) = false.
Proof.
  destruct (endswith (L ".") (rstrip_dot s)) eqn:E; [|reflexivity].
  apply endswith_iff in E as (t & E).
  apply rstrip_by_last in E. discriminate.
Qed.

(** ** [get_zone_records] *)

Lemma page_records_In (zone_name : str) (page : list RecordSet) (record : RecordData) :
  In record (page_records zone_name page) ->
  exists rs, In rs page /\ record = record_data_of rs
             /\ is_ns_or_soa (rs_Type rs)
                && str_eqb (rstrip_dot (rs_Name rs)) zone_name = false.
Proof.
  induction page as [|rs rest IH]; simpl; [intros []|].
  destruct (is_ns_or_soa (rs_Type rs)
            && str_eqb (rstrip_dot (rs_Name rs)) zone_name) eqn:E.
  - intros H. destruct (IH H) as (rs' & Hin & Hrest). exists rs'. now split; [right|].
  - intros [<- | H].
    + exists rs. repeat split; [now left | exact E].
    + destruct (IH H) as (rs' & Hin & Hrest). exists rs'. now split; [right|].
Qed.

Lemma get_zone_records_from_In (zone_name : str) (pages : Pages)
    (records : list RecordData) (record : RecordData) :
  In record (fst (get_zone_records_from zone_name pages records)) ->
  In record records
  \/ exists rs, record = record_data_of rs
                /\ is_ns_or_soa (rs_Type rs)
                   && str_eqb (rstrip_dot (rs_Name rs)) zone_name = false.
Proof.
  revert records. induction pages as [|page rest IH|e]; intros records; simpl.
  - now left.
  - intros H. destruct (IH _ H) as [Hin | Hrs]; [|now right].
    apply in_app_or in Hin as [Hin | Hin]; [now left | right].
    destruct (page_records_In _ _ _ Hin) as (rs & _ & Hrs). now exists rs.
  - now left.
Qed.

(** X3: whatever the listing delivers and wherever it ends or fails, every
    record [get_zone_records] returns has a name without a trailing dot, is
    not an NS or SOA record of the zone apex, and, when it is an alias
    record, has no TTL and an alias name without a trailing dot. *)
Theorem get_zone_records_invariants (zone_name : str) (pages : Pages)
    (record : RecordData) :
  In record (fst (get_zone_records zone_name pages)) ->
  endswith (L ".") (r_name record) = false
  /\ is_ns_or_soa (r_type record) && str_eqb (r_name record) zone_name = false
  /\ match r_alias record with
     | Some alias =>
         r_ttl record = None /\ endswith (L ".") (alias_name alias) = false
     | None => True
     end.
Proof.
  intros H. apply get_zone_records_from_In in H as [[] | (rs & -> & Hrs)].
  split; [apply rstrip_dot_no_dot|]. split; [exact Hrs|].
  unfold record_data_of. cbn [r_alias r_ttl].
  destruct (rs_AliasTarget rs) as [a|]; [|exact I].
  split; [reflexivity | apply rstrip_dot_no_dot].
Qed.

Lemma get_zone_records_invariants_witness :
  In (example_record "api.example.com." "A" "192.0.2.2")
     (fst (get_zone_records (L "example.com") (example_fetch (L "Z1"))))
  /\ endswith (L ".") (r_name (example_record "api.example.com." "A" "192.0.2.2"))
     = false.
Proof.
  assert (H : In (example_record "api.example.com." "A" "192.0.2.2")
                 (fst (get_zone_records (L "example.com") (example_fetch (L "Z1"))))).
  { vm_compute. right. left. reflexivity. }
  split; [exact H|].
  exact (proj1 (get_zone_records_invariants _ _ _ H)).
Defined.

(** ** [list_hosted_zones] *)

Lemma list_hosted_zones_from_pages_then (ps : list (list HostedZone))
    (tail : ZonePages) (zones : list Zone) :
  list_hosted_zones_from (zone_pages_then ps tail) zones
  = list_hosted_zones_from tail (zones ++ map hosted_zone_entry (concat ps)).
Proof.
  revert zones. induction ps as [|page ps IH]; intros zones; simpl.
  - now rewrite app_nil_r.
  - now rewrite IH, map_app, app_assoc.
Qed.

Lemma replace_from_skip (old new pre s : str) :
  replace_from old new (length pre) (pre ++ s) = replace_from old new 0 s.
Proof. induction pre as [|c pre IH]; [reflexivity | exact IH]. Qed.

Lemma startswith_cons_In (c : ascii) (old s : str) :
  startswith (c :: old) s = true -> In c s.
Proof.
  intros H. apply startswith_iff in H as (t & ->). now left.
Qed.

Lemma replace_from_absent (c : ascii) (old new s : str) :
  ~ In c s -> replace_from (c :: old) new 0 s = s.
Proof.
  induction s as [|x s IH]; intros H; [reflexivity|].
  cbn [replace_from].
  destruct (startswith (c :: old) (x :: s)) eqn:E.
  - apply startswith_iff in E as (t & E). injection E as -> _.
    exfalso. apply H. now left.
  - f_equal. apply IH. intros Hin. apply H. now right.
Qed.

Lemma hosted_zone_id (id : str) :
  ~ In "/"%char id -> replace (L "/hostedzone/") [] (L "/hostedzone/" ++ id) = id.
Proof.
  intros H. unfold replace.
  assert (E : replace_from (L "/hostedzone/") [] 0 (L "/hostedzone/" ++ id)
              = replace_from (L "/hostedzone/") [] (length (L "hostedzone/"))
                  (L "hostedzone/" ++ id)).
  { pose proof (startswith_app (L "/hostedzone/") id) as Hs.
    change (L "/hostedzone/" ++ id) with ("/"%char :: L "hostedzone/" ++ id) in *.
    cbn [replace_from]. rewrite Hs. reflexivity. }
  rewrite E, replace_from_skip.
  now apply (replace_from_absent "/"%char (L "hostedzone/")).
Qed.

(** X4: [list_hosted_zones] returns one zone for every hosted zone of every
    page, in the order delivered, each name without a trailing dot and each
    identifier without its [/hostedzone/] prefix; when a call of the listing
    fails it exits with status 1 and returns none of the pages delivered
    before. *)
Theorem list_hosted_zones_all_or_nothing (ps : list (list HostedZone)) :
  list_hosted_zones (zone_pages_then ps ZonePagesEnd)
  = (Returns (map hosted_zone_entry (concat ps)), [])
  /\ (forall e,
        list_hosted_zones (zone_pages_then ps (ZonePagesError e))
        = (SysExit 1, [L "Error listing hosted zones: " ++ e]))
  /\ (forall zone, In zone (map hosted_zone_entry (concat ps)) ->
                   endswith (L ".") (z_name zone) = false)
  /\ (forall hosted id,
        hz_Id hosted = L "/hostedzone/" ++ id -> ~ In "/"%char id ->
        z_id (hosted_zone_entry hosted) = id).
Proof.
  unfold list_hosted_zones. repeat split.
  - now rewrite list_hosted_zones_from_pages_then.
  - intros e. now rewrite list_hosted_zones_from_pages_then.
  - intros zone H. apply in_map_iff in H as (hosted & <- & _).
    apply rstrip_dot_no_dot.
  - intros hosted id E H. cbn [hosted_zone_entry z_id]. rewrite E.
    now apply hosted_zone_id.
Qed.

Lemma list_hosted_zones_all_or_nothing_witness :
  z_id (hosted_zone_entry (example_hosted_zone "/hostedzone/Z1" "example.com."))
  = L "Z1".
Proof.
  apply (list_hosted_zones_all_or_nothing []).
  - reflexivity.
  - vm_compute. intros [H | [H | []]]; discriminate.
Defined.

(** ** Documents written from nothing *)

Lemma zones_to_add_group_nil (ps : list ProcessedZone) :
  zones_to_add_group ps [] = ps.
Proof.
  unfold zones_to_add_group. induction ps as [|z ps IH]; [reflexivity|].
  cbn [filter]. change (mem (sanitize_module_name (p_name z)) []) with false.
  cbn [negb]. f_equal. exact IH.
Qed.

Lemma zones_to_add_root_nil (ps : list ProcessedZone) :
  zones_to_add_root ps [] = ps.
Proof.
  unfold zones_to_add_root. induction ps as [|z ps IH]; [reflexivity|].
  cbn [filter].
  change (mem (sanitize_module_name (p_name z) ++ L "_details") []) with false.
  cbn [negb]. f_equal. exact IH.
Qed.

Lemma update_zones_outputs_file_fresh (ps : list ProcessedZone) (file : option str) :
  ps <> [] -> content_of file = [] ->
  update_zones_outputs_file ps false file
  = Some (_generate_full_zones_outputs_file ps).
Proof.
  intros Hne He. destruct ps as [|p ps]; [contradiction|].
  unfold update_zones_outputs_file.
  assert (Hparse : parse_zones_outputs_file file = []).
  { destruct file as [c|]; [|reflexivity]. simpl in He. now subst c. }
  rewrite Hparse, zones_to_add_group_nil.
  destruct file as [c|]; simpl in He; [subst c|]; reflexivity.
Qed.

Lemma filter_id {A : Type} (f : A -> bool) (l : list A) :
  Forall (fun x => f x = true) l -> filter f l = l.
Proof.
  induction 1 as [|x l Hx Hl IH]; [reflexivity|].
  simpl. now rewrite Hx, IH.
Qed.

Lemma filter_snoc_false {A : Type} (f : A -> bool) (l : list A) (x : A) :
  f x = false -> filter f (l ++ [x]) = filter f l.
Proof.
  intros H. rewrite filter_app. simpl. rewrite H. apply app_nil_r.
Qed.

(** X5: for a group document that is absent or empty,
    [update_zones_outputs_file] writes the document generated whole from
    all processed zones; with zone names free of white space and double
    quotes, reading that document back finds the sanitized names of the
    processed zones, in their order, followed by the combined output, and
    [parse_zones_outputs_file] returns these names without those equal to
    [all_zones]. *)
Theorem fresh_group_document_round_trip (ps : list ProcessedZone)
    (file : option str) :
  ps <> [] ->
  content_of file = [] ->
  Forall (fun z => plain_name (p_name z) = true) ps ->
  update_zones_outputs_file ps false file
  = Some (_generate_full_zones_outputs_file ps)
  /\ findall_output (_generate_full_zones_outputs_file ps)
     = map (fun z => sanitize_module_name (p_name z)) ps ++ [ALL_ZONES]
  /\ parse_zones_outputs_file (Some (_generate_full_zones_outputs_file ps))
     = filter (fun m => negb (str_eqb m ALL_ZONES))
         (map (fun z => sanitize_module_name (p_name z)) ps)
  /\ (Forall (fun z => sanitize_module_name (p_name z) <> ALL_ZONES) ps ->
      parse_zones_outputs_file (Some (_generate_full_zones_outputs_file ps))
      = map (fun z => sanitize_module_name (p_name z)) ps).
Proof.
  intros Hne He Hplain.
  split; [now apply update_zones_outputs_file_fresh|].
  destruct ps as [|z zs]; [contradiction|].
  destruct (findall_full_zones_outputs z zs Hplain) as (Hf & _).
  split; [exact Hf|].
  assert (Hparse : parse_zones_outputs_file
                     (Some (_generate_full_zones_outputs_file (z :: zs)))
                   = filter (fun m => negb (str_eqb m ALL_ZONES))
                       (map (fun z => sanitize_module_name (p_name z)) (z :: zs))).
  { unfold parse_zones_outputs_file. rewrite Hf.
    now rewrite filter_snoc_false by reflexivity. }
  split; [exact Hparse|].
  intros Hnot. rewrite Hparse. apply filter_id.
  apply Forall_map. eapply Forall_impl; [|exact Hnot].
  intros a Ha. apply negb_true_iff. now apply str_eqb_neq.
Qed.

Lemma fresh_group_document_round_trip_witness :
  parse_zones_outputs_file
    (update_zones_outputs_file example_two_zones false None)
  = [L "example_com"; L "example_org"].
Proof.
  destruct (fresh_group_document_round_trip example_two_zones None)
    as (E & _ & _ & H).
  - discriminate.
  - reflexivity.
  - repeat constructor.
  - rewrite E, H; [reflexivity|].
    repeat constructor; vm_compute; discriminate.
Defined.

Lemma update_root_outputs_file_fresh (ps : list ProcessedZone) :
  ps <> [] ->
  update_root_outputs_file ps false None
  = Some (new_root_outputs_content ps None).
Proof.
  intros Hne. destruct ps as [|p ps]; [contradiction|].
  unfold update_root_outputs_file.
  change (parse_root_outputs_file None) with (@nil str).
  now rewrite zones_to_add_root_nil.
Qed.

(** X6: for an absent root document, [update_root_outputs_file] writes the
    reference to the combined output (named [zones]) and, after an empty
    line, one reference per processed zone; with zone names free of white
    space and double quotes, reading it back finds [zones] and then, in
    their order, the sanitized name of every processed zone followed by
    [_details]. *)
Theorem fresh_root_document_round_trip (ps : list ProcessedZone) :
  ps <> [] ->
  Forall (fun z => plain_name (p_name z) = true) ps ->
  update_root_outputs_file ps false None
  = Some (rstrip ROOT_PREAMBLE ++ [nl; nl] ++ unlines (root_output_lines ps))
  /\ parse_root_outputs_file (update_root_outputs_file ps false None)
     = L "zones"
       :: map (fun z => sanitize_module_name (p_name z) ++ L "_details") ps.
Proof.
  intros Hne Hplain.
  rewrite update_root_outputs_file_fresh by assumption.
  split; [reflexivity|].
  unfold parse_root_outputs_file.
  rewrite (root_update_names ps None Hne Hplain eq_refl).
  reflexivity.
Qed.

Lemma fresh_root_document_round_trip_witness :
  parse_root_outputs_file (update_root_outputs_file example_two_zones false None)
  = [L "zones"; L "example_com_details"; L "example_org_details"].
Proof.
  apply (fresh_root_document_round_trip example_two_zones).
  - discriminate.
  - repeat constructor.
Defined.

(** ** Zones whose names differ in their separators only *)



(** ** [process_zone], case by case *)

Lemma read_file_written (dir : list (str * str)) (filename content : str) :
  read_file ((filename, content) :: dir) filename = Some content.
Proof. unfold read_file. simpl. now rewrite str_eqb_refl. Qed.

Lemma read_file_other (dir : list (str * str)) (filename other content : str) :
  other <> filename ->
  read_file ((other, content) :: dir) filename = read_file dir filename.
Proof.
  intros H. unfold read_file. simpl.
  apply str_eqb_neq in H. now rewrite H.
Qed.

Lemma check_file_exists_read (st : Run) (domain : str) :
  check_file_exists st domain = true
  <-> read_file (zone_files st) (get_terraform_filename domain) <> None.
Proof.
  unfold check_file_exists, read_file.
  induction (zone_files st) as [|f dir IH]; simpl.
  - split; [discriminate | intros H; now contradiction H].
  - destruct (str_eqb (fst f) (get_terraform_filename domain)); simpl.
    + split; [discriminate | reflexivity].
    + exact IH.
Qed.

(** What [process_zone] returns and leaves: whether the zone is processed,
    the files and the processed zones. *)
Lemma process_zone_spec (fetch : str -> Pages) (dry_run force : bool) (st : Run)
    (zone : Zone) (all_zones : list Zone) :
  let result := process_zone fetch dry_run force st zone all_zones in
  fst result = is_processed force st zone
  /\ zone_files (snd result)
     = (if is_processed force st zone && negb dry_run
        then (get_terraform_filename (z_name zone),
              zone_file_content fetch zone all_zones) :: zone_files st
        else zone_files st)
  /\ processed_zones (snd result)
     = (if is_processed force st zone
        then processed_zones st ++ [processed_entry fetch zone all_zones]
        else processed_zones st).
Proof.
  cbv zeta. unfold process_zone, is_processed, processed_entry, zone_file_content,
    records_of.
  destruct (check_file_exists st (z_name zone) && negb force) eqn:E.
  - repeat split.
  - cbn [negb andb].
    assert (Hs : forall b : bool,
               zone_files (if b then say st [L "Overwriting existing file for "
                                               ++ z_name zone] else st)
               = zone_files st
               /\ processed_zones (if b then say st [L "Overwriting existing file for "
                                                       ++ z_name zone] else st)
                  = processed_zones st).
    { intros []; split; reflexivity. }
    destruct (Hs (check_file_exists st (z_name zone) && force)) as (Hz & Hp).
    set (st1 := if check_file_exists st (z_name zone) && force then _ else st) in *.
    destruct (z_private zone).
    + repeat split; assumption.
    + cbn [negb].
      destruct (get_zone_records (z_name zone) (fetch (z_id zone)))
        as [records errors].
      cbn [fst snd zone_files processed_zones].
      destruct (truthy (is_subdomain (z_name zone) all_zones));
        destruct dry_run; cbn; rewrite ?Hz, ?Hp; repeat split; reflexivity.
Qed.

(** ** The modules the outputs refer to *)

Lemma is_subdomain_not_empty (domain : str) (zones : list Zone) :
  endswith (L ".") domain = false -> is_subdomain domain zones <> Some [].
Proof.
  intros Hd. induction zones as [|zone rest IH]; simpl; [discriminate|].
  destruct (negb (str_eqb domain (z_name zone))
            && endswith ("."%char :: z_name zone) domain) eqn:E; [|exact IH].
  intros H. injection H as H. rewrite H in E.
  apply andb_true_iff in E as (_ & E).
  change (endswith (L ".") domain = true) in E. congruence.
Qed.

(** X8: for a zone that [process_zone] processes and whose name has no
    trailing dot (as the names [list_hosted_zones] returns), the entry kept
    for the outputs agrees with the zone file generated: the module that
    the outputs of the zone refer to for the zone ([<name>] or
    [<name>_subdomain_zone]) is declared in the file, and when the entry
    says the zone has records, so is the module the outputs refer to for
    the records; outside a dry run this file is what is on disk. *)
Theorem outputs_refer_to_declared_modules (fetch : str -> Pages)
    (dry_run force : bool) (st : Run) (zone : Zone) (all_zones : list Zone) :
  fst (process_zone fetch dry_run force st zone all_zones) = true ->
  endswith (L ".") (z_name zone) = false ->
  let st' := snd (process_zone fetch dry_run force st zone all_zones) in
  let zone_info := processed_entry fetch zone all_zones in
  let module_name := sanitize_module_name (z_name zone) in
  let lines :=
    terraform_content_lines zone
      (records_of fetch (z_id zone) (z_name zone))
      (is_subdomain (z_name zone) all_zones) in
  processed_zones st' = processed_zones st ++ [zone_info]
  /\ (dry_run = false ->
      read_file (zone_files st') (get_terraform_filename (z_name zone))
      = Some (unlines lines))
  /\ In (L "module "
           ++ quoted (zone_module_of module_name (p_is_subdomain zone_info))
           ++ L " {") lines
  /\ (p_has_records zone_info = true ->
      In (L "module "
            ++ quoted (records_module_of module_name (p_is_subdomain zone_info))
            ++ L " {") lines)
  /\ In (L "    zone_id      = module."
           ++ zone_module_of module_name (p_is_subdomain zone_info)
           ++ L ".route53_zone_zone_id[" ++ quoted (z_name zone) ++ L "]")
        (generate_zone_output_block (p_name zone_info) module_name
           (p_is_subdomain zone_info) (p_has_records zone_info))
  /\ (p_has_records zone_info = true ->
      In (L "    records      = module."
            ++ records_module_of module_name (p_is_subdomain zone_info)
            ++ L ".route53_record_name")
         (generate_zone_output_block (p_name zone_info) module_name
            (p_is_subdomain zone_info) (p_has_records zone_info))).
Proof.
  intros Hok Hdot. cbv zeta.
  destruct (process_zone_spec fetch dry_run force st zone all_zones)
    as (Hfst & Hfiles & Hproc).
  rewrite Hfst in Hok. rewrite Hok in Hfiles, Hproc.
  split; [exact Hproc|].
  split.
  { intros ->. rewrite Hfiles. cbn [andb negb]. apply read_file_written. }
  pose proof (is_subdomain_not_empty (z_name zone) all_zones Hdot) as Hne.
  unfold terraform_content_lines, processed_entry.
  cbn [p_is_subdomain p_has_records p_name].
  set (m := sanitize_module_name (z_name zone)).
  assert (Hsub : truthy (is_subdomain (z_name zone) all_zones)
                 = match is_subdomain (z_name zone) all_zones with
                   | Some _ => true
                   | None => false
                   end).
  { destruct (is_subdomain (z_name zone) all_zones) as [[|c p]|];
      [contradiction | reflexivity | reflexivity]. }
  rewrite Hsub.
  set (sub := match is_subdomain (z_name zone) all_zones with
              | Some _ => true
              | None => false
              end).
  split; [|split; [|split]].
  - apply in_or_app. right. apply in_or_app. right. apply in_or_app. left.
    unfold zone_lines. right. left.
    destruct sub; cbn [zone_module_of]; [reflexivity | now rewrite app_nil_r].
  - intros Hrec.
    destruct (records_of fetch (z_id zone) (z_name zone)) as [|r rs];
      [discriminate|].
    apply in_or_app. right. apply in_or_app. right. apply in_or_app. right.
    apply in_or_app. left.
    unfold records_module_lines. right. left.
    destruct sub; reflexivity.
  - unfold generate_zone_output_block. cbn [In]. do 4 right. left. reflexivity.
  - intros ->. unfold generate_zone_output_block. cbn [In]. do 6 right. left.
    reflexivity.
Qed.

Lemma outputs_refer_to_declared_modules_witness :
  In (L "module " ++ quoted (L "dev_example_com_subdomain_zone") ++ L " {")
     (terraform_content_lines (example_zone "Z2" "dev.example.com")
        (records_of example_fetch (L "Z2") (L "dev.example.com"))
        (is_subdomain (L "dev.example.com")
           [example_zone "Z1" "example.com"; example_zone "Z2" "dev.example.com"])).
Proof.
  apply (outputs_refer_to_declared_modules example_fetch false false
           {| zone_files := []; processed_zones := []; printed := [] |}
           (example_zone "Z2" "dev.example.com")
           [example_zone "Z1" "example.com"; example_zone "Z2" "dev.example.com"]).
  - reflexivity.
  - reflexivity.
Defined.

(** ** The printed commands and the import blocks *)

Lemma rstrip_by_unchanged (f : ascii -> bool) (s : str) :
  (forall t c, s = t ++ [c] -> f c = false) -> rstrip_by f s = s.
Proof.
  intros H. destruct (rstrip_by_split f s) as (w & E & Hw).
  destruct w as [|c w' _] using rev_ind.
  - rewrite app_nil_r in E. now symmetry.
  - rewrite forallb_app in Hw. apply andb_true_iff in Hw as (_ & Hc).
    simpl in Hc. rewrite andb_true_r in Hc.
    rewrite app_assoc in E. apply H in E. congruence.
Qed.

Lemma rstrip_dot_unchanged (s : str) :
  endswith (L ".") s = false -> rstrip_dot s = s.
Proof.
  intros H. apply rstrip_by_unchanged. intros t c E.
  destruct (Ascii.eqb "." c) eqn:Ec; [|reflexivity].
  apply Ascii.eqb_eq in Ec. subst c s.
  assert (endswith (L ".") (t ++ ["."%char]) = true) by (apply endswith_iff; now exists t).
  congruence.
Qed.

Lemma endswith_In (suf s : str) (c : ascii) :
  In c suf -> endswith suf s = true -> In c s.
Proof.
  intros Hc H. apply endswith_iff in H as (t & ->). apply in_or_app. now right.
Qed.

Lemma not_endswith (suf s : str) (c : ascii) :
  In c suf -> ~ In c s -> endswith suf s = false.
Proof.
  intros Hc Hs. destruct (endswith suf s) eqn:E; [|reflexivity].
  exfalso. apply Hs. now apply (endswith_In suf).
Qed.

(** The relative name of a name below the zone that holds no backslash and
    no [@]: what stands before the dot and the zone name. *)
Lemma relative_name_below (zone_name prefix : str) :
  prefix <> [] -> ~ In bs prefix -> ~ In "@"%char prefix ->
  relative_name_spec zone_name (prefix ++ L "." ++ zone_name) = prefix.
Proof.
  intros Hne Hbs Hat. unfold relative_name_spec.
  assert (E1 : str_eqb (prefix ++ L "." ++ zone_name) zone_name = false).
  { apply str_eqb_neq, below_neq. now exists prefix. }
  assert (E2 : endswith (L "." ++ zone_name) (prefix ++ L "." ++ zone_name) = true).
  { apply endswith_iff. now exists prefix. }
  rewrite E1, E2, firstn_length_app by reflexivity. cbv zeta.
  assert (E3 : replace (L "\100") (L "@") prefix = prefix).
  { apply (replace_from_absent bs (L "100")). exact Hbs. }
  rewrite E3.
  assert (E4 : str_eqb prefix (L "@") = false).
  { apply str_eqb_neq. intros ->. apply Hat. now left. }
  rewrite E4.
  rewrite (not_endswith (L ".@") prefix "@"%char) by (assumption || (right; now left)).
  rewrite (not_endswith (L ".\100") prefix bs) by (assumption || (right; now left)).
  reflexivity.
Qed.

Lemma relative_name_apex (zone_name : str) :
  relative_name_spec zone_name zone_name = [].
Proof. unfold relative_name_spec. now rewrite str_eqb_refl. Qed.

(** X9: the commands that [generate_import_commands] prints bind the same
    addresses as the blocks that [generate_import_blocks] writes; their
    identifiers are the same for a record at the apex or below the zone
    whose name holds no backslash, no [@] and no trailing dot.  For the
    escaped apex label they differ: the command names the zone, the block
    keeps the escaped label. *)
Theorem import_commands_agree_with_blocks (zone_info : ProcessedZone)
    (record : RecordData) :
  zone_import_command zone_info
  = L "   terraform import '" ++ to_addr_zone zone_info ++ L "' " ++ p_id zone_info
  /\ zone_import_block zone_info
     = [ L "# Import hosted zone"; L "import {";
         L "  to = " ++ to_addr_zone zone_info;
         L "  id = " ++ quoted (p_id zone_info); L "}"; [] ]
  /\ record_import_command zone_info record
     = L "   terraform import '" ++ to_addr_rec zone_info record ++ L "' "
         ++ command_identifier zone_info record
  /\ record_import_block zone_info record
     = [ L "# Import record: " ++ terraform_key (p_name zone_info) record;
         L "import {";
         L "  to = " ++ to_addr_rec zone_info record;
         L "  id = " ++ quoted (import_identifier (p_id zone_info) record);
         L "}"; [] ]
  /\ (~ In bs (r_name record) -> ~ In "@"%char (r_name record) ->
      endswith (L ".") (r_name record) = false ->
      r_name record = p_name zone_info
      \/ (exists prefix, prefix <> []
                         /\ r_name record = prefix ++ L "." ++ p_name zone_info) ->
      command_identifier zone_info record
      = import_identifier (p_id zone_info) record)
  /\ command_identifier (example_processed "Z1" "example.com" true)
       (example_record "\100.example.com." "TXT" "v=spf1 -all")
     = L "Z1_example.com_TXT"
  /\ import_identifier (L "Z1")
       (example_record "\100.example.com." "TXT" "v=spf1 -all")
     = L "Z1_\\100.example.com_TXT".
Proof.
  split.
  { unfold zone_import_command, to_addr_zone. now rewrite <- !app_assoc. }
  split; [reflexivity|].
  split.
  { unfold record_import_command, command_identifier, to_addr_rec, terraform_key.
    cbv zeta. now rewrite <- !app_assoc. }
  split; [reflexivity|].
  split; [|split; vm_compute; reflexivity].
  intros Hbs Hat Hdot Hin.
  unfold command_identifier, import_identifier. cbv zeta.
  rewrite (rstrip_dot_unchanged _ Hdot).
  assert (E : replace [bs] [bs; bs] (r_name record) = r_name record).
  { apply (replace_from_absent bs []). exact Hbs. }
  rewrite E, commands_record_name_spec.
  do 2 f_equal.
  destruct Hin as [-> | (prefix & Hne & Hname)].
  - now rewrite relative_name_apex.
  - rewrite Hname in *.
    assert (Hbs' : ~ In bs prefix) by (intros H; apply Hbs, in_or_app; now left).
    assert (Hat' : ~ In "@"%char prefix) by (intros H; apply Hat, in_or_app; now left).
    rewrite relative_name_below by assumption.
    destruct prefix; [contradiction | now rewrite <- !app_assoc].
Qed.

Lemma import_commands_agree_with_blocks_witness :
  command_identifier (example_processed "Z1" "example.com" true)
    (example_record "api.example.com." "A" "192.0.2.2")
  = import_identifier (L "Z1") (example_record "api.example.com." "A" "192.0.2.2").
Proof.
  apply (import_commands_agree_with_blocks
           (example_processed "Z1" "example.com" true)
           (example_record "api.example.com." "A" "192.0.2.2")).
  - vm_compute. intuition discriminate.
  - vm_compute. intuition discriminate.
  - reflexivity.
  - right. exists (L "api"). split; [discriminate | reflexivity].
Defined.

(** ** The loop over the zones *)

Lemma process_zone_step (fetch : str -> Pages) (dry_run force : bool) (st : Run)
    (zone : Zone) (all_zones : list Zone) (ok : bool) (st' : Run) :
  process_zone fetch dry_run force st zone all_zones = (ok, st') ->
  ok = is_processed force st zone
  /\ zone_files st'
     = (if ok && negb dry_run
        then (get_terraform_filename (z_name zone),
              zone_file_content fetch zone all_zones) :: zone_files st
        else zone_files st)
  /\ processed_zones st'
     = (if ok then processed_zones st ++ [processed_entry fetch zone all_zones]
        else processed_zones st).
Proof.
  intros E.
  pose proof (process_zone_spec fetch dry_run force st zone all_zones) as S.
  cbv zeta in S. rewrite E in S. cbn [fst snd] in S.
  destruct S as (-> & S2 & S3). now repeat split.
Qed.

Lemma is_processed_files (force : bool) (st1 st2 : Run) (zone : Zone) :
  zone_files st1 = zone_files st2 ->
  is_processed force st1 zone = is_processed force st2 zone.
Proof.
  intros H. unfold is_processed, check_file_exists. now rewrite H.
Qed.

(** In a dry run the loop writes no file. *)
Lemma process_all_dry_run (fetch : str -> Pages) (force : bool)
    (todo all_zones : list Zone) (st : Run) (p s : nat) (st' : Run) (p' s' : nat) :
  process_all fetch true force st todo all_zones p s = (st', p', s') ->
  zone_files st' = zone_files st.
Proof.
  revert st p s. induction todo as [|zone rest IH]; intros st p s H; simpl in H.
  - now injection H as <- _ _.
  - destruct (process_zone fetch true force st zone all_zones) as [ok st1] eqn:Ez.
    apply process_zone_step in Ez as (_ & Hf & _).
    rewrite andb_false_r in Hf.
    destruct ok; apply IH in H; congruence.
Qed.

(** The counter [processed] never goes down, and when it stays the loop
    has written no file and kept no zone. *)
Lemma process_all_none_processed (fetch : str -> Pages) (dry_run force : bool)
    (todo all_zones : list Zone) (st : Run) (p s : nat) (st' : Run) (p' s' : nat) :
  process_all fetch dry_run force st todo all_zones p s = (st', p', s') ->
  p <= p'
  /\ (p' = p -> zone_files st' = zone_files st
                /\ processed_zones st' = processed_zones st).
Proof.
  revert st p s. induction todo as [|zone rest IH]; intros st p s H; simpl in H.
  - injection H as <- <- _. now repeat split.
  - destruct (process_zone fetch dry_run force st zone all_zones) as [ok st1] eqn:Ez.
    apply process_zone_step in Ez as (_ & Hf & Hp).
    destruct ok; apply IH in H as (Hle & Heq).
    + split; [lia|]. intros ->. lia.
    + split; [exact Hle|]. intros Hpp. destruct (Heq Hpp) as (H1 & H2).
      cbn [andb] in Hf. split; congruence.
Qed.

(** Without [--force] the loop keeps every file it finds. *)
Lemma process_all_keeps_files (fetch : str -> Pages) (dry_run : bool)
    (todo all_zones : list Zone) (st : Run) (p s : nat) (st' : Run) (p' s' : nat)
    (filename content : str) :
  process_all fetch dry_run false st todo all_zones p s = (st', p', s') ->
  read_file (zone_files st) filename = Some content ->
  read_file (zone_files st') filename = Some content.
Proof.
  revert st p s. induction todo as [|zone rest IH]; intros st p s H Hr; simpl in H.
  - now injection H as <- _ _.
  - destruct (process_zone fetch dry_run false st zone all_zones) as [ok st1] eqn:Ez.
    apply process_zone_step in Ez as (Hok & Hf & _).
    assert (Hr1 : read_file (zone_files st1) filename = Some content).
    { rewrite Hf. destruct (ok && negb dry_run) eqn:Ew; [|exact Hr].
      apply andb_true_iff in Ew as (-> & _).
      symmetry in Hok. unfold is_processed in Hok.
      apply andb_true_iff in Hok as (Hok & _).
      rewrite andb_true_r in Hok. apply negb_true_iff in Hok.
      rewrite read_file_other; [exact Hr|].
      intros <-.
      assert (check_file_exists st (z_name zone) = true); [|congruence].
      apply check_file_exists_read. now rewrite Hr. }
    destruct ok; now apply IH in H.
Qed.

Lemma check_file_exists_step (fetch : str -> Pages) (dry_run force : bool)
    (st : Run) (zone : Zone) (all_zones : list Zone) (ok : bool) (st' : Run)
    (domain : str) :
  process_zone fetch dry_run force st zone all_zones = (ok, st') ->
  check_file_exists st domain = true -> check_file_exists st' domain = true.
Proof.
  intros Ez H. apply process_zone_step in Ez as (_ & Hf & _).
  unfold check_file_exists in *. rewrite Hf.
  destruct (ok && negb dry_run); [|exact H].
  simpl. rewrite H. apply orb_true_r.
Qed.

Lemma process_all_exists_stays (fetch : str -> Pages) (dry_run force : bool)
    (todo all_zones : list Zone) (st : Run) (p s : nat) (st' : Run) (p' s' : nat)
    (domain : str) :
  process_all fetch dry_run force st todo all_zones p s = (st', p', s') ->
  check_file_exists st domain = true -> check_file_exists st' domain = true.
Proof.
  revert st p s. induction todo as [|zone rest IH]; intros st p s H Hc; simpl in H.
  - now injection H as <- _ _.
  - destruct (process_zone fetch dry_run force st zone all_zones) as [ok st1] eqn:Ez.
    pose proof (check_file_exists_step _ _ _ _ _ _ _ _ domain Ez Hc) as Hc1.
    destruct ok; now apply IH in H.
Qed.

(** After the loop of a run that writes, every public zone of the loop has
    its file. *)
Lemma process_all_files_exist (fetch : str -> Pages) (force : bool)
    (todo all_zones : list Zone) (st : Run) (p s : nat) (st' : Run) (p' s' : nat)
    (zone : Zone) :
  process_all fetch false force st todo all_zones p s = (st', p', s') ->
  In zone todo ->
  z_private zone = true \/ check_file_exists st' (z_name zone) = true.
Proof.
  revert st p s. induction todo as [|z rest IH]; intros st p s H Hin; simpl in H.
  - contradiction.
  - destruct (process_zone fetch false force st z all_zones) as [ok st1] eqn:Ez.
    assert (Hrest : process_all fetch false force st1 rest all_zones
                      (if ok then S p else p) (if ok then s else S s)
                    = (st', p', s')) by (destruct ok; exact H).
    destruct Hin as [-> | Hin]; [|now apply (IH _ _ _ Hrest)].
    destruct (z_private zone) eqn:Hpriv; [now left | right].
    apply (process_all_exists_stays _ _ _ _ _ _ _ _ _ _ _ _ Hrest).
    pose proof Ez as Ez'.
    apply process_zone_step in Ez as (Hok & Hf & _).
    unfold check_file_exists. rewrite Hf.
    destruct ok.
    + simpl. unfold get_terraform_filename. now rewrite str_eqb_refl.
    + symmetry in Hok. unfold is_processed in Hok.
      rewrite Hpriv, andb_true_r in Hok. apply negb_false_iff in Hok.
      apply andb_true_iff in Hok as (Hok & _). exact Hok.
Qed.

(** A loop over zones that are all skipped. *)
Lemma process_all_all_skipped (fetch : str -> Pages) (dry_run force : bool)
    (todo all_zones : list Zone) (st : Run) (p s : nat) (st' : Run) (p' s' : nat) :
  process_all fetch dry_run force st todo all_zones p s = (st', p', s') ->
  (forall zone, In zone todo -> is_processed force st zone = false) ->
  p' = p /\ s' = s + length todo.
Proof.
  revert st p s. induction todo as [|zone rest IH]; intros st p s H Hall; simpl in H.
  - injection H as _ <- <-. simpl. lia.
  - destruct (process_zone fetch dry_run force st zone all_zones) as [ok st1] eqn:Ez.
    apply process_zone_step in Ez as (Hok & Hf & _).
    rewrite (Hall zone) in Hok by now left. subst ok. cbn [andb] in Hf.
    apply IH in H.
    + simpl. lia.
    + intros z Hz. rewrite (is_processed_files force st1 st) by exact Hf.
      apply Hall. now right.
Qed.

(** The zones the loop keeps: one entry for each zone counted, each the
    entry of a public zone of the loop. *)
Lemma process_all_entries (fetch : str -> Pages) (dry_run force : bool)
    (todo all_zones : list Zone) (st : Run) (p s : nat) (st' : Run) (p' s' : nat) :
  process_all fetch dry_run force st todo all_zones p s = (st', p', s') ->
  exists kept,
    processed_zones st' = processed_zones st ++ map (fun z => processed_entry fetch z all_zones) kept
    /\ p' = p + length kept
    /\ p' + s' = p + s + length todo
    /\ forall zone, In zone kept -> In zone todo /\ z_private zone = false.
Proof.
  revert st p s. induction todo as [|zone rest IH]; intros st p s H; simpl in H.
  - injection H as <- <- <-. exists []. simpl. rewrite app_nil_r.
    repeat split; try lia; contradiction.
  - destruct (process_zone fetch dry_run force st zone all_zones) as [ok st1] eqn:Ez.
    apply process_zone_step in Ez as (Hok & _ & Hp).
    destruct ok; apply IH in H as (kept & Hk & Hn & Hsum & Hin).
    + exists (zone :: kept). rewrite Hk, Hp, <- app_assoc. simpl.
      repeat split; try lia.
      * destruct H as [<- | H]; [now left | right; now apply Hin].
      * destruct H as [<- | H]; [|now apply Hin].
        symmetry in Hok. unfold is_processed in Hok.
        apply andb_true_iff in Hok as (_ & Hok). now apply negb_true_iff in Hok.
    + exists kept. rewrite Hk, Hp. simpl.
      repeat split; try lia; try (right; now apply Hin); now apply Hin.
Qed.

(** ** [run] *)

Lemma list_hosted_zones_from_exit (pages : ZonePages) (zones : list Zone) (code : Z) :
  fst (list_hosted_zones_from pages zones) = SysExit code -> code = 1%Z.
Proof.
  revert zones. induction pages as [|page rest IH|e]; intros zones; simpl.
  - discriminate.
  - apply IH.
  - intros H. now injection H as <-.
Qed.

(** The zones [run] goes through: the first zone of the name asked for, or
    all of them. *)
Lemma run_zones_loop (fetch : str -> Pages) (dry_run force : bool)
    (domain : option str) (zones : list Zone) (st : Run) (result : Run * nat * nat) :
  run_zones fetch dry_run force domain zones st = Some result ->
  exists todo,
    result = process_all fetch dry_run force st todo zones 0 0
    /\ (forall zone, In zone todo -> In zone zones)
    /\ (if truthy domain
        then exists zone, todo = [zone]
                          /\ zone_named (match domain with Some d => d | None => [] end)
                               zones = Some zone
        else todo = zones).
Proof.
  unfold run_zones. destruct (truthy domain).
  - destruct (zone_named _ zones) as [zone|] eqn:Ez; [|discriminate].
    intros H. exists [zone]. split; [|split].
    + cbn [process_all].
      destruct (process_zone fetch dry_run force st zone zones) as [ok st'].
      destruct ok; now injection H as <-.
    + intros z [<- | []]. unfold zone_named in Ez.
      now apply find_some in Ez as (Hin & _).
    + now exists zone.
  - intros H. injection H as <-. exists zones. now repeat split.
Qed.

(** The five ways through [run]. *)
Lemma run_cases (fetch : str -> Pages) (zone_pages : ZonePages)
    (dry_run force import_blocks_flag : bool) (domain : option str)
    (all_domains : bool) (w : World) :
  let r := run fetch zone_pages dry_run force import_blocks_flag domain all_domains w in
  let st0 := {| zone_files := zones_dir w; processed_zones := []; printed := [] |} in
  let untouched (how : Outcome unit) :=
    r = {| status := how; world := w; run_processed_zones := [];
           processed := 0; skipped := 0 |} in
  (truthy domain = false /\ all_domains = false /\ untouched (SysExit 1))
  \/ ((truthy domain = true \/ all_domains = true)
      /\ ((fst (list_hosted_zones zone_pages) = SysExit 1 /\ untouched (SysExit 1))
          \/ (fst (list_hosted_zones zone_pages) = Returns [] /\ untouched (Returns tt))
          \/ exists zones,
               fst (list_hosted_zones zone_pages) = Returns zones
               /\ zones <> []
               /\ ((run_zones fetch dry_run force domain zones st0 = None
                    /\ untouched (SysExit 1))
                   \/ exists st p s,
                        run_zones fetch dry_run force domain zones st0 = Some (st, p, s)
                        /\ r = {| status := Returns tt;
                                  world := run_outputs fetch dry_run force
                                             import_blocks_flag w st p;
                                  run_processed_zones := processed_zones st;
                                  processed := p;
                                  skipped := s |}))).
Proof.
  cbv zeta. unfold run.
  destruct (truthy domain) eqn:Ed; destruct all_domains eqn:Ea; cbn [negb andb];
    try (left; now repeat split); right;
    (split; [tauto|]);
    (destruct (fst (list_hosted_zones zone_pages)) as [[|z zs]|code] eqn:El;
     [ right; left; now split
     | right; right; exists (z :: zs); split; [reflexivity|]; split; [discriminate|];
       destruct (run_zones fetch dry_run force domain (z :: zs) _)
         as [[[st p] s]|] eqn:Er;
       [ right; exists st, p, s; now split | left; now split ]
     | left; apply list_hosted_zones_from_exit in El as Hc; subst code; now split ]).
Qed.

Lemma zone_named_None (domain : str) (zones : list Zone) :
  zone_named domain zones = None <-> forall z, In z zones -> z_name z <> domain.
Proof.
  unfold zone_named. split.
  - intros H z Hz E. apply (find_none _ _ H) in Hz. apply str_eqb_neq in Hz.
    contradiction.
  - intros H. destruct (List.find _ zones) as [z|] eqn:E; [|reflexivity].
    apply find_some in E as (Hin & E). apply str_eqb_eq in E.
    now apply H in Hin.
Qed.

Lemma update_zones_outputs_file_dry_run (ps : list ProcessedZone) (file : option str) :
  update_zones_outputs_file ps true file = None.
Proof.
  unfold update_zones_outputs_file. destruct ps; [reflexivity|].
  now destruct (zones_to_add_group _ _).
Qed.

Lemma update_root_outputs_file_dry_run (ps : list ProcessedZone) (file : option str) :
  update_root_outputs_file ps true file = None.
Proof.
  unfold update_root_outputs_file. destruct ps; [reflexivity|].
  now destruct (zones_to_add_root _ _).
Qed.

(** X10: a dry run leaves every file as it was: the zone files, the two
    outputs documents and [imports.tf], whatever the account holds and
    whatever the other options are. *)
Theorem run_dry_run_writes_nothing (fetch : str -> Pages) (zone_pages : ZonePages)
    (force import_blocks_flag : bool) (domain : option str) (all_domains : bool)
    (w : World) :
  world (run fetch zone_pages true force import_blocks_flag domain all_domains w) = w.
Proof.
  destruct (run_cases fetch zone_pages true force import_blocks_flag domain
              all_domains w)
    as [(_ & _ & ->) | (_ & [(_ & ->) | [(_ & ->) | (zones & _ & _ & [(_ & ->) | (st & p & s & Hz & ->)])]])];
    try reflexivity.
  cbn [world]. apply run_zones_loop in Hz as (todo & Hl & _).
  symmetry in Hl. apply process_all_dry_run in Hl. cbn [zone_files] in Hl.
  unfold run_outputs.
  rewrite update_zones_outputs_file_dry_run, update_root_outputs_file_dry_run.
  cbn [write_back after_update negb]. rewrite andb_false_r, Hl.
  destruct w, (0 <? p); reflexivity.
Qed.

(** X11: [run] ends by [sys.exit(1)] in exactly three cases: neither a
    domain nor all domains are asked for; the listing of the hosted zones
    fails; the domain asked for is not among the zones of a non-empty
    listing.  In each of them no file has been touched and nothing is
    counted.  It never exits with another status, and an empty listing ends
    the run normally, also when a domain is asked for. *)
Theorem run_exit_status (fetch : str -> Pages) (zone_pages : ZonePages)
    (dry_run force import_blocks_flag : bool) (domain : option str)
    (all_domains : bool) (w : World) :
  let r := run fetch zone_pages dry_run force import_blocks_flag domain all_domains w in
  (status r = Returns tt \/ status r = SysExit 1)
  /\ (status r = SysExit 1
      <-> (truthy domain = false /\ all_domains = false)
          \/ ((truthy domain = true \/ all_domains = true)
              /\ fst (list_hosted_zones zone_pages) = SysExit 1)
          \/ (exists d zones,
                domain = Some d /\ d <> []
                /\ fst (list_hosted_zones zone_pages) = Returns zones
                /\ zones <> []
                /\ forall z, In z zones -> z_name z <> d))
  /\ (status r = SysExit 1 ->
      world r = w /\ run_processed_zones r = []
      /\ processed r = 0 /\ skipped r = 0).
Proof.
  cbv zeta.
  destruct (run_cases fetch zone_pages dry_run force import_blocks_flag domain
              all_domains w)
    as [(Hd & Ha & ->) | (Hmode & [(Hl & ->) | [(Hl & ->) | (zones & Hl & Hne & [(Hz & ->) | (st & p & s & Hz & ->)])]])];
    cbn [status world run_processed_zones processed skipped].
  - split; [now right|]. split; [|now repeat split].
    split; [intros _; left; now split | reflexivity].
  - split; [now right|]. split; [|now repeat split].
    split; [intros _; right; left; now split | reflexivity].
  - split; [now left|]. split; [|discriminate].
    split; [discriminate|].
    intros [(Hd & Ha) | [(_ & H) | (d & zs & _ & _ & H & Hzs & _)]].
    + destruct Hmode; congruence.
    + congruence.
    + rewrite Hl in H. injection H as <-. contradiction.
  - split; [now right|]. split; [|now repeat split].
    split; [intros _ | reflexivity].
    right. right. unfold run_zones in Hz.
    destruct domain as [[|c d]|]; cbn [truthy] in Hz; try discriminate.
    destruct (zone_named (c :: d) zones) eqn:En.
    + destruct (process_zone _ _ _ _ _ _) as [[] ?]; discriminate.
    + exists (c :: d), zones. repeat split; try assumption; try discriminate.
      now apply zone_named_None.
  - split; [now left|]. split; [|discriminate].
    split; [discriminate|].
    intros [(Hd & Ha) | [(_ & H) | (d & zs & -> & Hd & H & Hzs & Hno)]].
    + destruct Hmode; congruence.
    + congruence.
    + rewrite Hl in H. injection H as <-.
      apply zone_named_None in Hno. unfold run_zones in Hz.
      destruct d; [contradiction|]. cbn [truthy] in Hz. now rewrite Hno in Hz.
Qed.

Lemma run_exit_status_witness :
  world (run example_fetch example_zone_pages false false false
           (Some (L "example.net")) false example_world) = example_world.
Proof.
  apply (run_exit_status example_fetch example_zone_pages false false false
           (Some (L "example.net")) false example_world).
  vm_compute. reflexivity.
Defined.

Lemma zone_named_Some (domain : str) (zones : list Zone) (zone : Zone) :
  zone_named domain zones = Some zone -> In zone zones /\ z_name zone = domain.
Proof.
  unfold zone_named. intros H. apply find_some in H as (Hin & E).
  now apply str_eqb_eq in E.
Qed.

Lemma truthy_Some (domain : option str) :
  truthy domain = true ->
  domain = Some (match domain with Some d => d | None => [] end).
Proof. destruct domain as [[|c d]|]; (discriminate || reflexivity). Qed.

Lemma run_selection (fetch : str -> Pages) (dry_run force : bool)
    (domain : option str) (zones : list Zone) (st st' : Run) (p s : nat) :
  run_zones fetch dry_run force domain zones st = Some (st', p, s) ->
  p + s = (if truthy domain then 1 else length zones)
  /\ exists kept,
       processed_zones st'
       = processed_zones st ++ map (fun z => processed_entry fetch z zones) kept
       /\ length kept = p
       /\ forall zone, In zone kept ->
            In zone zones /\ z_private zone = false
            /\ (truthy domain = true -> domain = Some (z_name zone)).
Proof.
  intros H. apply run_zones_loop in H as (todo & Hl & Hsub & Hmode).
  symmetry in Hl. apply process_all_entries in Hl as (kept & Hk & Hp & Hsum & Hin).
  split.
  - destruct (truthy domain); [destruct Hmode as (zone & -> & _) | subst todo];
      simpl in Hsum; lia.
  - exists kept. split; [exact Hk|]. split; [lia|].
    intros zone Hz. destruct (Hin zone Hz) as (Ht & Hpub).
    split; [now apply Hsub|]. split; [exact Hpub|].
    intros Htr. rewrite Htr in Hmode. destruct Hmode as (z0 & -> & Hn).
    destruct Ht as [<- | []].
    apply zone_named_Some in Hn as (_ & ->). now apply truthy_Some.
Qed.

(** X12: a run that ends normally on a non-empty listing goes through one
    zone when a domain is asked for (also when all domains are asked for
    as well) and through every listed zone otherwise: the two counters add
    up to that number.  The zones it keeps for the outputs are as many as
    it counts as processed, each the entry of a listed public zone, and of
    the zone asked for when a domain is given. *)
Theorem run_processes_listed_public_zones (fetch : str -> Pages)
    (zone_pages : ZonePages) (dry_run force import_blocks_flag : bool)
    (domain : option str) (all_domains : bool) (w : World) (zones : list Zone) :
  let r := run fetch zone_pages dry_run force import_blocks_flag domain all_domains w in
  fst (list_hosted_zones zone_pages) = Returns zones ->
  zones <> [] ->
  status r = Returns tt ->
  processed r + skipped r = (if truthy domain then 1 else length zones)
  /\ exists kept,
       run_processed_zones r = map (fun z => processed_entry fetch z zones) kept
       /\ length kept = processed r
       /\ forall zone, In zone kept ->
            In zone zones /\ z_private zone = false
            /\ (truthy domain = true -> domain = Some (z_name zone)).
Proof.
  cbv zeta. intros Hl Hne.
  destruct (run_cases fetch zone_pages dry_run force import_blocks_flag domain
              all_domains w)
    as [(_ & _ & ->) | (_ & [(_ & ->) | [(Hl' & _) | (zones' & Hl' & _ & [(_ & ->) | (st & p & s & Hz & ->)])]])];
    cbn [status run_processed_zones processed skipped]; try discriminate.
  - rewrite Hl in Hl'. injection Hl' as ->. contradiction.
  - intros _. rewrite Hl in Hl'. injection Hl' as <-.
    now apply run_selection in Hz.
Qed.

Lemma run_processes_listed_public_zones_witness :
  processed (run example_fetch example_zone_pages false false false None true
               example_world)
  + skipped (run example_fetch example_zone_pages false false false None true
               example_world)
  = 2.
Proof.
  apply (run_processes_listed_public_zones example_fetch example_zone_pages
           false false false None true example_world
           [ hosted_zone_entry (example_hosted_zone "/hostedzone/Z1" "example.com.");
             hosted_zone_entry (example_hosted_zone "/hostedzone/Z2" "dev.example.com.") ]).
  - reflexivity.
  - discriminate.
  - vm_compute. reflexivity.
Defined.

(** ** Files that are kept *)

Lemma read_file_write_back (dir : list (str * str)) (filename other : str)
    (written : option str) :
  filename <> other ->
  read_file (write_back dir other written) filename = read_file dir filename.
Proof.
  intros H. destruct written as [c|]; [|reflexivity].
  apply read_file_other. congruence.
Qed.

Lemma run_outputs_zone_file (fetch : str -> Pages)
    (dry_run force import_blocks_flag : bool) (w : World) (st : Run) (p : nat)
    (filename : str) :
  filename <> OUTPUTS_TF ->
  read_file (zones_dir (run_outputs fetch dry_run force import_blocks_flag w st p))
    filename
  = read_file (zone_files st) filename.
Proof.
  intros H. unfold run_outputs. cbn [zones_dir].
  destruct (0 <? p); [now apply read_file_write_back | reflexivity].
Qed.

(** X13: without [--force] a run changes no zone file that exists: every
    file of the zones directory other than the group document [outputs.tf]
    has after the run the content it had before. *)
Theorem run_keeps_zone_files_without_force (fetch : str -> Pages)
    (zone_pages : ZonePages) (dry_run import_blocks_flag : bool)
    (domain : option str) (all_domains : bool) (w : World)
    (filename content : str) :
  read_file (zones_dir w) filename = Some content ->
  filename <> OUTPUTS_TF ->
  read_file
    (zones_dir
       (world (run fetch zone_pages dry_run false import_blocks_flag domain
                 all_domains w)))
    filename
  = Some content.
Proof.
  intros Hr Hn.
  destruct (run_cases fetch zone_pages dry_run false import_blocks_flag domain
              all_domains w)
    as [(_ & _ & ->) | (_ & [(_ & ->) | [(_ & ->) | (zones & _ & _ & [(_ & ->) | (st & p & s & Hz & ->)])]])];
    cbn [world]; try exact Hr.
  rewrite run_outputs_zone_file by assumption.
  apply run_zones_loop in Hz as (todo & Hl & _). symmetry in Hl.
  now apply (process_all_keeps_files _ _ _ _ _ _ _ _ _ _ _ _ Hl).
Qed.

Lemma run_keeps_zone_files_without_force_witness :
  read_file
    (zones_dir
       (world (run example_fetch example_zone_pages false false false None true
                 {| zones_dir := [(L "example.com.tf", L "# kept by hand")];
                    root_outputs_tf := None; imports_tf := None |})))
    (L "example.com.tf")
  = Some (L "# kept by hand").
Proof.
  apply (run_keeps_zone_files_without_force example_fetch example_zone_pages
           false false None true).
  - reflexivity.
  - discriminate.
Defined.

Lemma run_outputs_none (fetch : str -> Pages)
    (dry_run force import_blocks_flag : bool) (w : World) (st : Run) :
  zone_files st = zones_dir w ->
  run_outputs fetch dry_run force import_blocks_flag w st 0 = w.
Proof.
  intros H. unfold run_outputs. cbn. rewrite H. now destruct w.
Qed.

Lemma run_none_processed (fetch : str -> Pages) (zone_pages : ZonePages)
    (dry_run force import_blocks_flag : bool) (domain : option str)
    (all_domains : bool) (w : World) :
  let r := run fetch zone_pages dry_run force import_blocks_flag domain all_domains w in
  processed r = 0 -> world r = w /\ run_processed_zones r = [].
Proof.
  cbv zeta.
  destruct (run_cases fetch zone_pages dry_run force import_blocks_flag domain
              all_domains w)
    as [(_ & _ & ->) | (_ & [(_ & ->) | [(_ & ->) | (zones & _ & _ & [(_ & ->) | (st & p & s & Hz & ->)])]])];
    cbn [world processed run_processed_zones]; try (now split).
  intros ->. apply run_zones_loop in Hz as (todo & Hl & _). symmetry in Hl.
  apply process_all_none_processed in Hl as (_ & Hl).
  destruct (Hl eq_refl) as (Hf & Hp). cbn [zone_files processed_zones] in Hf, Hp.
  split; [now apply run_outputs_none | exact Hp].
Qed.

(** X14: a run that counts no zone as processed (every zone is private or
    has its file already) touches no file: the zone files, the two outputs
    documents and [imports.tf] are what they were, and no zone is kept for
    the outputs. *)
Theorem run_nothing_processed_writes_nothing (fetch : str -> Pages)
    (zone_pages : ZonePages) (dry_run force import_blocks_flag : bool)
    (domain : option str) (all_domains : bool) (w : World) :
  let r := run fetch zone_pages dry_run force import_blocks_flag domain all_domains w in
  processed r = 0 -> world r = w /\ run_processed_zones r = [].
Proof. apply run_none_processed. Qed.

Lemma run_nothing_processed_writes_nothing_witness :
  world (run example_fetch example_zone_pages false false true None true
           {| zones_dir := [ (L "example.com.tf", L "# kept by hand");
                             (L "dev.example.com.tf", []) ];
              root_outputs_tf := None; imports_tf := None |})
  = {| zones_dir := [ (L "example.com.tf", L "# kept by hand");
                      (L "dev.example.com.tf", []) ];
       root_outputs_tf := None; imports_tf := None |}.
Proof.
  apply (run_nothing_processed_writes_nothing example_fetch example_zone_pages
           false false true None true).
  vm_compute. reflexivity.
Defined.

(** ** A second run *)

Lemma existsb_write_back (f : str * str -> bool) (dir : list (str * str))
    (filename : str) (written : option str) :
  existsb f dir = true -> existsb f (write_back dir filename written) = true.
Proof.
  intros H. destruct written as [c|]; [|exact H].
  simpl. rewrite H. apply orb_true_r.
Qed.

Lemma run_outputs_exists (fetch : str -> Pages)
    (dry_run force import_blocks_flag : bool) (w : World) (st : Run) (p : nat)
    (domain : str) :
  check_file_exists st domain = true ->
  check_file_exists
    {| zone_files := zones_dir (run_outputs fetch dry_run force import_blocks_flag w st p);
       processed_zones := []; printed := [] |} domain = true.
Proof.
  unfold check_file_exists, run_outputs. cbn [zone_files zones_dir]. intros H.
  destruct (0 <? p); [now apply existsb_write_back | exact H].
Qed.

Lemma run_zones_same_loop (fetch : str -> Pages) (dry1 force1 dry2 force2 : bool)
    (domain : option str) (zones : list Zone) (st1 st2 : Run)
    (r1 r2 : Run * nat * nat) :
  run_zones fetch dry1 force1 domain zones st1 = Some r1 ->
  run_zones fetch dry2 force2 domain zones st2 = Some r2 ->
  exists todo,
    r1 = process_all fetch dry1 force1 st1 todo zones 0 0
    /\ r2 = process_all fetch dry2 force2 st2 todo zones 0 0.
Proof.
  intros H1 H2.
  apply run_zones_loop in H1 as (todo1 & Hl1 & _ & Hm1).
  apply run_zones_loop in H2 as (todo2 & Hl2 & _ & Hm2).
  exists todo1. split; [exact Hl1|].
  destruct (truthy domain).
  - destruct Hm1 as (z1 & -> & Hn1). destruct Hm2 as (z2 & -> & Hn2).
    rewrite Hn1 in Hn2. now injection Hn2 as <-.
  - now subst.
Qed.

(** X15: after a run that wrote its files, a second run with the same
    choice of zones and without [--force] finds, for the same listing,
    every zone private or with its file: it processes none and leaves every
    file as the first run left it. *)
Theorem run_second_time_changes_nothing (fetch : str -> Pages)
    (zone_pages : ZonePages) (force import_blocks_1 import_blocks_2 : bool)
    (domain : option str) (all_domains : bool) (w : World) :
  let first := run fetch zone_pages false force import_blocks_1 domain all_domains w in
  let second :=
    run fetch zone_pages false false import_blocks_2 domain all_domains (world first) in
  status first = Returns tt ->
  processed second = 0
  /\ run_processed_zones second = []
  /\ world second = world first.
Proof.
  cbv zeta. intros Hs.
  set (first := run fetch zone_pages false force import_blocks_1 domain all_domains w) in *.
  assert (Hp : processed (run fetch zone_pages false false import_blocks_2 domain
                            all_domains (world first)) = 0).
  { destruct (run_cases fetch zone_pages false false import_blocks_2 domain
                all_domains (world first))
      as [(_ & _ & ->) | (_ & [(_ & ->) | [(_ & ->) | (zones & Hl & Hne & [(_ & ->) | (st2 & p2 & s2 & Hz2 & ->)])]])];
      try reflexivity.
    cbn [processed].
    destruct (run_cases fetch zone_pages false force import_blocks_1 domain
                all_domains w)
      as [(_ & _ & E) | (_ & [(_ & E) | [(Hl' & E) | (zones' & Hl' & _ & [(_ & E) | (st1 & p1 & s1 & Hz1 & E)])]])];
      fold first in E; try (rewrite E in Hs; discriminate).
    - rewrite Hl in Hl'. injection Hl' as ->. contradiction.
    - rewrite Hl in Hl'. injection Hl' as <-.
      destruct (run_zones_same_loop _ _ _ _ _ _ _ _ _ _ _ Hz1 Hz2)
        as (todo & Hl1 & Hl2).
      symmetry in Hl1, Hl2.
      apply (process_all_all_skipped _ _ _ _ _ _ _ _ _ _ _ Hl2).
      intros zone Hzone.
      destruct (process_all_files_exist _ _ _ _ _ _ _ _ _ _ zone Hl1 Hzone)
        as [Hpriv | Hex].
      + unfold is_processed. rewrite Hpriv. apply andb_false_r.
      + unfold is_processed. rewrite E. cbn [world].
        rewrite (run_outputs_exists _ _ _ _ _ _ _ _ Hex). reflexivity. }
  split; [exact Hp|].
  destruct (run_none_processed fetch zone_pages false false import_blocks_2 domain
              all_domains (world first) Hp) as (H1 & H2).
  now split.
Qed.

Lemma run_second_time_changes_nothing_witness :
  let first :=
    run example_fetch example_zone_pages false false true None true example_world in
  world (run example_fetch example_zone_pages false false true None true (world first))
  = world first.
Proof.
  apply (run_second_time_changes_nothing example_fetch example_zone_pages
           false true true None true example_world).
  vm_compute. reflexivity.
Defined.

(** ** The zone files of a run *)

Lemma get_terraform_filename_inj (a b : str) :
  get_terraform_filename a = get_terraform_filename b -> a = b.
Proof. unfold get_terraform_filename. apply app_inv_tail. Qed.

(** Every zone kept has the file of a public zone of its name. *)
Lemma process_all_contents (fetch : str -> Pages) (force : bool)
    (todo all_zones : list Zone) (st : Run) (p s : nat) (st' : Run) (p' s' : nat) :
  let kept_have_files (st : Run) :=
    forall zone_info, In zone_info (processed_zones st) ->
      exists zone,
        In zone all_zones /\ z_name zone = p_name zone_info
        /\ z_private zone = false
        /\ read_file (zone_files st) (get_terraform_filename (p_name zone_info))
           = Some (zone_file_content fetch zone all_zones) in
  process_all fetch false force st todo all_zones p s = (st', p', s') ->
  (forall zone, In zone todo -> In zone all_zones) ->
  kept_have_files st -> kept_have_files st'.
Proof.
  cbv zeta. revert st p s.
  induction todo as [|zone rest IH]; intros st p s H Hsub Hst; simpl in H.
  - now injection H as <- _ _.
  - destruct (process_zone fetch false force st zone all_zones) as [ok st1] eqn:Ez.
    apply process_zone_step in Ez as (Hok & Hf & Hp).
    assert (Hrest : process_all fetch false force st1 rest all_zones
                      (if ok then S p else p) (if ok then s else S s)
                    = (st', p', s')) by (destruct ok; exact H).
    apply (IH _ _ _ Hrest); [intros z Hz; apply Hsub; now right|].
    destruct ok; cbn [andb negb] in Hf; [|now rewrite Hf, Hp].
    assert (Hpub : z_private zone = false).
    { symmetry in Hok. unfold is_processed in Hok.
      apply andb_true_iff in Hok as (_ & Hok). now apply negb_true_iff in Hok. }
    intros zone_info Hin. rewrite Hp in Hin. rewrite Hf.
    apply in_app_or in Hin as [Hin | [<- | []]].
    + destruct (str_eqb (get_terraform_filename (z_name zone))
                  (get_terraform_filename (p_name zone_info))) eqn:En.
      * apply str_eqb_eq in En. exists zone.
        rewrite <- En, read_file_written.
        repeat split; try assumption.
        -- apply Hsub. now left.
        -- now apply get_terraform_filename_inj.
      * apply str_eqb_neq in En.
        destruct (Hst zone_info Hin) as (z0 & H1 & H2 & H3 & H4).
        exists z0. rewrite read_file_other by assumption. now repeat split.
    + exists zone. cbn [processed_entry p_name]. rewrite read_file_written.
      repeat split; try assumption. apply Hsub. now left.
Qed.

(** X16: after a run that writes (no dry run) and ends normally, every zone
    kept for the outputs has its file in the zones directory, and the
    content is the configuration generated for a listed public zone of that
    name from its records and its parent among the listed zones.  (A zone
    named [outputs] apart, whose file is the group document.) *)
Theorem run_writes_zone_files (fetch : str -> Pages) (zone_pages : ZonePages)
    (force import_blocks_flag : bool) (domain : option str) (all_domains : bool)
    (w : World) (zones : list Zone) (zone_info : ProcessedZone) :
  let r := run fetch zone_pages false force import_blocks_flag domain all_domains w in
  fst (list_hosted_zones zone_pages) = Returns zones ->
  In zone_info (run_processed_zones r) ->
  p_name zone_info <> L "outputs" ->
  exists zone,
    In zone zones /\ z_name zone = p_name zone_info /\ z_private zone = false
    /\ read_file (zones_dir (world r)) (get_terraform_filename (p_name zone_info))
       = Some (generate_terraform_content zone
                 (fst (get_zone_records (z_name zone) (fetch (z_id zone))))
                 (is_subdomain (z_name zone) zones)).
Proof.
  cbv zeta. intros Hl.
  destruct (run_cases fetch zone_pages false force import_blocks_flag domain
              all_domains w)
    as [(_ & _ & ->) | (_ & [(_ & ->) | [(_ & ->) | (zones' & Hl' & _ & [(_ & ->) | (st & p & s & Hz & ->)])]])];
    cbn [world run_processed_zones]; try contradiction.
  rewrite Hl in Hl'. injection Hl' as <-.
  intros Hin Hname.
  apply run_zones_loop in Hz as (todo & Hloop & Hsub & _). symmetry in Hloop.
  pose proof (process_all_contents fetch force todo zones _ 0 0 st p s Hloop Hsub)
    as Hc.
  cbv zeta in Hc. cbn [processed_zones] in Hc.
  destruct (Hc ltac:(intros ? []) zone_info Hin) as (zone & H1 & H2 & H3 & H4).
  exists zone. repeat split; try assumption.
  rewrite run_outputs_zone_file; [exact H4|].
  intros E. apply Hname.
  now apply (app_inv_tail (L ".tf")).
Qed.

Lemma run_writes_zone_files_witness :
  exists zone,
    In zone [ hosted_zone_entry (example_hosted_zone "/hostedzone/Z1" "example.com.");
              hosted_zone_entry (example_hosted_zone "/hostedzone/Z2" "dev.example.com.") ]
    /\ z_name zone = L "example.com" /\ z_private zone = false
    /\ read_file
         (zones_dir
            (world (run example_fetch example_zone_pages false false false None true
                      example_world)))
         (L "example.com.tf")
       = Some (generate_terraform_content zone
                 (fst (get_zone_records (z_name zone) (example_fetch (z_id zone))))
                 (is_subdomain (z_name zone)
                    [ hosted_zone_entry (example_hosted_zone "/hostedzone/Z1" "example.com.");
                      hosted_zone_entry (example_hosted_zone "/hostedzone/Z2" "dev.example.com.") ])).
Proof.
  apply (run_writes_zone_files example_fetch example_zone_pages false false None true
           example_world _
           (processed_entry example_fetch
              (hosted_zone_entry (example_hosted_zone "/hostedzone/Z1" "example.com."))
              [ hosted_zone_entry (example_hosted_zone "/hostedzone/Z1" "example.com.");
                hosted_zone_entry (example_hosted_zone "/hostedzone/Z2" "dev.example.com.") ])).
  - reflexivity.
  - vm_compute. left. reflexivity.
  - vm_compute. discriminate.
Defined.

(** ** Reading [imports.tf] back *)

Lemma one_line_app (a b : str) : one_line (a ++ b) = one_line a && one_line b.
Proof. apply forallb_app. Qed.

Lemma is_linebreak_isspace (c : ascii) : is_linebreak c = true -> isspace c = true.
Proof.
  destruct c as [[] [] [] [] [] [] [] []]; vm_compute; intros H;
    first [reflexivity | discriminate H].
Qed.

Lemma plain_one_line (s : str) : plain_name s = true -> one_line s = true.
Proof.
  unfold plain_name, one_line. rewrite !forallb_forall. intros H c Hc.
  specialize (H c Hc). unfold plain_char in H.
  apply andb_true_iff in H as (H & _). apply negb_true_iff in H.
  apply negb_true_iff. destruct (is_linebreak c) eqn:E; [|reflexivity].
  apply is_linebreak_isspace in E. congruence.
Qed.

Lemma one_line_firstn (n : nat) (s : str) :
  one_line s = true -> one_line (firstn n s) = true.
Proof.
  intros H. rewrite <- (firstn_skipn n s), one_line_app in H.
  now apply andb_true_iff in H as (H & _).
Qed.

Lemma one_line_replace_from (old new : str) (k : nat) (s : str) :
  one_line new = true -> one_line s = true ->
  one_line (replace_from old new k s) = true.
Proof.
  intros Hn. revert k. induction s as [|c s IH]; intros k Hs; [reflexivity|].
  simpl in Hs. apply andb_true_iff in Hs as (Hc & Hs).
  cbn [replace_from]. destruct k as [|k]; [|now apply IH].
  destruct (startswith old (c :: s)).
  - rewrite one_line_app, Hn. now apply IH.
  - simpl. rewrite Hc. now apply IH.
Qed.

Lemma one_line_rstrip_by (f : ascii -> bool) (s : str) :
  one_line s = true -> one_line (rstrip_by f s) = true.
Proof.
  intros H. destruct (rstrip_by_split f s) as (w & E & _).
  rewrite E, one_line_app in H. now apply andb_true_iff in H as (H & _).
Qed.

Lemma one_line_relative_name (zone_name owner : str) :
  one_line owner = true -> one_line (relative_name_spec zone_name owner) = true.
Proof.
  intros H. unfold relative_name_spec. cbv zeta.
  set (base := if str_eqb owner zone_name then [] else _).
  assert (Hb : one_line base = true).
  { subst base. destruct (str_eqb owner zone_name); [reflexivity|].
    destruct (endswith _ owner); [now apply one_line_firstn | exact H]. }
  assert (Hr : one_line (replace (L "\100") (L "@") base) = true)
    by now apply one_line_replace_from.
  destruct (str_eqb _ (L "@")); [reflexivity|].
  destruct (endswith (L ".@") _); [now apply one_line_firstn|].
  destruct (endswith (L ".\100") _); [now apply one_line_firstn | exact Hr].
Qed.

Lemma one_line_quoted (x : str) : one_line x = true -> one_line (quoted x) = true.
Proof.
  intros H. unfold quoted.
  change (dq :: x ++ [dq]) with ([dq] ++ x ++ [dq]).
  now rewrite !one_line_app, H.
Qed.

Lemma one_line_zone_module (zone_name : str) (is_sub : bool) :
  one_line (zone_module_of (sanitize_module_name zone_name) is_sub) = true.
Proof. apply plain_one_line, zone_module_plain, sanitize_plain. Qed.

Lemma one_line_records_module (zone_name : str) (is_sub : bool) :
  one_line (records_module_of (sanitize_module_name zone_name) is_sub) = true.
Proof. apply plain_one_line, records_module_plain, sanitize_plain. Qed.

(** The three texts of every binding are in one line each. *)
Lemma bindings_one_line (fetch : str -> Pages) (ps : list ProcessedZone) :
  Forall (fun z => one_line_zone z = true) ps ->
  (forall z, In z ps ->
     Forall (fun r => one_line_record r = true)
            (records_of fetch (p_id z) (p_name z))) ->
  Forall (fun b => one_line (b_comment b) = true /\ one_line (b_to b) = true
                   /\ one_line (b_id b) = true)
         (bindings fetch ps).
Proof.
  intros Hz Hr. apply Forall_forall. intros b Hb.
  unfold bindings in Hb. apply in_flat_map in Hb as (z & Hin & Hb).
  rewrite Forall_forall in Hz. specialize (Hz z Hin). specialize (Hr z Hin).
  unfold one_line_zone in Hz. apply andb_true_iff in Hz as (Hname & Hid).
  destruct (p_existing z); [|contradiction].
  destruct Hb as [<- | Hb].
  - cbn [zone_binding b_comment b_to b_id]. split; [reflexivity|].
    split; [|exact Hid]. unfold to_addr_zone.
    rewrite !one_line_app, one_line_zone_module, one_line_quoted by assumption.
    reflexivity.
  - apply in_map_iff in Hb as (r & <- & Hrin).
    unfold importable in Hrin. apply filter_In in Hrin as (Hrin & _).
    rewrite Forall_forall in Hr. specialize (Hr r Hrin).
    unfold one_line_record in Hr. apply andb_true_iff in Hr as (Hrn & Hrt).
    assert (Hkey : one_line (terraform_key (p_name z) r) = true).
    { unfold terraform_key.
      replace (import_record_name (p_name z) (r_name r))
        with (relative_name_spec (p_name z) (r_name r))
        by (symmetry; exact (content_record_name_spec (p_name z) (r_name r))).
      rewrite !one_line_app, one_line_relative_name, Hrt by assumption.
      reflexivity. }
    cbn [record_binding b_comment b_to b_id]. split; [|split].
    + now rewrite one_line_app, Hkey.
    + unfold to_addr_rec.
      rewrite !one_line_app, one_line_records_module, one_line_quoted by assumption.
      reflexivity.
    + unfold import_identifier.
      rewrite !one_line_app, Hid, Hrt. cbn [andb].
      rewrite andb_true_r. apply one_line_replace_from; [reflexivity|].
      now apply one_line_rstrip_by.
Qed.

(** [splitlines] gives back lines that were ended by line feeds. *)
Lemma splitlines_from_line (cur l rest : str) :
  one_line l = true ->
  splitlines_from cur (l ++ nl :: rest) = (rev cur ++ l) :: splitlines_from [] rest.
Proof.
  revert cur. induction l as [|c l IH]; intros cur H.
  - cbn [app splitlines_from].
    change (is_linebreak nl) with true. change (Ascii.eqb nl cr) with false.
    cbv iota. now rewrite app_nil_r.
  - simpl in H. apply andb_true_iff in H as (Hc & Hl).
    apply negb_true_iff in Hc.
    cbn [app splitlines_from]. rewrite Hc, (IH (c :: cur) Hl).
    cbn [rev]. now rewrite <- app_assoc.
Qed.

Lemma splitlines_lines_text (ls : list str) :
  Forall (fun l => one_line l = true) ls -> splitlines (lines_text ls) = ls.
Proof.
  induction 1 as [|l ls Hl Hls IH]; [reflexivity|].
  unfold splitlines, lines_text. cbn [flat_map].
  rewrite <- app_assoc. cbn [app].
  rewrite splitlines_from_line by assumption. cbn [rev app]. f_equal. exact IH.
Qed.

Lemma addresses_of_lines_app (l1 l2 : list str) :
  addresses_of_lines (l1 ++ l2) = addresses_of_lines l1 ++ addresses_of_lines l2.
Proof.
  induction l1 as [|l l1 IH]; [reflexivity|].
  cbn [app addresses_of_lines]. destruct (address_of_line l); [cbn [app]|]; now rewrite IH.
Qed.

Lemma address_of_comment_line (c : str) : address_of_line ("#"%char :: c) = None.
Proof.
  unfold address_of_line.
  assert (E : strip ("#"%char :: c) = "#"%char :: rstrip c).
  { unfold strip, strip_by, lstrip_by.
    change (dropwhile isspace ("#"%char :: c)) with ("#"%char :: c).
    now apply rstrip_by_cons_keep. }
  rewrite E. reflexivity.
Qed.

Lemma address_of_id_line (x : str) : address_of_line (L "  id = " ++ x) = None.
Proof.
  unfold address_of_line.
  assert (E : strip (L "  id = " ++ x) = "i"%char :: rstrip (L "d = " ++ x)).
  { unfold strip, strip_by, lstrip_by.
    change (dropwhile isspace (L "  id = " ++ x)) with ("i"%char :: L "d = " ++ x).
    now apply rstrip_by_cons_keep. }
  rewrite E. reflexivity.
Qed.

(** The addresses read from the blocks are the keys of the bindings. *)
Lemma addresses_of_bindings (bs : list Binding) :
  Forall (fun b => exists c, b_comment b = "#"%char :: c) bs ->
  addresses_of_lines (flat_map (fun b => b_comment b :: binding_statement b) bs)
  = map (fun b => address_key (b_to b)) bs.
Proof.
  induction 1 as [|b bs (c & Hc) Hbs IH]; [reflexivity|].
  cbn [flat_map map]. unfold binding_statement at 1.
  cbn [app addresses_of_lines].
  rewrite Hc, address_of_comment_line.
  change (address_of_line (L "import {")) with (@None str).
  rewrite address_of_to_line, address_of_id_line.
  change (address_of_line (L "}")) with (@None str).
  change (address_of_line []) with (@None str).
  cbv iota. now rewrite IH.
Qed.

Lemma blocks_lines_one_line (bs : list Binding) :
  Forall (fun b => one_line (b_comment b) = true /\ one_line (b_to b) = true
                   /\ one_line (b_id b) = true) bs ->
  Forall (fun l => one_line l = true)
         (flat_map (fun b => b_comment b :: binding_statement b) bs).
Proof.
  induction 1 as [|b bs (H1 & H2 & H3) Hbs IH]; [constructor|].
  cbn [flat_map]. unfold binding_statement at 1. cbn [app].
  constructor; [exact H1|].
  constructor; [reflexivity|].
  constructor; [now rewrite one_line_app, H2|].
  constructor; [rewrite one_line_app; now rewrite one_line_quoted|].
  constructor; [reflexivity|].
  constructor; [reflexivity | exact IH].
Qed.

Lemma blocks_end_empty (bs : list Binding) :
  bs <> [] ->
  exists lines,
    flat_map (fun b => b_comment b :: binding_statement b) bs = lines ++ [ [] ].
Proof.
  destruct bs as [|b bs' _] using rev_ind; [contradiction|]. intros _.
  rewrite flat_map_app. cbn [flat_map]. rewrite app_nil_r.
  eexists (_ ++ [b_comment b; L "import {"; L "  to = " ++ b_to b;
                 L "  id = " ++ quoted (b_id b); L "}"]).
  rewrite <- app_assoc. reflexivity.
Qed.

Lemma parse_written_blocks (bs : list Binding) :
  Forall (fun b => exists c, b_comment b = "#"%char :: c) bs ->
  Forall (fun b => one_line (b_comment b) = true /\ one_line (b_to b) = true
                   /\ one_line (b_id b) = true) bs ->
  _parse_existing_imports_to_addresses
    (unlines (flat_map (fun b => b_comment b :: binding_statement b) bs))
  = map (fun b => address_key (b_to b)) bs.
Proof.
  intros Hc Hl. destruct bs as [|b bs'] eqn:Ebs; [reflexivity|].
  rewrite <- Ebs in *.
  assert (Hne : bs <> []) by (rewrite Ebs; discriminate).
  destruct (blocks_end_empty bs Hne) as (lines & E).
  pose proof (blocks_lines_one_line bs Hl) as Hone.
  pose proof (addresses_of_bindings bs Hc) as Ha.
  rewrite E in *. rewrite unlines_snoc_empty.
  unfold _parse_existing_imports_to_addresses.
  apply Forall_app in Hone as (Hone & _).
  rewrite splitlines_lines_text by assumption.
  rewrite addresses_of_lines_app in Ha. cbn in Ha. now rewrite app_nil_r in Ha.
Qed.

(** X17: when no name, identifier or type holds a line boundary, the
    addresses that [_parse_existing_imports_to_addresses] reads from the
    [imports.tf] that [generate_import_blocks] writes (no file before, or
    [--force]) are the target addresses of the bindings, one for each
    binding, in their order. *)
Theorem imports_file_round_trip (fetch : str -> Pages) (ps : list ProcessedZone)
    (force : bool) (imports_file : option str) :
  ps <> [] ->
  imports_file = None \/ force = true ->
  Forall (fun z => one_line_zone z = true) ps ->
  (forall z, In z ps ->
     Forall (fun r => one_line_record r = true)
            (records_of fetch (p_id z) (p_name z))) ->
  generate_import_blocks fetch ps false force imports_file
  = Some (unlines (import_blocks fetch ps))
  /\ _parse_existing_imports_to_addresses (unlines (import_blocks fetch ps))
     = map (fun b => address_key (b_to b)) (bindings fetch ps).
Proof.
  intros Hne Hnew Hz Hr. split.
  - unfold generate_import_blocks. destruct ps; [contradiction|].
    destruct Hnew as [-> | ->]; [reflexivity | now destruct imports_file].
  - rewrite import_blocks_bindings.
    apply parse_written_blocks;
      [apply bindings_comments | now apply bindings_one_line].
Qed.

Lemma imports_file_round_trip_witness :
  _parse_existing_imports_to_addresses
    (unlines (import_blocks example_fetch [example_processed "Z1" "example.com" true]))
  = map (fun b => address_key (b_to b))
        (bindings example_fetch [example_processed "Z1" "example.com" true]).
Proof.
  apply (imports_file_round_trip example_fetch
           [example_processed "Z1" "example.com" true] false None).
  - discriminate.
  - now left.
  - repeat constructor.
  - intros z [<- | []]. vm_compute. repeat constructor.
Defined.

Lemma flat_map_ext_in {A B : Type} (f g : A -> list B) (l : list A) :
  (forall x, In x l -> f x = g x) -> flat_map f l = flat_map g l.
Proof.
  induction l as [|x l IH]; intros H; [reflexivity|].
  cbn [flat_map]. rewrite (H x) by now left.
  f_equal. apply IH. intros y Hy. apply H. now right.
Qed.

(** X18: against the [imports.tf] it wrote itself, a second
    [generate_import_blocks] without [--force] emits no import statement:
    of every binding only the comment line and an empty line are left, and
    these are appended to the file, so the file grows by the comments and
    not by a binding. *)
Theorem import_blocks_second_run (fetch : str -> Pages) (ps : list ProcessedZone) :
  ps <> [] ->
  Forall (fun z => one_line_zone z = true) ps ->
  (forall z, In z ps ->
     Forall (fun r => one_line_record r = true)
            (records_of fetch (p_id z) (p_name z))) ->
  let written := unlines (import_blocks fetch ps) in
  let comments := flat_map (fun b => [b_comment b; []]) (bindings fetch ps) in
  generate_import_blocks fetch ps false false None = Some written
  /\ emitted_blocks fetch ps false (Some written) = comments
  /\ ~ In (L "import {") comments
  /\ (forall addr, ~ In (L "  to = " ++ addr) comments)
  /\ generate_import_blocks fetch ps false false (Some written)
     = Some match comments with
            | [] => written
            | _ :: _ =>
                rstrip written ++ [nl; nl] ++ rstrip (unlines comments) ++ [nl]
            end.
Proof.
  intros Hne Hz Hr. cbv zeta.
  assert (Hparse : _parse_existing_imports_to_addresses
                     (unlines (import_blocks fetch ps))
                   = map (fun b => address_key (b_to b)) (bindings fetch ps)).
  { rewrite import_blocks_bindings.
    apply parse_written_blocks;
      [apply bindings_comments | now apply bindings_one_line]. }
  assert (Hem : filter_blocks
                  (_parse_existing_imports_to_addresses
                     (unlines (import_blocks fetch ps)))
                  (import_blocks fetch ps)
                = flat_map (fun b => [b_comment b; []]) (bindings fetch ps)).
  { rewrite filter_blocks_import_blocks, Hparse.
    apply flat_map_ext_in. intros b Hb.
    assert (Hm : mem (address_key (b_to b))
                   (map (fun b => address_key (b_to b)) (bindings fetch ps)) = true).
    { apply mem_In, in_map_iff. now exists b. }
    now rewrite Hm. }
  assert (Hshape : forall line,
             In line (flat_map (fun b => [b_comment b; []]) (bindings fetch ps)) ->
             line = [] \/ exists c, line = "#"%char :: c).
  { intros line Hin. apply in_flat_map in Hin as (b & Hb & Hin).
    pose proof (bindings_comments fetch ps) as Hc.
    rewrite Forall_forall in Hc. specialize (Hc b Hb).
    destruct Hin as [<- | [<- | []]]; [now right | now left]. }
  split; [destruct ps; [contradiction | reflexivity]|].
  split; [exact Hem|].
  split; [intros Hin; destruct (Hshape _ Hin) as [H | (c & H)]; discriminate|].
  split; [intros addr Hin; destruct (Hshape _ Hin) as [H | (c & H)]; discriminate|].
  unfold generate_import_blocks. destruct ps; [contradiction|].
  now rewrite Hem.
Qed.

Lemma import_blocks_second_run_witness :
  emitted_blocks example_fetch [example_processed "Z1" "example.com" true] false
    (Some (unlines (import_blocks example_fetch
                      [example_processed "Z1" "example.com" true])))
  = flat_map (fun b => [b_comment b; []])
      (bindings example_fetch [example_processed "Z1" "example.com" true]).
Proof.
  apply (import_blocks_second_run example_fetch
           [example_processed "Z1" "example.com" true]).
  - discriminate.
  - repeat constructor.
  - intros z [<- | []]. vm_compute. repeat constructor.
Defined.

(** ** The names read from a document *)

Lemma match_output_here_shape (s body : str) (n : nat) :
  match_output_here s = Some (body, n) ->
  exists ws rest,
    s = L "output" ++ ws ++ quoted body ++ rest
    /\ ws <> [] /\ forallb isspace ws = true
    /\ body <> [] /\ forallb not_dq body = true.
Proof.
  destruct (startswith (L "output") s) eqn:E;
    [|rewrite match_output_here_not_output by assumption; discriminate].
  apply startswith_iff in E as (s1 & ->).
  rewrite match_output_here_output.
  pose proof (span_eq isspace s1) as E1.
  pose proof (span_fst_all isspace s1) as A1.
  destruct (span isspace s1) as [ws s2]. simpl in E1, A1.
  destruct ws as [|w ws]; [discriminate|].
  destruct s2 as [|q s3]; [discriminate|].
  destruct (Ascii.eqb q dq) eqn:Eq; [|discriminate].
  apply Ascii.eqb_eq in Eq. subst q.
  pose proof (span_eq not_dq s3) as E2.
  pose proof (span_fst_all not_dq s3) as A2.
  pose proof (span_snd_head not_dq s3) as H2.
  destruct (span not_dq s3) as [b s4]. simpl in E2, A2, H2.
  destruct b as [|b0 b]; [discriminate|].
  destruct s4 as [|d s5]; [discriminate|].
  intros H. injection H as <- _.
  specialize (H2 d s5 eq_refl). unfold not_dq in H2.
  apply negb_false_iff, Ascii.eqb_eq in H2. subst d.
  exists (w :: ws), s5. repeat split; try assumption; try discriminate.
  rewrite E1, E2. unfold quoted. cbn [app]. now rewrite <- app_assoc.
Qed.

Lemma findall_from_In (skip : nat) (s name : str) :
  In name (findall_from skip s) ->
  exists pre ws post,
    s = pre ++ L "output" ++ ws ++ quoted name ++ post
    /\ ws <> [] /\ forallb isspace ws = true
    /\ name <> [] /\ forallb not_dq name = true.
Proof.
  revert skip. induction s as [|c s IH]; intros skip H; [contradiction|].
  assert (Hrest : forall k, In name (findall_from k s) ->
            exists pre ws post,
              c :: s = pre ++ L "output" ++ ws ++ quoted name ++ post
              /\ ws <> [] /\ forallb isspace ws = true
              /\ name <> [] /\ forallb not_dq name = true).
  { intros k Hk. destruct (IH k Hk) as (pre & ws & post & -> & Hrest).
    now exists (c :: pre), ws, post. }
  cbn [findall_from] in H. destruct skip as [|k]; [|now apply (Hrest k)].
  destruct (match_output_here (c :: s)) as [[body n]|] eqn:Em;
    [|now apply (Hrest 0)].
  destruct H as [<- | H]; [|now apply (Hrest (n - 1))].
  apply match_output_here_shape in Em as (ws & rest & E & Hm).
  now exists [], ws, rest.
Qed.

(** X19: every name that [parse_root_outputs_file] and
    [parse_zones_outputs_file] return stands in the document, in double
    quotes behind the word [output] and white space; it is not empty and
    holds no double quote.  The names of the group document are those of
    this kind other than [all_zones].  An absent document has no names. *)
Theorem parsed_names_occur (content name : str) :
  (In name (parse_root_outputs_file (Some content)) ->
   exists pre ws post,
     content = pre ++ L "output" ++ ws ++ quoted name ++ post
     /\ ws <> [] /\ forallb isspace ws = true
     /\ name <> [] /\ forallb not_dq name = true)
  /\ (In name (parse_zones_outputs_file (Some content))
      <-> name <> ALL_ZONES /\ In name (parse_root_outputs_file (Some content)))
  /\ parse_zones_outputs_file None = []
  /\ parse_root_outputs_file None = [].
Proof.
  split; [apply findall_from_In|].
  split; [|now split].
  unfold parse_zones_outputs_file, parse_root_outputs_file.
  rewrite filter_In, negb_true_iff, str_eqb_neq. tauto.
Qed.

Lemma parsed_names_occur_witness :
  exists pre ws post,
    example_group_doc = pre ++ L "output" ++ ws ++ quoted (L "extra") ++ post
    /\ ws <> [] /\ forallb isspace ws = true
    /\ L "extra" <> [] /\ forallb not_dq (L "extra") = true.
Proof.
  assert (H : In (L "extra") (parse_root_outputs_file (Some example_group_doc))).
  { vm_compute. right. left. reflexivity. }
  exact (proj1 (parsed_names_occur example_group_doc (L "extra")) H).
Defined.

(** ** The documents a run leaves *)

Lemma update_zones_outputs_file_absent (ps : list ProcessedZone) :
  ps <> [] -> update_zones_outputs_file ps false None <> None.
Proof.
  intros H. rewrite (update_zones_outputs_file_fresh ps None H eq_refl).
  discriminate.
Qed.

Lemma update_root_outputs_file_absent (ps : list ProcessedZone) :
  ps <> [] -> update_root_outputs_file ps false None <> None.
Proof.
  intros H. rewrite (update_root_outputs_file_fresh ps H). discriminate.
Qed.

Lemma after_update_exists (file written : option str) :
  file <> None \/ written <> None -> after_update file written <> None.
Proof.
  destruct written; [discriminate|]. destruct file; [discriminate|].
  intros [H | H]; contradiction.
Qed.

Lemma read_file_write_back_same (dir : list (str * str)) (filename : str)
    (written : option str) :
  read_file (write_back dir filename written) filename
  = after_update (read_file dir filename) written.
Proof.
  destruct written as [c|]; [apply read_file_written | reflexivity].
Qed.

Lemma generate_import_blocks_writes (fetch : str -> Pages)
    (ps : list ProcessedZone) (force : bool) (imports_file : option str) :
  ps <> [] -> generate_import_blocks fetch ps false force imports_file <> None.
Proof.
  intros H. unfold generate_import_blocks. destruct ps; [contradiction|].
  destruct imports_file, force; discriminate.
Qed.

(** X20: after a run that writes (no dry run) and processes at least one
    zone, the group document and the root document exist, and so does
    [imports.tf] when import blocks are asked for; without that option
    [imports.tf] is left as it was. *)
Theorem run_leaves_documents (fetch : str -> Pages) (zone_pages : ZonePages)
    (force import_blocks_flag : bool) (domain : option str) (all_domains : bool)
    (w : World) :
  let r := run fetch zone_pages false force import_blocks_flag domain all_domains w in
  0 < processed r ->
  read_file (zones_dir (world r)) OUTPUTS_TF <> None
  /\ root_outputs_tf (world r) <> None
  /\ (if import_blocks_flag
      then imports_tf (world r) <> None
      else imports_tf (world r) = imports_tf w).
Proof.
  cbv zeta.
  destruct (run_cases fetch zone_pages false force import_blocks_flag domain
              all_domains w)
    as [(_ & _ & ->) | (_ & [(_ & ->) | [(_ & ->) | (zones & _ & _ & [(_ & ->) | (st & p & s & Hz & ->)])]])];
    cbn [world processed]; try lia.
  intros Hp.
  assert (Hne : processed_zones st <> []).
  { apply run_selection in Hz as (_ & kept & Hk & Hlen & _).
    cbn [processed_zones app] in Hk. rewrite Hk.
    destruct kept; [simpl in Hlen; lia | discriminate]. }
  apply Nat.ltb_lt in Hp.
  unfold run_outputs. rewrite Hp. cbn [zones_dir root_outputs_tf imports_tf andb negb].
  split; [|split].
  - rewrite read_file_write_back_same. apply after_update_exists.
    destruct (read_file (zone_files st) OUTPUTS_TF); [left; discriminate | right].
    now apply update_zones_outputs_file_absent.
  - apply after_update_exists.
    destruct (root_outputs_tf w); [left; discriminate | right].
    now apply update_root_outputs_file_absent.
  - destruct import_blocks_flag; [|reflexivity].
    apply after_update_exists. right. now apply generate_import_blocks_writes.
Qed.

Lemma run_leaves_documents_witness :
  root_outputs_tf
    (world (run example_fetch example_zone_pages false false true None true
              example_world)) <> None.
Proof.
  apply (run_leaves_documents example_fetch example_zone_pages false true None true
           example_world).
  vm_compute. lia.
Defined.
